(** * Offline-first task sync: the task service and the sync service

    A shallow embedding of [TaskService] (createTask, updateTask,
    deleteTask) and of [SyncService] (sync, processBatch, resolveConflict,
    updateSyncStatus, handleSyncError), with the SQLite tables as lists of
    rows, and the clock, the uuid generator, the HTTP client and the
    failures of the database driver as oracles of an environment. *)

From Stdlib Require Import String ZArith Lia Bool Arith PeanoNat List Sorted.
Import ListNotations.
Open Scope string_scope.
Open Scope nat_scope.
Open Scope list_scope.

(* ================================================================== *)
(** ** Data model *)

(** A JavaScript date: [new Date(x)] is either an instant (milliseconds
    since the epoch) or an invalid date, whose [getTime()] is NaN. *)
Inductive DateValue : Type :=
| Instant (ms : Z)
| InvalidDate.

(** [getTime()]: [None] stands for NaN. *)
Definition getTime (d : DateValue) : option Z :=
  match d with
  | Instant ms => Some ms
  | InvalidDate => None
  end.

(** The JavaScript comparison [a >= b] on numbers: false as soon as one
    side is NaN. *)
Definition js_ge (a b : option Z) : bool :=
  match a, b with
  | Some x, Some y => (y <=? x)%Z
  | _, _ => false
  end.

Inductive SyncStatus : Type := St_pending | St_synced | St_error.

Inductive Operation : Type := Op_create | Op_update | Op_delete.

Inductive ResultStatus : Type := Rs_success | Rs_conflict | Rs_error.

(** The [Task] entity (a row of table [tasks]). *)
Record Task : Type := mkTask {
  t_id : string;
  t_title : string;
  t_description : string;
  t_completed : bool;
  t_created_at : DateValue;
  t_updated_at : DateValue;
  t_is_deleted : bool;
  t_sync_status : SyncStatus;
  t_server_id : option string;
  t_last_synced_at : option DateValue
}.

(** [Partial<Task>], restricted to the fields the services read. *)
Record PartialTask : Type := mkPartial {
  p_title : option string;
  p_description : option string;
  p_completed : option bool;
  p_server_id : option string
}.

(** A full task passed where a [Partial<Task>] is expected. *)
Definition partial_of_task (t : Task) : PartialTask :=
  {| p_title := Some (t_title t);
     p_description := Some (t_description t);
     p_completed := Some (t_completed t);
     p_server_id := t_server_id t |}.

(** A row of table [sync_queue].  The primary key is nullable in SQL: an
    INSERT that names no [id] column leaves it to the table's default. *)
Record SyncQueueItem : Type := mkItem {
  q_id : option string;
  q_task_id : string;
  q_operation : Operation;
  q_data : Task;
  q_retry_count : nat;
  q_last_error : option string;
  q_created_at : Z
}.

Record Database : Type := mkDb {
  tasks : list Task;
  sync_queue : list SyncQueueItem
}.

Record BatchSyncRequest : Type := mkRequest {
  req_items : list SyncQueueItem;
  client_timestamp : DateValue
}.

(** One entry of [processed_items] in the batch response. *)
Record ProcessedItem : Type := mkProcessed {
  client_id : string;
  r_status : ResultStatus;
  resolved_data : option PartialTask;
  r_server_id : option string;
  r_error : option string
}.

Record BatchSyncResponse : Type := mkResponse {
  processed_items : list ProcessedItem;
  server_timestamp : DateValue
}.

(** The entries pushed on [errors]: a per-item result, or the object built
    in the catch block. *)
Inductive SyncErrorEntry : Type :=
| ErrResult (r : ProcessedItem)
| ErrItem (task_id : string) (operation : Operation) (message : string).

Record SyncResult : Type := mkResult {
  success : bool;
  synced_items : nat;
  failed_items : nat;
  errors : list SyncErrorEntry
}.

(* ================================================================== *)
(** ** The environment and the world *)

Inductive NetReply (A : Type) : Type :=
| Reply (a : A)
| NetError (message : string).
Arguments Reply {A} a.
Arguments NetError {A} message.

(** Modelled from the spec: the schema of table [sync_queue] (module
    db/database) is not among the sources.  The spec's data model gives
    every item an id and a creation time and starts [retry_count] at 0.
    What the table puts in [id] and in [created_at] when an INSERT does not
    name the column is taken from here, for the statement that is the n-th
    call of the database driver; the id may be NULL. *)
Record QueueDefaults : Type := mkDefaults {
  default_item_id : nat -> option string;
  default_created_at : nat -> Z
}.

(** Everything the services take from outside, as oracles indexed by the
    number of earlier calls of the same kind. *)
Record Env : Type := mkEnv {
  (** [process.env.SYNC_BATCH_SIZE] and [process.env.SYNC_RETRY_ATTEMPTS]
      after [parseInt], read at each call; a value that does not parse to a
      natural number is outside the model *)
  SYNC_BATCH_SIZE : nat;
  SYNC_RETRY_ATTEMPTS : nat;
  (** does the n-th call of the database driver reject? *)
  db_fault : nat -> bool;
  (** the n-th reading of the clock, in milliseconds *)
  clock : nat -> Z;
  (** the n-th value of [uuidv4()] *)
  uuid : nat -> string;
  (** the reply to the n-th HTTP call when it is [POST /batch] *)
  net_post : nat -> BatchSyncRequest -> NetReply BatchSyncResponse;
  (** the reply to the n-th HTTP call when it is [GET /tasks/:id] *)
  net_get : nat -> string -> NetReply Task;
  (** what table [sync_queue] puts in the columns an INSERT leaves out *)
  queue_defaults : QueueDefaults
}.

Record World : Type := mkWorld {
  w_db : Database;
  w_dbcalls : nat;
  w_clock : nat;
  w_uuids : nat;
  w_http : nat;
  (** the requests sent to [POST /batch] so far, oldest first *)
  w_posts : list BatchSyncRequest
}.

Inductive Outcome (A : Type) : Type :=
| Ok (a : A)
| Throw (message : string).
Arguments Ok {A} a.
Arguments Throw {A} message.

(** A computation of the services: it reads and writes the world and
    either returns or throws. *)
Definition M (A : Type) : Type := World -> Outcome A * World.

Definition ret {A} (a : A) : M A := fun w => (Ok a, w).

Definition throw {A} (message : string) : M A := fun w => (Throw message, w).

Definition bind {A B} (m : M A) (k : A -> M B) : M B :=
  fun w =>
    match m w with
    | (Ok a, w') => k a w'
    | (Throw e, w') => (Throw e, w')
    end.

Notation "x <- m ;; k" := (bind m (fun x => k))
  (at level 61, m at next level, right associativity).
Notation "m ;;; k" := (bind m (fun _ => k))
  (at level 61, right associativity).

(** [try { m } catch (err) { h err }] *)
Definition try_catch {A} (m : M A) (h : string -> M A) : M A :=
  fun w =>
    match m w with
    | (Ok a, w') => (Ok a, w')
    | (Throw e, w') => h e w'
    end.

Section Primitives.
Variable env : Env.

(** [new Date()]: the instant read from the clock, in milliseconds. *)
Definition new_Date : M Z := fun w =>
  (Ok (clock env (w_clock w)),
   mkWorld (w_db w) (w_dbcalls w) (S (w_clock w)) (w_uuids w) (w_http w)
           (w_posts w)).

(** [uuidv4()] *)
Definition uuidv4 : M string := fun w =>
  (Ok (uuid env (w_uuids w)),
   mkWorld (w_db w) (w_dbcalls w) (w_clock w) (S (w_uuids w)) (w_http w)
           (w_posts w)).

(** [db.run(sql, params)]: the statement is given by its effect on the
    tables; it gets the index of the call for the column defaults. *)
Definition db_run (stmt : nat -> Database -> Database) : M unit := fun w =>
  let n := w_dbcalls w in
  if db_fault env n
  then (Throw "SQLITE_ERROR",
        mkWorld (w_db w) (S n) (w_clock w) (w_uuids w) (w_http w) (w_posts w))
  else (Ok tt,
        mkWorld (stmt n (w_db w)) (S n) (w_clock w) (w_uuids w) (w_http w)
                (w_posts w)).

(** [db.get(sql, params)] and [db.all(sql, params)]: a query is a
    function of the tables. *)
Definition db_query {A} (q : Database -> A) : M A := fun w =>
  let n := w_dbcalls w in
  let w' := mkWorld (w_db w) (S n) (w_clock w) (w_uuids w) (w_http w)
                    (w_posts w) in
  if db_fault env n then (Throw "SQLITE_ERROR", w') else (Ok (q (w_db w)), w').

(** [axios.post(`${apiUrl}/batch`, payload)], then [response.data] *)
Definition axios_post (payload : BatchSyncRequest) : M BatchSyncResponse :=
  fun w =>
    let w' := mkWorld (w_db w) (w_dbcalls w) (w_clock w) (w_uuids w)
                      (S (w_http w)) (w_posts w ++ [payload]) in
    match net_post env (w_http w) payload with
    | Reply r => (Ok r, w')
    | NetError e => (Throw e, w')
    end.

(** [axios.get(`${apiUrl}/tasks/${serverId}`)], then [resp.data] *)
Definition axios_get (serverId : string) : M Task := fun w =>
  let w' := mkWorld (w_db w) (w_dbcalls w) (w_clock w) (w_uuids w)
                    (S (w_http w)) (w_posts w) in
  match net_get env (w_http w) serverId with
  | Reply t => (Ok t, w')
  | NetError e => (Throw e, w')
  end.
End Primitives.

(* ================================================================== *)
(** ** The SQL statements *)

(** [SELECT * FROM tasks WHERE id = ?] through [db.get]: the first row. *)
Definition select_task (id : string) (db : Database) : option Task :=
  find (fun t => String.eqb (t_id t) id) (tasks db).

(** [INSERT INTO tasks (id, title, description, completed, created_at,
    updated_at, is_deleted, sync_status) VALUES ...]: [server_id] and
    [last_synced_at] are not named and stay NULL. *)
Definition sql_insert_task (t : Task) (db : Database) : Database :=
  mkDb (tasks db ++
        [mkTask (t_id t) (t_title t) (t_description t) (t_completed t)
                (t_created_at t) (t_updated_at t) (t_is_deleted t)
                (t_sync_status t) None None])
       (sync_queue db).

(** [INSERT INTO sync_queue (id, task_id, operation, data) VALUES ...]:
    [retry_count] and [created_at] are left to the table; the first starts
    at 0 (the spec's data model), the second comes from the defaults. *)
Definition sql_insert_queue_create (env : Env) (id task_id : string)
    (op : Operation) (data : Task) (n : nat) (db : Database) : Database :=
  mkDb (tasks db)
       (sync_queue db ++
        [mkItem (Some id) task_id op data 0 None
                (default_created_at (queue_defaults env) n)]).

(** [INSERT INTO sync_queue (operation, task_id, data, retry_count,
    created_at) VALUES ...]: [id] is left to the table. *)
Definition sql_insert_queue (env : Env) (op : Operation) (task_id : string)
    (data : Task) (retry_count : nat) (created_at : Z) (n : nat)
    (db : Database) : Database :=
  mkDb (tasks db)
       (sync_queue db ++
        [mkItem (default_item_id (queue_defaults env) n) task_id op data
                retry_count None
                created_at]).

Definition map_task (id : string) (f : Task -> Task) (db : Database)
  : Database :=
  mkDb (map (fun t => if String.eqb (t_id t) id then f t else t) (tasks db))
       (sync_queue db).

(** [UPDATE tasks SET title = ?, description = ?, completed = ?,
    updated_at = ?, sync_status = ? WHERE id = ?] *)
Definition sql_update_task (title description : string) (completed : bool)
    (updated_at : DateValue) (status : SyncStatus) (id : string)
  : Database -> Database :=
  map_task id (fun t =>
    mkTask (t_id t) title description completed (t_created_at t) updated_at
           (t_is_deleted t) status (t_server_id t) (t_last_synced_at t)).

(** [UPDATE tasks SET is_deleted = 1, updated_at = ?, sync_status =
    'pending' WHERE id = ?] *)
Definition sql_soft_delete (now : DateValue) (id : string)
  : Database -> Database :=
  map_task id (fun t =>
    mkTask (t_id t) (t_title t) (t_description t) (t_completed t)
           (t_created_at t) now true St_pending (t_server_id t)
           (t_last_synced_at t)).

(** [UPDATE tasks SET sync_status = ?, server_id = ?, last_synced_at = ?
    WHERE id = ?] with ['synced'] *)
Definition sql_mark_synced (server_id : option string) (now : DateValue)
    (id : string) : Database -> Database :=
  map_task id (fun t =>
    mkTask (t_id t) (t_title t) (t_description t) (t_completed t)
           (t_created_at t) (t_updated_at t) (t_is_deleted t) St_synced
           server_id (Some now)).

(** [UPDATE tasks SET sync_status = 'error' WHERE id = ?] *)
Definition sql_mark_error (id : string) : Database -> Database :=
  map_task id (fun t =>
    mkTask (t_id t) (t_title t) (t_description t) (t_completed t)
           (t_created_at t) (t_updated_at t) (t_is_deleted t) St_error
           (t_server_id t) (t_last_synced_at t)).

(** [DELETE FROM sync_queue WHERE task_id = ?] *)
Definition sql_delete_queue_of_task (task_id : string) (db : Database)
  : Database :=
  mkDb (tasks db)
       (filter (fun r => negb (String.eqb (q_task_id r) task_id))
               (sync_queue db)).

(** The SQL comparison [id = ?]: NULL is equal to nothing. *)
Definition sql_eq (a b : option string) : bool :=
  match a, b with
  | Some x, Some y => String.eqb x y
  | _, _ => false
  end.

Definition set_retry (count : nat) (message : string) (r : SyncQueueItem)
  : SyncQueueItem :=
  mkItem (q_id r) (q_task_id r) (q_operation r) (q_data r) count
         (Some message) (q_created_at r).

(** [UPDATE sync_queue SET retry_count = ?, last_error = ? WHERE id = ?] *)
Definition sql_set_retry (count : nat) (message : string)
    (id : option string) (db : Database) : Database :=
  mkDb (tasks db)
       (map (fun r => if sql_eq (q_id r) id then set_retry count message r
                      else r)
            (sync_queue db)).

(** [ORDER BY created_at ASC], as a stable insertion sort. *)
Fixpoint insert_by_created_at (x : SyncQueueItem) (l : list SyncQueueItem)
  : list SyncQueueItem :=
  match l with
  | [] => [x]
  | y :: l' =>
      if (q_created_at x <? q_created_at y)%Z then x :: l
      else y :: insert_by_created_at x l'
  end.

Definition order_by_created_at (l : list SyncQueueItem)
  : list SyncQueueItem :=
  fold_left (fun acc x => insert_by_created_at x acc) l [].

(** [SELECT * FROM sync_queue WHERE retry_count < ? ORDER BY created_at
    ASC] *)
Definition select_due (retryLimit : nat) (db : Database)
  : list SyncQueueItem :=
  order_by_created_at
    (filter (fun r => q_retry_count r <? retryLimit) (sync_queue db)).

(* ================================================================== *)
(** ** TaskService *)

Section Services.
Variable env : Env.

(** [a ?? b] and, on strings and booleans that default to the falsy
    value, [a || b] *)
Definition or_else {A} (a : option A) (b : A) : A :=
  match a with
  | Some x => x
  | None => b
  end.

Definition createTask (taskData : PartialTask) : M Task :=
  id <- uuidv4 env ;;
  date <- new_Date env ;;
  let task :=
    mkTask id
           (or_else (p_title taskData) "untitled task")
           (or_else (p_description taskData) "")
           (or_else (p_completed taskData) false)
           (Instant date) (Instant date) false St_pending None
           (Some (Instant date)) in
  try_catch
    (db_run env (fun _ => sql_insert_task task) ;;;
     qid <- uuidv4 env ;;
     db_run env (sql_insert_queue_create env qid (t_id task) Op_create task) ;;;
     ret task)
    (fun _ => throw "Not implemented").

Definition updateTask (id : string) (updates : PartialTask)
  : M (option Task) :=
  try_catch
    (existingTask <- db_query env (select_task id) ;;
     match existingTask with
     | None => ret None
     | Some existing =>
         if t_is_deleted existing then ret None
         else
           now <- new_Date env ;;
           let updatedTask :=
             mkTask (t_id existing)
                    (or_else (p_title updates) (t_title existing))
                    (or_else (p_description updates) (t_description existing))
                    (or_else (p_completed updates) (t_completed existing))
                    (t_created_at existing) (Instant now)
                    (t_is_deleted existing) St_pending
                    (t_server_id existing) (t_last_synced_at existing) in
           db_run env (fun _ =>
             sql_update_task (t_title updatedTask) (t_description updatedTask)
                             (t_completed updatedTask)
                             (t_updated_at updatedTask)
                             (t_sync_status updatedTask) id) ;;;
           db_run env (sql_insert_queue env Op_update id updatedTask 0 now) ;;;
           ret (Some updatedTask)
     end)
    (fun _ => throw "Failed to update task").

Definition deleteTask (id : string) : M bool :=
  try_catch
    (existingTask <- db_query env (select_task id) ;;
     match existingTask with
     | None => ret false
     | Some existing =>
         if t_is_deleted existing then ret false
         else
           now <- new_Date env ;;
           db_run env (fun _ => sql_soft_delete (Instant now) id) ;;;
           db_run env (sql_insert_queue env Op_delete id existing 0 now) ;;;
           ret true
     end)
    (fun _ => throw "Failed to delete task").

(* ================================================================ *)
(** ** SyncService *)

(** The condition of line 139, [localTime >= serverTime]. *)
Definition local_wins (localTask serverTask : Task) : bool :=
  js_ge (getTime (t_updated_at localTask))
        (getTime (t_updated_at serverTask)).

Definition resolveConflict (clientId serverId : string) : M Task :=
  localTask <- db_query env (select_task clientId) ;;
  serverTask <- axios_get env serverId ;;
  match localTask with
  | None => throw "TypeError: Cannot read properties of undefined"
  | Some localTask =>
      if local_wins localTask serverTask then ret localTask
      else
        updateTask (t_id localTask) (partial_of_task serverTask) ;;;
        ret serverTask
  end.

(** A string in a condition: the empty string and [undefined] are falsy. *)
Definition truthy (s : option string) : bool :=
  match s with
  | Some x => negb (String.eqb x "")
  | None => false
  end.

Definition is_conflict (r : ProcessedItem) : bool :=
  match r_status r with
  | Rs_conflict => true
  | _ => false
  end.

(** The loop of [processBatch] over [batchResponse.processed_items]. *)
Fixpoint resolve_conflicts (results : list ProcessedItem)
  : M (list ProcessedItem) :=
  match results with
  | [] => ret []
  | result :: rest =>
      result' <-
        (if is_conflict result && truthy (r_server_id result)
            && truthy (Some (client_id result))
         then
           resolvedTask <- resolveConflict (client_id result)
                             (or_else (r_server_id result) "") ;;
           updateTask (t_id resolvedTask) (partial_of_task resolvedTask) ;;;
           ret (mkProcessed (client_id result) Rs_success
                            (Some (partial_of_task resolvedTask))
                            (r_server_id result) (r_error result))
         else ret result) ;;
      rest' <- resolve_conflicts rest ;;
      ret (result' :: rest')
  end.

Definition processBatch (items : list SyncQueueItem)
  : M BatchSyncResponse :=
  stamp <- new_Date env ;;
  batchResponse <- axios_post env (mkRequest items (Instant stamp)) ;;
  results <- resolve_conflicts (processed_items batchResponse) ;;
  ret (mkResponse results (server_timestamp batchResponse)).

Definition updateSyncStatus (taskId : string) (status : SyncStatus)
    (serverData : option PartialTask) : M unit :=
  now <- new_Date env ;;
  match status with
  | St_synced =>
      db_run env (fun _ =>
        sql_mark_synced
          (match serverData with
           | Some d => p_server_id d
           | None => None
           end)
          (Instant now) taskId) ;;;
      db_run env (fun _ => sql_delete_queue_of_task taskId)
  | _ => db_run env (fun _ => sql_mark_error taskId)
  end.

Definition handleSyncError (item : SyncQueueItem) (message : string)
  : M unit :=
  let retryLimit := SYNC_RETRY_ATTEMPTS env in
  let newCount := q_retry_count item + 1 in
  (if retryLimit <=? newCount
   then db_run env (fun _ => sql_mark_error (q_task_id item))
   else ret tt) ;;;
  db_run env (fun _ => sql_set_retry newCount message (q_id item)).

(** [items.slice(start, end)] *)
Definition slice {A} (l : list A) (start end_ : nat) : list A :=
  firstn (end_ - start) (skipn start l).

(** The loop [for (let i = 0; i < items.length; i += batchSize)]; with
    [batchSize = 0] it never ends, and no fuel is enough. *)
Fixpoint make_batches (fuel batchSize : nat) (items : list SyncQueueItem)
    (i : nat) : option (list (list SyncQueueItem)) :=
  match fuel with
  | O => if i <? length items then None else Some []
  | S fuel' =>
      if i <? length items
      then option_map (cons (slice items i (i + batchSize)))
                      (make_batches fuel' batchSize items (i + batchSize))
      else Some []
  end.

(** The local variables [synced], [failed] and [errors] of [sync]. *)
Record Tally : Type := mkTally {
  synced : nat;
  failed : nat;
  errs : list SyncErrorEntry
}.

(** The loop over [response.processed_items] inside the try block.  The
    locals keep what was counted before an exception: the loop returns
    them together with the exception, if any. *)
Fixpoint tally_results (results : list ProcessedItem) (c : Tally)
  : World -> (Tally * option string) * World :=
  match results with
  | [] => fun w => ((c, None), w)
  | result :: rest => fun w =>
      match r_status result with
      | Rs_success =>
          match updateSyncStatus (client_id result) St_synced
                                 (resolved_data result) w with
          | (Ok _, w') =>
              tally_results rest (mkTally (synced c + 1) (failed c) (errs c))
                            w'
          | (Throw e, w') => ((c, Some e), w')
          end
      | _ =>
          tally_results rest
            (mkTally (synced c) (failed c + 1) (errs c ++ [ErrResult result]))
            w
      end
  end.

(** The loop of the catch block. *)
Fixpoint fail_items (batch : list SyncQueueItem) (message : string)
    (errors : list SyncErrorEntry) : M (list SyncErrorEntry) :=
  match batch with
  | [] => ret errors
  | item :: rest =>
      handleSyncError item message ;;;
      fail_items rest message
        (errors ++ [ErrItem (q_task_id item) (q_operation item) message])
  end.

Definition catch_batch (batch : list SyncQueueItem) (message : string)
    (c : Tally) : M Tally :=
  errors <- fail_items batch message (errs c) ;;
  ret (mkTally (synced c) (failed c + length batch) errors).

(** One round of [for (const batch of batches)]. *)
Definition sync_batch (batch : list SyncQueueItem) (c : Tally) : M Tally :=
  fun w =>
    match processBatch batch w with
    | (Ok response, w1) =>
        match tally_results (processed_items response) c w1 with
        | ((c', None), w2) => (Ok c', w2)
        | ((c', Some e), w2) => catch_batch batch e c' w2
        end
    | (Throw e, w1) => catch_batch batch e c w1
    end.

Fixpoint sync_batches (batches : list (list SyncQueueItem)) (c : Tally)
  : M Tally :=
  match batches with
  | [] => ret c
  | batch :: rest => c' <- sync_batch batch c ;; sync_batches rest c'
  end.

(** [sync()]; [None] when the batching loop never ends. *)
Definition sync (w : World) : option (Outcome SyncResult * World) :=
  let batchSize := SYNC_BATCH_SIZE env in
  let retryLimit := SYNC_RETRY_ATTEMPTS env in
  match db_query env (select_due retryLimit) w with
  | (Throw e, w1) => Some (Throw e, w1)
  | (Ok items, w1) =>
      match items with
      | [] => Some (Ok (mkResult true 0 0 []), w1)
      | _ :: _ =>
          match make_batches (length items) batchSize items 0 with
          | None => None
          | Some batches =>
              Some ((c <- sync_batches batches (mkTally 0 0 []) ;;
                     ret (mkResult (failed c =? 0) (synced c) (failed c)
                                   (errs c))) w1)
          end
      end
  end.
End Services.

(* ================================================================== *)
(** ** Statements taken from the specification, to compare with the code *)

(** The spec's priority of pending operations: delete > update > create. *)
Definition op_priority (op : Operation) : nat :=
  match op with
  | Op_create => 0
  | Op_update => 1
  | Op_delete => 2
  end.

(** [a] is a valid instant strictly later than the valid instant [b]. *)
Definition later (a b : DateValue) : Prop :=
  match a, b with
  | Instant x, Instant y => (y < x)%Z
  | _, _ => False
  end.

(** The task id is unknown to the store, or names a soft-deleted task. *)
Definition absent_or_deleted (id : string) (db : Database) : Prop :=
  select_task id db = None \/
  exists t, select_task id db = Some t /\ t_is_deleted t = true.

(** The database driver never rejects. *)
Definition healthy (env : Env) : Prop := forall n, db_fault env n = false.

(** The spec's tie-break: with equal [updated_at], the side whose pending
    operation has the higher priority is returned.  The pending operation
    of the local side is the one of a queue item of the task; the remote
    one is whatever the remote peer holds. *)
Definition spec_tie_break : Prop :=
  forall env w clientId serverId localTask serverTask localOp remoteOp item,
    db_fault env (w_dbcalls w) = false ->
    select_task clientId (w_db w) = Some localTask ->
    net_get env (w_http w) serverId = Reply serverTask ->
    In item (sync_queue (w_db w)) ->
    q_task_id item = clientId ->
    q_operation item = localOp ->
    t_updated_at localTask = t_updated_at serverTask ->
    op_priority localOp < op_priority remoteOp ->
    fst (resolveConflict env clientId serverId w) = Ok serverTask.

(** The spec's purity of the resolver: resolving writes nothing. *)
Definition spec_resolve_writes_nothing : Prop :=
  forall env w clientId serverId,
    w_db (snd (resolveConflict env clientId serverId w)) = w_db w.

(** The spec's atomicity of a CRUD mutation, for [createTask]: when the
    operation fails the tables are as before. *)
Definition spec_create_atomic : Prop :=
  forall env w taskData e,
    fst (createTask env taskData w) = Throw e ->
    w_db (snd (createTask env taskData w)) = w_db w.

(** The spec's [recordSuccess]: confirming one item removes that item
    only; every other item of the queue stays.  In the code a success is
    recorded by [updateSyncStatus(result.client_id, 'synced', ..)], where
    [client_id] is the task id of the item. *)
Definition spec_record_success_removes_one : Prop :=
  forall env w item other serverData,
    healthy env ->
    In item (sync_queue (w_db w)) ->
    In other (sync_queue (w_db w)) ->
    q_id other <> q_id item ->
    In other
       (sync_queue
          (w_db (snd (updateSyncStatus env (q_task_id item) St_synced
                                       serverData w)))).

(* ================================================================== *)
(** ** Concrete worlds used by the examples *)

Definition letter (n : nat) : string :=
  String (Ascii.ascii_of_nat (97 + n)) EmptyString.

Definition empty_world : World := mkWorld (mkDb [] []) 0 0 0 0 [].

Definition task_local : Task :=
  mkTask "t1" "local title" "" false (Instant 500) (Instant 1000) false
         St_pending (Some "s1") None.

(** The remote version of the same task: deleted at the same instant. *)
Definition task_remote_tie : Task :=
  mkTask "t1" "remote title" "" false (Instant 500) (Instant 1000) true
         St_synced (Some "s1") None.

(** The remote version, strictly later. *)
Definition task_remote_later : Task :=
  mkTask "t1" "remote title" "" true (Instant 500) (Instant 2000) false
         St_synced (Some "s1") None.

(** The remote version, strictly earlier. *)
Definition task_remote_earlier : Task :=
  mkTask "t1" "remote title" "" true (Instant 500) (Instant 900) false
         St_synced (Some "s1") None.

Definition item_update_t1 : SyncQueueItem :=
  mkItem (Some "q1") "t1" Op_update task_local 0 None 1000.

Definition item_create_t1 : SyncQueueItem :=
  mkItem (Some "q0") "t1" Op_create task_local 0 None 500.

Definition world_t1 : World :=
  mkWorld (mkDb [task_local] [item_update_t1]) 0 0 0 0 [].

(** Two pending items of the same task: its creation and a later update. *)
Definition world_two_items_t1 : World :=
  mkWorld (mkDb [task_local] [item_create_t1; item_update_t1]) 0 0 0 0 [].

(** An environment whose database never fails and whose remote peer
    answers every [GET /tasks/:id] with [remote] and every [POST /batch]
    with [reply]. *)
Definition env_with (remote : Task)
    (reply : BatchSyncRequest -> NetReply BatchSyncResponse) : Env :=
  mkEnv 50 3 (fun _ => false) (fun n => 5000 + Z.of_nat n)%Z letter
        (fun _ => reply) (fun _ _ => Reply remote)
        (mkDefaults (fun n => Some (letter n))
                    (fun n => 5000 + Z.of_nat n)%Z).

Definition unreachable (req : BatchSyncRequest)
  : NetReply BatchSyncResponse := NetError "timeout of 8000ms exceeded".

(** The remote peer confirms every item of the request. *)
Definition confirm_all (req : BatchSyncRequest)
  : NetReply BatchSyncResponse :=
  Reply (mkResponse
           (map (fun it => mkProcessed (q_task_id it) Rs_success None None None)
                (req_items req))
           (Instant 0)).

(** The remote peer rejects every item of the request. *)
Definition reject_all (req : BatchSyncRequest)
  : NetReply BatchSyncResponse :=
  Reply (mkResponse
           (map (fun it =>
                   mkProcessed (q_task_id it) Rs_error None None
                               (Some "Unknown operation"))
                (req_items req))
           (Instant 0)).

(** A database that never fails and a table [sync_queue] that leaves [id]
    NULL when an INSERT does not name the column. *)
Definition env_null_ids
    (reply : BatchSyncRequest -> NetReply BatchSyncResponse) : Env :=
  mkEnv 50 3 (fun _ => false) (fun n => 5000 + Z.of_nat n)%Z letter
        (fun _ => reply) (fun _ _ => Reply task_remote_tie)
        (mkDefaults (fun _ => None) (fun n => 5000 + Z.of_nat n)%Z).

(** Task t1 stored, nothing waiting in the queue. *)
Definition world_t1_idle : World := mkWorld (mkDb [task_local] []) 0 0 0 0 [].

(** The same after [updateTask('t1', {title: 'B'})]: the queue holds the
    update item that updateTask inserted, with the id the table gave it. *)
Definition world_t1_updated : World :=
  snd (updateTask (env_null_ids unreachable) "t1"
                  (mkPartial (Some "B") None None None) world_t1_idle).

(** The update item of [world_t1_updated]. *)
Definition item_updated_t1 : SyncQueueItem :=
  mkItem None "t1" Op_update
         (mkTask "t1" "B" "" false (Instant 500) (Instant 5000) false
                 St_pending (Some "s1") None)
         0 None 5000.


(** The database accepts the calls before the [k]-th and rejects it. *)
Definition env_failing_at (k : nat) : Env :=
  mkEnv 50 3 (fun n => n =? k) (fun n => 5000 + Z.of_nat n)%Z letter
        (fun _ => unreachable) (fun _ _ => Reply task_remote_tie)
        (mkDefaults (fun n => Some (letter n))
                    (fun n => 5000 + Z.of_nat n)%Z).

(* ================================================================== *)
(** ** The writes of the sync service, as functions of the tables *)

(** What [handleSyncError] does to the tables when no statement is
    rejected. *)
Definition handleSyncError_db (env : Env) (item : SyncQueueItem)
    (message : string) (db : Database) : Database :=
  sql_set_retry (q_retry_count item + 1) message (q_id item)
    (if SYNC_RETRY_ATTEMPTS env <=? q_retry_count item + 1
     then sql_mark_error (q_task_id item) db
     else db).

(** A log of failures: the items given to [handleSyncError], in order, each
    with the message of its error. *)
Definition fail_all_db (env : Env) (log : list (SyncQueueItem * string))
    (db : Database) : Database :=
  fold_left (fun d p => handleSyncError_db env (fst p) (snd p) d) log db.

(** What [updateSyncStatus(taskId, 'synced', serverData)] does to the
    tables when no statement is rejected. *)
Definition mark_synced_db (taskId : string) (serverData : option PartialTask)
    (now : Z) (db : Database) : Database :=
  sql_delete_queue_of_task taskId
    (sql_mark_synced
       (match serverData with
        | Some d => p_server_id d
        | None => None
        end)
       (Instant now) taskId db).

(** The number of batches for [q] items in batches of [b]. *)
Definition ceil_div (q b : nat) : nat := (q + b - 1) / b.

(** What a log of failures does to one row of the queue. *)
Definition bump_row (log : list (SyncQueueItem * string)) (r : SyncQueueItem)
  : SyncQueueItem :=
  fold_left
    (fun r' p =>
       if sql_eq (q_id r') (q_id (fst p))
       then set_retry (q_retry_count (fst p) + 1) (snd p) r'
       else r')
    log r.

(** Every row of the task has [sync_status = st]. *)
Definition task_has_status (st : SyncStatus) (task_id : string)
    (db : Database) : Prop :=
  forall t, In t (tasks db) -> t_id t = task_id -> t_sync_status t = st.

(** At most one row of the queue has the id [i]. *)
Definition unique_item_id (i : string) (queue : list SyncQueueItem) : Prop :=
  forall r r', In r queue -> In r' queue ->
               q_id r = Some i -> q_id r' = Some i -> r = r'.

(** The remote peer cannot be reached: every [POST /batch] fails. *)
Definition all_posts_fail (env : Env) : Prop :=
  forall n req, exists e, net_post env n req = NetError e.

(** The remote peer confirms every item it is sent, under the task id, and
    reports no conflict. *)
Definition all_posts_confirm (env : Env) : Prop :=
  forall n req,
  exists resp,
    net_post env n req = Reply resp /\
    map client_id (processed_items resp) = map q_task_id (req_items req) /\
    Forall (fun p => r_status p = Rs_success) (processed_items resp).

(** [n] runs of [sync()] one after the other, each returning a result. *)
Fixpoint sync_cycles (env : Env) (n : nat) (w : World) : option World :=
  match n with
  | O => Some w
  | S k =>
      match sync env w with
      | Some (Ok _, w') => sync_cycles env k w'
      | _ => None
      end
  end.

(** [createTask] for each entry of a list, in order. *)
Fixpoint create_all (env : Env) (inputs : list PartialTask)
  : M (list Task) :=
  match inputs with
  | [] => ret []
  | taskData :: rest =>
      t <- createTask env taskData ;;
      ts <- create_all env rest ;;
      ret (t :: ts)
  end.

(** A log of confirmations: the task id, the server data and the instant
    of each [updateSyncStatus(.., 'synced', ..)], in order. *)
Definition confirm_all_db (log : list (string * option PartialTask * Z))
    (db : Database) : Database :=
  fold_left (fun d p => mark_synced_db (fst (fst p)) (snd (fst p)) (snd p) d)
            log db.

(** Batches of two, the database never failing. *)
Definition env_small_batches
    (reply : BatchSyncRequest -> NetReply BatchSyncResponse) : Env :=
  mkEnv 2 3 (fun _ => false) (fun n => 5000 + Z.of_nat n)%Z letter
        (fun _ => reply) (fun _ _ => Reply task_remote_tie)
        (mkDefaults (fun n => Some (letter n))
                    (fun n => 5000 + Z.of_nat n)%Z).

Definition item_n (n : nat) : SyncQueueItem :=
  mkItem (Some (letter n)) (letter (10 + n)) Op_create task_local 0 None
         (Z.of_nat n).

Definition world_three_items : World :=
  mkWorld (mkDb [] [item_n 0; item_n 1; item_n 2]) 0 0 0 0 [].

(** The tables after [n] creations that are still to be synced: [n] task
    rows, [n] queue items that were never retried, and a queue item for
    every task. *)
Definition backlog (n : nat) (db : Database) : Prop :=
  List.length (tasks db) = n /\
  List.length (sync_queue db) = n /\
  Forall (fun r => q_retry_count r = 0) (sync_queue db) /\
  (forall t, In t (tasks db) ->
             exists r, In r (sync_queue db) /\ q_task_id r = t_id t).

(** A computation that sends nothing to [POST /batch]. *)
Definition keeps_posts {A} (m : M A) : Prop :=
  forall w, w_posts (snd (m w)) = w_posts w.

(** Every reply of the remote peer carries one result per item sent. *)
Definition per_item_results (env : Env) : Prop :=
  forall n req resp,
    net_post env n req = Reply resp ->
    List.length (processed_items resp) = List.length (req_items req).

(* ================================================================== *)
(** ** The read side of TaskService *)

Definition getTask (env : Env) (id : string) : M (option Task) :=
  try_catch
    (task <- db_query env (select_task id) ;;
     match task with
     | None => ret None
     | Some t => if t_is_deleted t then ret None else ret (Some t)
     end)
    (fun _ => throw "Failed to fetch task").

(** [SELECT * FROM tasks WHERE is_deleted = false] *)
Definition select_live (db : Database) : list Task :=
  filter (fun t => negb (t_is_deleted t)) (tasks db).

(** The object that getAllTasks builds from a row: the ten fields of the
    row, the flags through [!!], the dates through [new Date]; a
    [last_synced_at] that is NULL stays undefined, and a stored one is
    taken as truthy. *)
Definition task_of_row (row : Task) : Task :=
  mkTask (t_id row) (t_title row) (t_description row) (t_completed row)
         (t_created_at row) (t_updated_at row) (t_is_deleted row)
         (t_sync_status row) (t_server_id row) (t_last_synced_at row).

Definition getAllTasks (env : Env) : M (list Task) :=
  try_catch
    (rows <- db_query env select_live ;;
     ret (map task_of_row rows))
    (fun _ => throw "Not implemented").

Definition needs_sync (t : Task) : bool :=
  match t_sync_status t with
  | St_pending => true
  | St_error => true
  | St_synced => false
  end.

(** [SELECT * FROM tasks WHERE sync_status IN ('pending', 'error')] *)
Definition select_needing_sync (db : Database) : list Task :=
  filter needs_sync (tasks db).

(** The catch block of getTasksNeedingSync returns the empty list. *)
Definition getTasksNeedingSync (env : Env) : M (list Task) :=
  try_catch (db_query env select_needing_sync) (fun _ => ret []).

(** No row of the table has the id. *)
Definition fresh_task_id (id : string) (db : Database) : Prop :=
  forall t, In t (tasks db) -> t_id t <> id.

(** The queue item is due at the given retry limit. *)
Definition is_due (limit : nat) (r : SyncQueueItem) : Prop :=
  q_retry_count r < limit.

(** Oldest first: the order of [ORDER BY created_at ASC]. *)
Definition older_or_same (a b : SyncQueueItem) : Prop :=
  (q_created_at a <= q_created_at b)%Z.

(* ================================================================== *)
(** ** The sync router *)

(** [checkConnectivity()]: one [GET /health]; [health n] tells whether the
    n-th HTTP call, being that probe, is answered in time with a success
    status.  The catch block turns every failure into [false]. *)
Definition checkConnectivity (health : nat -> bool) : M bool := fun w =>
  (Ok (health (w_http w)),
   mkWorld (w_db w) (w_dbcalls w) (w_clock w) (w_uuids w) (S (w_http w))
           (w_posts w)).

(** What a route answers. *)
Inductive ResponseBody : Type :=
| ErrorBody (error : string) (timestamp : Z) (path : string)
| SyncBody (result : SyncResult)
| StatusBody (pending_sync_count : nat)
             (last_sync_timestamp : option DateValue) (is_online : bool)
             (sync_queue_size : nat)
| BatchBody (response : BatchSyncResponse).

Record HttpResponse : Type := mkHttp {
  http_status : nat;
  http_body : ResponseBody
}.

(** [sendErrorResponse(res, req, statusCode, message)], with
    [req.originalUrl] as [originalUrl]. *)
Definition sendErrorResponse (env : Env) (originalUrl : string)
    (statusCode : nat) (message : string) : World -> HttpResponse * World :=
  fun w =>
    (mkHttp statusCode (ErrorBody message (clock env (w_clock w)) originalUrl),
     mkWorld (w_db w) (w_dbcalls w) (S (w_clock w)) (w_uuids w) (w_http w)
             (w_posts w)).

(** [res.json(body)]: status 200. *)
Definition send_json (body : ResponseBody) : HttpResponse := mkHttp 200 body.

(** The handler of [POST /sync]; [None] when it never answers, [sync]
    never returning. *)
Definition route_post_sync (health : nat -> bool) (env : Env)
    (originalUrl : string) (w : World) : option (HttpResponse * World) :=
  match checkConnectivity health w with
  | (Ok online, w1) =>
      if negb online
      then Some (sendErrorResponse env originalUrl 503 "Server unavailable" w1)
      else
        match sync env w1 with
        | None => None
        | Some (Ok result, w2) => Some (send_json (SyncBody result), w2)
        | Some (Throw _, w2) =>
            Some (sendErrorResponse env originalUrl 500 "Sync process failed"
                                    w2)
        end
  | (Throw _, w1) =>
      Some (sendErrorResponse env originalUrl 500 "Sync process failed" w1)
  end.

(** The handler of [GET /status].  [max_last_synced] stands for the
    aggregate [SELECT MAX(last_synced_at) FROM tasks], whose order on the
    stored values depends on the column's storage, which the database
    module (not among the sources) decides. *)
Definition route_get_status (health : nat -> bool) (env : Env)
    (max_last_synced : Database -> option DateValue) (originalUrl : string)
    (w : World) : HttpResponse * World :=
  match
    (pending <- db_query env (fun db => List.length (sync_queue db)) ;;
     lastSync <- db_query env max_last_synced ;;
     online <- checkConnectivity health ;;
     ret (send_json (StatusBody pending lastSync online pending))) w
  with
  | (Ok response, w') => (response, w')
  | (Throw _, w') =>
      sendErrorResponse env originalUrl 500 "Failed to get sync status" w'
  end.

(** An element of [items] in the body of [POST /batch] that is an object
    whose [task_id] and [operation] are strings, as the handler reads it:
    [operation] is any string; [data] is given by the fields that the
    spread [...data] copies.  An element that is [null] is the [None] of
    [option WireItem]; elements of other shapes are outside the model. *)
Record WireItem : Type := mkWire {
  wi_task_id : string;
  wi_operation : string;
  wi_data : PartialTask
}.

(** The switch on [operation], for an element that is an object.  The
    [updated_at] put in [resolved_data] costs a reading of the clock and is
    not among the fields of [PartialTask]. *)
Definition batch_result (env : Env) (item : WireItem) : M ProcessedItem :=
  let task_id := wi_task_id item in
  let data := wi_data item in
  if String.eqb (wi_operation item) "create" then
    _ <- new_Date env ;;
    ret (mkProcessed task_id Rs_success
           (Some (mkPartial (p_title data) (p_description data)
                            (p_completed data) (Some task_id)))
           None None)
  else if String.eqb (wi_operation item) "update" then
    _ <- new_Date env ;;
    ret (mkProcessed task_id Rs_success (Some data) None None)
  else if String.eqb (wi_operation item) "delete" then
    ret (mkProcessed task_id Rs_success
           (Some (mkPartial None None None None)) None None)
  else
    ret (mkProcessed task_id Rs_error None None
           (Some ("Unknown operation: " ++ wi_operation item)%string)).

(** One round of the loop of the handler: the try block and its catch
    block.  On [null] the destructuring of the try block throws, and the
    catch block throws in its turn when it reads [item.task_id]; on an
    object the catch block pushes an error result under the task id, with
    [error.message || 'Failed to process item']. *)
Definition batch_round (env : Env) (element : option WireItem)
  : M ProcessedItem :=
  try_catch
    (match element with
     | None => throw "TypeError: Cannot destructure property of null"
     | Some item => batch_result env item
     end)
    (fun message =>
       match element with
       | None => throw "TypeError: Cannot read properties of null"
       | Some item =>
           ret (mkProcessed (wi_task_id item) Rs_error None None
                  (Some (if String.eqb message "" then "Failed to process item"
                         else message)))
       end).

Fixpoint batch_results (env : Env) (items : list (option WireItem))
  : M (list ProcessedItem) :=
  match items with
  | [] => ret []
  | item :: rest =>
      result <- batch_round env item ;;
      results <- batch_results env rest ;;
      ret (result :: results)
  end.

(** The handler of [POST /batch]; [items] is [None] when [req.body.items]
    is missing or is not an array. *)
Definition route_post_batch (env : Env) (originalUrl : string)
    (items : option (list (option WireItem))) (w : World)
  : HttpResponse * World :=
  match items with
  | None => sendErrorResponse env originalUrl 400 "Invalid batch format" w
  | Some items =>
      match
        (results <- batch_results env items ;;
         stamp <- new_Date env ;;
         ret (send_json (BatchBody (mkResponse results (Instant stamp))))) w
      with
      | (Ok response, w') => (response, w')
      | (Throw _, w') =>
          sendErrorResponse env originalUrl 500 "Batch sync failed" w'
      end
  end.

(** The operations that the switch of the handler knows. *)
Definition known_operation (op : string) : bool :=
  String.eqb op "create" || String.eqb op "update" || String.eqb op "delete".

(** How a result of the handler answers an item of the request. *)
Definition batch_answer (item : WireItem) (p : ProcessedItem) : Prop :=
  client_id p = wi_task_id item /\
  r_status p <> Rs_conflict /\
  r_server_id p = None /\
  (known_operation (wi_operation item) = true ->
   r_status p = Rs_success /\ r_error p = None) /\
  (wi_operation item = "create" ->
   exists d, resolved_data p = Some d /\
             p_server_id d = Some (wi_task_id item)) /\
  (known_operation (wi_operation item) = false ->
   r_status p = Rs_error /\
   resolved_data p = None /\
   r_error p = Some ("Unknown operation: " ++ wi_operation item)%string).

(** The operation of a queue item, as the string stored and sent. *)
Definition operation_name (op : Operation) : string :=
  match op with
  | Op_create => "create"
  | Op_update => "update"
  | Op_delete => "delete"
  end.

(** A queue item of the client as an item of the request body; [encode]
    gives the fields that a spread of the item's [data] copies. *)
Definition wire_of_item (encode : Task -> PartialTask) (it : SyncQueueItem)
  : WireItem :=
  mkWire (q_task_id it) (operation_name (q_operation it)) (encode (q_data it)).

(** The router's own [POST /batch] as the remote peer of a client: the
    n-th request is handled in the world [server_world n] of the server;
    axios returns the body of a 200 and throws on any other status. *)
Definition own_batch_endpoint (server : Env) (encode : Task -> PartialTask)
    (server_world : nat -> World) (n : nat) (req : BatchSyncRequest)
  : NetReply BatchSyncResponse :=
  let response :=
    fst (route_post_batch server "/api/batch"
           (Some (map Some (map (wire_of_item encode) (req_items req))))
           (server_world n)) in
  match http_body response with
  | BatchBody r =>
      if http_status response =? 200 then Reply r
      else NetError "Request failed"
  | _ => NetError "Request failed"
  end.

(** A client whose remote peer is the router's own batch endpoint. *)
Definition env_own_server (size limit : nat) : Env :=
  mkEnv size limit (fun _ => false) (fun n => 5000 + Z.of_nat n)%Z letter
        (own_batch_endpoint (env_with task_remote_tie unreachable)
                            partial_of_task (fun _ => empty_world))
        (fun _ _ => Reply task_remote_tie)
        (mkDefaults (fun n => Some (letter n))
                    (fun n => 5000 + Z.of_nat n)%Z).

(* ================================================================== *)
(** ** The conflict resolver *)

Lemma updateTask_healthy env id updates w :
  healthy env ->
  exists r w', updateTask env id updates w = (Ok r, w').
Proof.
  intros H. unfold updateTask, try_catch, bind, db_query.
  rewrite H.
  destruct (select_task id (w_db w)) as [ex|]; [|eexists; eexists; reflexivity].
  destruct (t_is_deleted ex); [eexists; eexists; reflexivity|].
  unfold new_Date, db_run; cbn. rewrite H. cbn. rewrite H.
  eexists; eexists; reflexivity.
Qed.

Lemma resolveConflict_unfold env w clientId serverId localTask serverTask :
  db_fault env (w_dbcalls w) = false ->
  select_task clientId (w_db w) = Some localTask ->
  net_get env (w_http w) serverId = Reply serverTask ->
  resolveConflict env clientId serverId w =
  let w1 := mkWorld (w_db w) (S (w_dbcalls w)) (w_clock w) (w_uuids w)
                    (S (w_http w)) (w_posts w) in
  if local_wins localTask serverTask then (Ok localTask, w1)
  else (updateTask env (t_id localTask) (partial_of_task serverTask) ;;;
        ret serverTask) w1.
Proof.
  intros Hf Hs Hg.
  unfold resolveConflict, bind at 1. unfold db_query. rewrite Hf, Hs.
  unfold bind at 1. unfold axios_get. cbn. rewrite Hg.
  destruct (local_wins localTask serverTask); reflexivity.
Qed.

(** C2: when both versions are loaded and the local [updated_at] is
    strictly later, resolveConflict returns the local task as loaded and
    leaves the tables alone; when the remote one is strictly later (and the
    database does not fail) it returns the remote task. *)
Theorem resolveConflict_strictly_later_wins :
  forall env w clientId serverId localTask serverTask,
    healthy env ->
    select_task clientId (w_db w) = Some localTask ->
    net_get env (w_http w) serverId = Reply serverTask ->
    (later (t_updated_at localTask) (t_updated_at serverTask) ->
     fst (resolveConflict env clientId serverId w) = Ok localTask /\
     w_db (snd (resolveConflict env clientId serverId w)) = w_db w) /\
    (later (t_updated_at serverTask) (t_updated_at localTask) ->
     fst (resolveConflict env clientId serverId w) = Ok serverTask).
Proof.
  intros env w cid sid l r Hh Hs Hg.
  rewrite (resolveConflict_unfold env w cid sid l r (Hh _) Hs Hg).
  unfold local_wins, later.
  destruct (t_updated_at l) as [x|], (t_updated_at r) as [y|]; cbn;
    split; intros Hlt; try contradiction.
  - assert (E : (y <=? x)%Z = true) by (apply Z.leb_le; lia).
    rewrite E. split; reflexivity.
  - assert (E : (y <=? x)%Z = false) by (apply Z.leb_gt; lia).
    rewrite E. unfold bind.
    match goal with
    | |- context [updateTask env ?i ?u ?w1] =>
        destruct (updateTask_healthy env i u w1 Hh) as (o & w' & E')
    end.
    rewrite E'. reflexivity.
Qed.

Lemma resolveConflict_strictly_later_wins_witness :
  fst (resolveConflict (env_with task_remote_earlier unreachable) "t1" "s1"
                       world_t1) = Ok task_local /\
  fst (resolveConflict (env_with task_remote_later unreachable) "t1" "s1"
                       world_t1) = Ok task_remote_later.
Proof.
  split.
  - apply (resolveConflict_strictly_later_wins
             (env_with task_remote_earlier unreachable) world_t1 "t1" "s1"
             task_local task_remote_earlier);
      [intro; reflexivity | reflexivity | reflexivity | cbn; lia].
  - apply (resolveConflict_strictly_later_wins
             (env_with task_remote_later unreachable) world_t1 "t1" "s1"
             task_local task_remote_later);
      [intro; reflexivity | reflexivity | reflexivity | cbn; lia].
Defined.

(** C1, as the code has it: on an exact tie of valid timestamps
    resolveConflict returns the local task and writes nothing; no pending
    operation is looked at. *)
Theorem resolveConflict_tie_returns_local :
  forall env w clientId serverId localTask serverTask ms,
    db_fault env (w_dbcalls w) = false ->
    select_task clientId (w_db w) = Some localTask ->
    net_get env (w_http w) serverId = Reply serverTask ->
    t_updated_at localTask = Instant ms ->
    t_updated_at serverTask = Instant ms ->
    fst (resolveConflict env clientId serverId w) = Ok localTask /\
    w_db (snd (resolveConflict env clientId serverId w)) = w_db w.
Proof.
  intros env w cid sid l r ms Hf Hs Hg Hl Hr.
  rewrite (resolveConflict_unfold env w cid sid l r Hf Hs Hg).
  unfold local_wins. rewrite Hl, Hr. cbn.
  rewrite Z.leb_refl. split; reflexivity.
Qed.

Lemma resolveConflict_tie_returns_local_witness :
  fst (resolveConflict (env_with task_remote_tie unreachable) "t1" "s1"
                       world_t1) = Ok task_local /\
  w_db (snd (resolveConflict (env_with task_remote_tie unreachable) "t1" "s1"
                             world_t1)) = w_db world_t1.
Proof.
  apply (resolveConflict_tie_returns_local
           (env_with task_remote_tie unreachable) world_t1 "t1" "s1"
           task_local task_remote_tie 1000%Z);
    reflexivity.
Defined.

(** C1, as the spec states it, fails: the local side has a pending update,
    the remote side a delete at the same instant, and the local task is
    returned. *)
Lemma spec_tie_break_fails : ~ spec_tie_break.
Proof.
  intros H.
  specialize (H (env_with task_remote_tie unreachable) world_t1 "t1" "s1"
                task_local task_remote_tie Op_update Op_delete item_update_t1
                eq_refl eq_refl eq_refl (or_introl eq_refl) eq_refl eq_refl
                eq_refl).
  cbn in H. specialize (H (le_n 2)). discriminate H.
Qed.

Lemma select_task_id id db t :
  select_task id db = Some t -> t_id t = id.
Proof.
  unfold select_task. intros H. apply find_some in H.
  destruct H as [_ H]. now apply String.eqb_eq.
Qed.

(** C3, as the code has it: the winner is a function of the two loaded
    versions; when the local one wins nothing is written; when the remote
    one wins (the local task not being soft-deleted) resolveConflict
    rewrites the local row through updateTask and appends an update item to
    the queue. *)
Theorem resolveConflict_winner_and_writes :
  forall env w clientId serverId localTask serverTask,
    healthy env ->
    select_task clientId (w_db w) = Some localTask ->
    net_get env (w_http w) serverId = Reply serverTask ->
    let w' := snd (resolveConflict env clientId serverId w) in
    fst (resolveConflict env clientId serverId w) =
      Ok (if local_wins localTask serverTask then localTask else serverTask) /\
    (local_wins localTask serverTask = true -> w_db w' = w_db w) /\
    (local_wins localTask serverTask = false ->
     t_is_deleted localTask = false ->
     let now := clock env (w_clock w) in
     let updated :=
       mkTask (t_id localTask) (t_title serverTask) (t_description serverTask)
              (t_completed serverTask) (t_created_at localTask) (Instant now)
              false St_pending (t_server_id localTask)
              (t_last_synced_at localTask) in
     tasks (w_db w') =
       map (fun t => if String.eqb (t_id t) clientId
                     then mkTask (t_id t) (t_title serverTask)
                                 (t_description serverTask)
                                 (t_completed serverTask) (t_created_at t)
                                 (Instant now) (t_is_deleted t) St_pending
                                 (t_server_id t) (t_last_synced_at t)
                     else t)
           (tasks (w_db w)) /\
     sync_queue (w_db w') =
       sync_queue (w_db w) ++
       [mkItem (default_item_id (queue_defaults env) (S (S (S (w_dbcalls w)))))
               clientId
               Op_update updated 0 None now]).
Proof.
  intros env w cid sid l r Hh Hs Hg w'. subst w'.
  rewrite (resolveConflict_unfold env w cid sid l r (Hh _) Hs Hg).
  pose proof (select_task_id _ _ _ Hs) as Hid.
  destruct (local_wins l r) eqn:E; cbn.
  - split; [reflexivity|]. split; [reflexivity | discriminate].
  - unfold bind.
    match goal with
    | |- context [updateTask env ?i ?u ?w1] =>
        destruct (updateTask_healthy env i u w1 Hh) as (o & w2 & E');
        pose proof E' as E2
    end.
    rewrite E'. cbn. split; [reflexivity|]. split; [discriminate|].
    intros _ Hdel.
    unfold updateTask, try_catch, bind, db_query in E2. cbn in E2.
    rewrite Hh, Hid, Hs, Hdel in E2. unfold new_Date, db_run in E2.
    cbn in E2. rewrite Hh in E2. cbn in E2. rewrite Hh in E2.
    inversion E2; subst. cbn. split; reflexivity.
Qed.

Lemma resolveConflict_winner_and_writes_witness :
  fst (resolveConflict (env_with task_remote_later unreachable) "t1" "s1"
                       world_t1) = Ok task_remote_later /\
  List.length
    (sync_queue
       (w_db (snd (resolveConflict (env_with task_remote_later unreachable)
                                   "t1" "s1" world_t1)))) = 2.
Proof.
  pose proof (resolveConflict_winner_and_writes
                (env_with task_remote_later unreachable) world_t1 "t1" "s1"
                task_local task_remote_later (fun _ => eq_refl) eq_refl
                eq_refl) as H.
  cbv zeta in H. destruct H as (H1 & _ & H3). split.
  - exact H1.
  - destruct (H3 eq_refl eq_refl) as [_ Hq]. rewrite Hq. reflexivity.
Defined.

(** C3, as the spec states it, fails: the remote version is later, and
    resolving changes the tables. *)
Lemma spec_resolve_writes_nothing_fails : ~ spec_resolve_writes_nothing.
Proof.
  intros H.
  specialize (H (env_with task_remote_later unreachable) world_t1 "t1" "s1").
  vm_compute in H. discriminate H.
Qed.

(* ================================================================== *)
(** ** The task service *)

(** C10: for an id that is unknown or names a soft-deleted task,
    updateTask returns null and deleteTask returns false (the lookup itself
    succeeding), and neither writes a task row or a queue item. *)
Theorem update_delete_of_absent_task :
  forall env w id updates,
    absent_or_deleted id (w_db w) ->
    db_fault env (w_dbcalls w) = false ->
    fst (updateTask env id updates w) = Ok None /\
    w_db (snd (updateTask env id updates w)) = w_db w /\
    fst (deleteTask env id w) = Ok false /\
    w_db (snd (deleteTask env id w)) = w_db w.
Proof.
  intros env w id updates Habs Hf.
  unfold updateTask, deleteTask, try_catch, bind, db_query.
  rewrite Hf.
  destruct Habs as [Hn | (t & Ht & Hdel)].
  - rewrite Hn. cbn. repeat split.
  - rewrite Ht, Hdel. cbn. repeat split.
Qed.

Lemma update_delete_of_absent_task_witness :
  fst (updateTask (env_with task_remote_tie unreachable) "nope"
                  (mkPartial (Some "x") None None None) world_t1) = Ok None /\
  w_db (snd (updateTask (env_with task_remote_tie unreachable) "nope"
                        (mkPartial (Some "x") None None None) world_t1))
    = w_db world_t1 /\
  fst (deleteTask (env_with task_remote_tie unreachable) "nope" world_t1)
    = Ok false /\
  w_db (snd (deleteTask (env_with task_remote_tie unreachable) "nope"
                        world_t1)) = w_db world_t1.
Proof.
  apply (update_delete_of_absent_task
           (env_with task_remote_tie unreachable) world_t1 "nope"
           (mkPartial (Some "x") None None None)).
  - left. reflexivity.
  - reflexivity.
Defined.

(** The same holds whether or not the lookup succeeds: a call on such an id
    never changes the tables. *)
Lemma absent_task_never_written env w id updates :
  absent_or_deleted id (w_db w) ->
  w_db (snd (updateTask env id updates w)) = w_db w /\
  w_db (snd (deleteTask env id w)) = w_db w.
Proof.
  intros Habs.
  unfold updateTask, deleteTask, try_catch, bind, db_query.
  destruct (db_fault env (w_dbcalls w)); [split; reflexivity|].
  destruct Habs as [Hn | (t & Ht & Hdel)].
  - rewrite Hn. split; reflexivity.
  - rewrite Ht, Hdel. split; reflexivity.
Qed.

(** C6, as the code has it: when the statement that appends the queue item
    is rejected, the error reaches the caller and no queue item is added,
    but the write to table [tasks] made just before stays: nothing is
    rolled back. *)
Theorem queue_failure_keeps_task_write :
  forall env w,
    let n := w_dbcalls w in
    let now := clock env (w_clock w) in
    (forall taskData,
        db_fault env n = false ->
        db_fault env (S n) = true ->
        let w' := snd (createTask env taskData w) in
        fst (createTask env taskData w) = Throw "Not implemented" /\
        sync_queue (w_db w') = sync_queue (w_db w) /\
        tasks (w_db w') =
          tasks (w_db w) ++
          [mkTask (uuid env (w_uuids w))
                  (or_else (p_title taskData) "untitled task")
                  (or_else (p_description taskData) "")
                  (or_else (p_completed taskData) false)
                  (Instant now) (Instant now) false St_pending None None]) /\
    (forall id updates existing,
        db_fault env n = false ->
        db_fault env (S n) = false ->
        db_fault env (S (S n)) = true ->
        select_task id (w_db w) = Some existing ->
        t_is_deleted existing = false ->
        let w' := snd (updateTask env id updates w) in
        fst (updateTask env id updates w) = Throw "Failed to update task" /\
        sync_queue (w_db w') = sync_queue (w_db w) /\
        tasks (w_db w') =
          tasks (sql_update_task
                   (or_else (p_title updates) (t_title existing))
                   (or_else (p_description updates) (t_description existing))
                   (or_else (p_completed updates) (t_completed existing))
                   (Instant now) St_pending id (w_db w))) /\
    (forall id existing,
        db_fault env n = false ->
        db_fault env (S n) = false ->
        db_fault env (S (S n)) = true ->
        select_task id (w_db w) = Some existing ->
        t_is_deleted existing = false ->
        let w' := snd (deleteTask env id w) in
        fst (deleteTask env id w) = Throw "Failed to delete task" /\
        sync_queue (w_db w') = sync_queue (w_db w) /\
        tasks (w_db w') = tasks (sql_soft_delete (Instant now) id (w_db w))).
Proof.
  intros env w n now. subst n now. split; [|split].
  - intros taskData F0 F1 w'. subst w'.
    unfold createTask, try_catch, bind, uuidv4, new_Date, db_run.
    cbn. rewrite F0. cbn. rewrite F1. repeat split.
  - intros id updates existing F0 F1 F2 Hs Hd w'. subst w'.
    unfold updateTask, try_catch, bind, db_query, new_Date, db_run.
    cbn. rewrite F0, Hs, Hd. cbn. rewrite F1. cbn. rewrite F2.
    repeat split.
  - intros id existing F0 F1 F2 Hs Hd w'. subst w'.
    unfold deleteTask, try_catch, bind, db_query, new_Date, db_run.
    cbn. rewrite F0, Hs, Hd. cbn. rewrite F1. cbn. rewrite F2.
    repeat split.
Qed.

Lemma queue_failure_keeps_task_write_witness :
  (fst (createTask (env_failing_at 1) (mkPartial (Some "A") None None None)
                   empty_world) = Throw "Not implemented" /\
   List.length
     (tasks (w_db (snd (createTask (env_failing_at 1)
                                   (mkPartial (Some "A") None None None)
                                   empty_world)))) = 1) /\
  fst (updateTask (env_failing_at 2) "t1" (mkPartial (Some "B") None None None)
                  world_t1) = Throw "Failed to update task" /\
  fst (deleteTask (env_failing_at 2) "t1" world_t1)
    = Throw "Failed to delete task".
Proof.
  pose proof (queue_failure_keeps_task_write (env_failing_at 1) empty_world)
    as H1.
  pose proof (queue_failure_keeps_task_write (env_failing_at 2) world_t1)
    as H2.
  cbv zeta in H1, H2.
  destruct H1 as (Hc & _ & _). destruct H2 as (_ & Hu & Hd).
  split; [|split].
  - destruct (Hc (mkPartial (Some "A") None None None) eq_refl eq_refl)
      as (Hr & _ & Ht).
    split; [exact Hr | rewrite Ht; reflexivity].
  - exact (proj1 (Hu "t1" (mkPartial (Some "B") None None None) task_local
                     eq_refl eq_refl eq_refl eq_refl eq_refl)).
  - exact (proj1 (Hd "t1" task_local eq_refl eq_refl eq_refl eq_refl
                     eq_refl)).
Defined.

(** C6, as the spec states it, fails: the queue insert of createTask is
    rejected, createTask throws, and the task row is in the table. *)
Lemma spec_create_atomic_fails : ~ spec_create_atomic.
Proof.
  intros H.
  specialize (H (env_failing_at 1) empty_world
                (mkPartial (Some "A") None None None) "Not implemented"
                eq_refl).
  vm_compute in H. discriminate H.
Qed.

(* ================================================================== *)
(** ** Batching *)

Lemma ceil_div_zero b : 0 < b -> ceil_div 0 b = 0.
Proof.
  intros Hb. unfold ceil_div. apply Nat.div_small. lia.
Qed.

Lemma ceil_div_step n b :
  0 < b -> 0 < n -> ceil_div n b = S (ceil_div (n - b) b).
Proof.
  intros Hb Hn. unfold ceil_div.
  destruct (Nat.le_gt_cases b n) as [Hle | Hgt].
  - replace (n + b - 1) with ((n - b + b - 1) + 1 * b) by lia.
    rewrite Nat.div_add by lia. lia.
  - replace (n - b) with 0 by lia. cbn [Nat.add].
    rewrite (Nat.div_small (b - 1) b) by lia.
    symmetry. apply (Nat.div_unique (n + b - 1) b 1 (n - 1)); lia.
Qed.

Lemma slice_length {A} (l : list A) i b :
  List.length (slice l i (i + b)) = Nat.min b (List.length l - i).
Proof.
  unfold slice. replace (i + b - i) with b by lia.
  rewrite length_firstn, length_skipn. reflexivity.
Qed.

Lemma slice_then_rest {A} (l : list A) i b :
  slice l i (i + b) ++ skipn (i + b) l = skipn i l.
Proof.
  unfold slice. replace (i + b - i) with b by lia.
  replace (i + b) with (b + i) by lia.
  rewrite <- skipn_skipn. apply firstn_skipn.
Qed.

(** With a positive batch size the loop ends within [length items] rounds
    and cuts the items into consecutive batches of exactly [batchSize]
    items, the last one possibly shorter. *)
Lemma make_batches_spec batchSize items :
  0 < batchSize ->
  forall fuel i,
    List.length items - i <= fuel ->
    exists batches,
      make_batches fuel batchSize items i = Some batches /\
      concat batches = skipn i items /\
      List.length batches = ceil_div (List.length items - i) batchSize /\
      Forall (fun b => List.length b <= batchSize) batches /\
      (forall k, S k < List.length batches ->
                 List.length (nth k batches []) = batchSize).
Proof.
  intros Hb. induction fuel as [|fuel IH]; intros i Hfuel.
  - cbn [make_batches]. destruct (Nat.ltb_spec i (List.length items)); [lia|].
    exists []. rewrite skipn_all2 by lia.
    replace (List.length items - i) with 0 by lia.
    rewrite ceil_div_zero by lia.
    repeat split; [constructor | cbn; lia].
  - cbn [make_batches].
    destruct (Nat.ltb_spec i (List.length items)) as [Hlt | Hge].
    + destruct (IH (i + batchSize)) as (rest & E & Hcat & Hlen & Hall & Hfull);
        [lia|].
      rewrite E. cbn. eexists. split; [reflexivity|].
      split; [cbn; rewrite Hcat; apply slice_then_rest|].
      split.
      { cbn. rewrite Hlen.
        rewrite (ceil_div_step (List.length items - i) batchSize) by lia.
        f_equal. f_equal. lia. }
      split.
      { constructor; [rewrite slice_length; lia | exact Hall]. }
      intros [|k] Hk; cbn in Hk |- *.
      * rewrite slice_length.
        assert (0 < List.length rest) by lia.
        assert (0 < List.length items - (i + batchSize)).
        { destruct (Nat.eq_dec (List.length items - (i + batchSize)) 0)
            as [Z|]; [|lia].
          rewrite Hlen, Z, ceil_div_zero in H by lia. lia. }
        lia.
      * apply Hfull. lia.
    + exists []. rewrite skipn_all2 by lia.
      replace (List.length items - i) with 0 by lia.
      rewrite ceil_div_zero by lia.
      repeat split; [constructor | cbn; lia].
Qed.

(** With [batchSize = 0] and items left the loop never ends: no amount of
    fuel is enough. *)
Lemma make_batches_zero_diverges items i :
  i < List.length items ->
  forall fuel, make_batches fuel 0 items i = None.
Proof.
  intros Hlt. induction fuel as [|fuel IH]; cbn [make_batches].
  - destruct (Nat.ltb_spec i (List.length items)); [reflexivity | lia].
  - destruct (Nat.ltb_spec i (List.length items)); [|lia].
    rewrite Nat.add_0_r, IH. reflexivity.
Qed.

(* ================================================================== *)
(** ** What is sent to the remote peer *)

Lemma keeps_posts_ret {A} (a : A) : keeps_posts (ret a).
Proof. intros w. reflexivity. Qed.

Lemma keeps_posts_throw {A} e : keeps_posts (@throw A e).
Proof. intros w. reflexivity. Qed.

Lemma keeps_posts_bind {A B} (m : M A) (k : A -> M B) :
  keeps_posts m -> (forall a, keeps_posts (k a)) -> keeps_posts (bind m k).
Proof.
  intros Hm Hk w. unfold bind. specialize (Hm w).
  destruct (m w) as [[a | e] w1]; cbn in *.
  - rewrite Hk. exact Hm.
  - exact Hm.
Qed.

Lemma keeps_posts_try_catch {A} (m : M A) h :
  keeps_posts m -> (forall e, keeps_posts (h e)) -> keeps_posts (try_catch m h).
Proof.
  intros Hm Hk w. unfold try_catch. specialize (Hm w).
  destruct (m w) as [[a | e] w1]; cbn in *.
  - exact Hm.
  - rewrite Hk. exact Hm.
Qed.

Lemma keeps_posts_new_Date env : keeps_posts (new_Date env).
Proof. intros w. reflexivity. Qed.

Lemma keeps_posts_uuidv4 env : keeps_posts (uuidv4 env).
Proof. intros w. reflexivity. Qed.

Lemma keeps_posts_db_run env stmt : keeps_posts (db_run env stmt).
Proof. intros w. unfold db_run. destruct (db_fault env _); reflexivity. Qed.

Lemma keeps_posts_db_query {A} env (q : Database -> A) :
  keeps_posts (db_query env q).
Proof. intros w. unfold db_query. destruct (db_fault env _); reflexivity. Qed.

Lemma keeps_posts_axios_get env sid : keeps_posts (axios_get env sid).
Proof. intros w. unfold axios_get. destruct (net_get env _ _); reflexivity. Qed.

Create HintDb posts.
#[local] Hint Resolve keeps_posts_ret keeps_posts_throw keeps_posts_new_Date
  keeps_posts_uuidv4 keeps_posts_db_run keeps_posts_db_query
  keeps_posts_axios_get : posts.

Ltac posts_frame :=
  repeat first
    [ apply keeps_posts_bind; [|intros ?]
    | apply keeps_posts_try_catch; [|intros ?]
    | solve [auto with posts]
    | match goal with
      | |- keeps_posts (match ?x with _ => _ end) => destruct x
      | |- keeps_posts (if ?x then _ else _) => destruct x
      end ].

Lemma keeps_posts_updateTask env id updates :
  keeps_posts (updateTask env id updates).
Proof. unfold updateTask. posts_frame. Qed.

Lemma keeps_posts_resolveConflict env cid sid :
  keeps_posts (resolveConflict env cid sid).
Proof.
  unfold resolveConflict. posts_frame.
Qed.

Lemma keeps_posts_resolve_conflicts env results :
  keeps_posts (resolve_conflicts env results).
Proof.
  induction results as [|r rest IH]; cbn [resolve_conflicts].
  - auto with posts.
  - posts_frame;
      auto using keeps_posts_resolveConflict, keeps_posts_updateTask.
Qed.

Lemma keeps_posts_updateSyncStatus env id st sd :
  keeps_posts (updateSyncStatus env id st sd).
Proof. unfold updateSyncStatus. posts_frame. Qed.

Lemma keeps_posts_handleSyncError env item e :
  keeps_posts (handleSyncError env item e).
Proof. unfold handleSyncError. posts_frame. Qed.

Lemma keeps_posts_fail_items env batch e :
  forall errors, keeps_posts (fail_items env batch e errors).
Proof.
  induction batch as [|item rest IH]; intros errors; cbn [fail_items].
  - auto with posts.
  - posts_frame; auto using keeps_posts_handleSyncError.
Qed.

Lemma keeps_posts_catch_batch env batch e c :
  keeps_posts (catch_batch env batch e c).
Proof.
  unfold catch_batch. posts_frame; try apply keeps_posts_fail_items.
Qed.

Lemma tally_results_posts env results :
  forall c w, w_posts (snd (tally_results env results c w)) = w_posts w.
Proof.
  induction results as [|r rest IH]; intros c w; cbn [tally_results].
  - reflexivity.
  - destruct (r_status r); try apply IH.
    pose proof (keeps_posts_updateSyncStatus env (client_id r) St_synced
                  (resolved_data r) w) as Hp.
    destruct (updateSyncStatus env (client_id r) St_synced (resolved_data r) w)
      as [[[] | e] w1]; cbn in Hp.
    + rewrite IH. exact Hp.
    + exact Hp.
Qed.

Lemma resolve_conflicts_length env results :
  forall w results' w',
    resolve_conflicts env results w = (Ok results', w') ->
    List.length results' = List.length results.
Proof.
  induction results as [|r rest IH]; intros w results' w' E;
    cbn [resolve_conflicts] in E.
  - inversion E. reflexivity.
  - unfold bind at 1 in E.
    match type of E with
    | (let (_, _) := ?m w in _) = _ => destruct (m w) as [[r1 | e] w1]
    end; [|discriminate].
    unfold bind at 1 in E.
    destruct (resolve_conflicts env rest w1) as [[rest1 | e] w2] eqn:E1;
      [|discriminate].
    inversion E; subst. cbn. f_equal. eapply IH. exact E1.
Qed.

Lemma processBatch_unfold env batch w :
  let req := mkRequest batch (Instant (clock env (w_clock w))) in
  let w1 := mkWorld (w_db w) (w_dbcalls w) (S (w_clock w)) (w_uuids w)
                    (S (w_http w)) (w_posts w ++ [req]) in
  processBatch env batch w =
  match net_post env (w_http w) req with
  | Reply raw =>
      match resolve_conflicts env (processed_items raw) w1 with
      | (Ok results, w2) =>
          (Ok (mkResponse results (server_timestamp raw)), w2)
      | (Throw e, w2) => (Throw e, w2)
      end
  | NetError e => (Throw e, w1)
  end.
Proof.
  intros req w1. unfold processBatch, bind at 1, new_Date. cbn.
  unfold bind at 1, axios_post. cbn. fold req. fold w1.
  destruct (net_post env (w_http w) req) as [raw | e]; [|reflexivity].
  unfold bind.
  destruct (resolve_conflicts env (processed_items raw) w1) as [[rs | e] w2];
    reflexivity.
Qed.

(** processBatch sends exactly one request, carrying the batch; when it
    returns, the response has as many entries as the reply of the peer. *)
Lemma processBatch_posts env batch w :
  let req := mkRequest batch (Instant (clock env (w_clock w))) in
  w_posts (snd (processBatch env batch w)) = w_posts w ++ [req] /\
  (forall response w',
      processBatch env batch w = (Ok response, w') ->
      exists raw,
        net_post env (w_http w) req = Reply raw /\
        List.length (processed_items response)
        = List.length (processed_items raw)).
Proof.
  intros req. rewrite processBatch_unfold. cbv zeta. fold req.
  destruct (net_post env (w_http w) req) as [raw | e].
  - match goal with
    | |- context [resolve_conflicts env ?rs ?w1] =>
        pose proof (keeps_posts_resolve_conflicts env rs w1) as Hp;
        pose proof (resolve_conflicts_length env rs w1) as Hl;
        destruct (resolve_conflicts env rs w1) as [[rs' | e] w2]
    end; cbn in *.
    + split; [exact Hp|].
      intros response w' E. inversion E; subst. exists raw.
      split; [reflexivity|]. cbn. eapply Hl. reflexivity.
    + split; [exact Hp | discriminate].
  - split; [reflexivity | discriminate].
Qed.

Section Healthy.
Variable env : Env.
Hypothesis Hh : healthy env.

Lemma handleSyncError_healthy item e w :
  exists w',
    handleSyncError env item e w = (Ok tt, w') /\
    w_db w' = handleSyncError_db env item e (w_db w).
Proof.
  unfold handleSyncError, handleSyncError_db, bind, db_run, ret.
  destruct (SYNC_RETRY_ATTEMPTS env <=? q_retry_count item + 1);
    cbn; rewrite ?Hh; cbn; rewrite ?Hh; eexists; split; reflexivity.
Qed.

Lemma fail_items_healthy e batch :
  forall errors w,
  exists w',
    fail_items env batch e errors w =
      (Ok (errors ++
           map (fun it => ErrItem (q_task_id it) (q_operation it) e) batch),
       w') /\
    w_db w' = fail_all_db env (map (fun it => (it, e)) batch) (w_db w).
Proof.
  induction batch as [|item rest IH]; intros errors w; cbn [fail_items].
  - exists w. rewrite app_nil_r. split; reflexivity.
  - destruct (handleSyncError_healthy item e w) as (w1 & E1 & D1).
    unfold bind. rewrite E1.
    destruct (IH (errors ++ [ErrItem (q_task_id item) (q_operation item) e])
                 w1) as (w2 & E2 & D2).
    exists w2. rewrite E2, D2, D1. cbn. rewrite <- app_assoc.
    split; reflexivity.
Qed.

Lemma catch_batch_healthy batch e c w :
  exists w',
    catch_batch env batch e c w =
      (Ok (mkTally (synced c) (failed c + List.length batch)
                   (errs c ++
                    map (fun it => ErrItem (q_task_id it) (q_operation it) e)
                        batch)),
       w') /\
    w_db w' = fail_all_db env (map (fun it => (it, e)) batch) (w_db w).
Proof.
  unfold catch_batch, bind.
  destruct (fail_items_healthy e batch (errs c) w) as (w' & E & D).
  rewrite E. exists w'. split; [reflexivity | exact D].
Qed.

Lemma updateSyncStatus_healthy taskId serverData w :
  exists w',
    updateSyncStatus env taskId St_synced serverData w = (Ok tt, w') /\
    w_db w' =
      mark_synced_db taskId serverData (clock env (w_clock w)) (w_db w).
Proof.
  unfold updateSyncStatus, mark_synced_db, bind, new_Date, db_run.
  cbn. rewrite Hh. cbn. rewrite Hh. eexists. split; reflexivity.
Qed.

(** With a database that does not fail the loop over the results runs to
    its end and counts every result once. *)
Lemma tally_results_healthy results :
  forall c w,
  exists c' w',
    tally_results env results c w = ((c', None), w') /\
    synced c' + failed c' = synced c + failed c + List.length results.
Proof.
  induction results as [|r rest IH]; intros c w; cbn [tally_results].
  - exists c, w. split; [reflexivity | cbn; lia].
  - destruct (r_status r).
    + destruct (updateSyncStatus_healthy (client_id r) (resolved_data r) w)
        as (w1 & E1 & _).
      rewrite E1.
      destruct (IH (mkTally (synced c + 1) (failed c) (errs c)) w1)
        as (c' & w' & E & Hs).
      exists c', w'. split; [exact E | cbn in Hs |- *; lia].
    + destruct (IH (mkTally (synced c) (failed c + 1)
                            (errs c ++ [ErrResult r])) w)
        as (c' & w' & E & Hs).
      exists c', w'. split; [exact E | cbn in Hs |- *; lia].
    + destruct (IH (mkTally (synced c) (failed c + 1)
                            (errs c ++ [ErrResult r])) w)
        as (c' & w' & E & Hs).
      exists c', w'. split; [exact E | cbn in Hs |- *; lia].
Qed.

(** One round of the loop over the batches: it never throws, it sends one
    request, and it counts one outcome per item when the peer answers per
    item. *)
Lemma sync_batch_healthy batch c w :
  exists c' w',
    sync_batch env batch c w = (Ok c', w') /\
    w_posts w' =
      w_posts w ++ [mkRequest batch (Instant (clock env (w_clock w)))] /\
    (per_item_results env ->
     synced c' + failed c' = synced c + failed c + List.length batch).
Proof.
  unfold sync_batch.
  destruct (processBatch_posts env batch w) as (Hp & Hok).
  cbv zeta in Hp, Hok.
  destruct (processBatch env batch w) as [[response | e] w1] eqn:E;
    cbn in Hp.
  - destruct (tally_results_healthy (processed_items response) c w1)
      as (c' & w2 & Et & Hs).
    pose proof (tally_results_posts env (processed_items response) c w1)
      as Hp2.
    rewrite Et in *. cbn in Hp2. exists c', w2.
    split; [reflexivity|]. split; [congruence|].
    intros Hper. destruct (Hok response w1 eq_refl) as (raw & Hraw & Hlen).
    apply Hper in Hraw. cbn in Hraw. lia.
  - destruct (catch_batch_healthy batch e c w1) as (w2 & Ec & _).
    pose proof (keeps_posts_catch_batch env batch e c w1) as Hp2.
    rewrite Ec in *. cbn in Hp2. eexists. exists w2.
    split; [reflexivity|]. split; [congruence|].
    intros _. cbn. lia.
Qed.

Lemma sync_batches_healthy batches :
  forall c w,
  exists c' w' requests,
    sync_batches env batches c w = (Ok c', w') /\
    w_posts w' = w_posts w ++ requests /\
    map req_items requests = batches /\
    (per_item_results env ->
     synced c' + failed c'
     = synced c + failed c + List.length (concat batches)).
Proof.
  induction batches as [|batch rest IH]; intros c w; cbn [sync_batches].
  - exists c, w, []. rewrite app_nil_r. repeat split. cbn. lia.
  - destruct (sync_batch_healthy batch c w) as (c1 & w1 & E1 & P1 & S1).
    unfold bind. rewrite E1.
    destruct (IH c1 w1) as (c2 & w2 & reqs & E2 & P2 & R2 & S2).
    exists c2, w2, (mkRequest batch (Instant (clock env (w_clock w))) :: reqs).
    split; [exact E2|]. split.
    { rewrite P2, P1, <- app_assoc. reflexivity. }
    split; [cbn; now rewrite R2|].
    intros Hper. specialize (S1 Hper). specialize (S2 Hper).
    cbn. rewrite length_app. lia.
Qed.
End Healthy.

(* ================================================================== *)
(** ** The sync run *)

(** C9: with Q due items and a batch size B > 0 (the database not failing),
    sync returns a result after exactly ceil(Q/B) requests, which carry the
    due items in order, B at a time, the last one possibly fewer; success
    holds exactly when failed_items is 0; synced_items + failed_items = Q
    when the peer answers per item; and with Q = 0 nothing is sent and the
    result is the zero success. *)
Theorem sync_batching_and_counts :
  forall env w,
    healthy env ->
    0 < SYNC_BATCH_SIZE env ->
    let due := select_due (SYNC_RETRY_ATTEMPTS env) (w_db w) in
    let Q := List.length due in
    let B := SYNC_BATCH_SIZE env in
    exists result w' requests,
      sync env w = Some (Ok result, w') /\
      w_posts w' = w_posts w ++ requests /\
      List.length requests = ceil_div Q B /\
      concat (map req_items requests) = due /\
      Forall (fun req => List.length (req_items req) <= B) requests /\
      (forall k, S k < List.length requests ->
                 List.length (nth k (map req_items requests) []) = B) /\
      (success result = true <-> failed_items result = 0) /\
      (per_item_results env ->
       synced_items result + failed_items result = Q) /\
      (Q = 0 -> requests = [] /\ result = mkResult true 0 0 []).
Proof.
  intros env w Hh HB due Q B. unfold sync, db_query. rewrite Hh.
  fold due. subst Q B.
  destruct due as [|item items] eqn:Edue.
  - eexists. eexists. exists []. cbn. rewrite app_nil_r, ceil_div_zero by lia.
    repeat split; try reflexivity; try constructor; try lia.
  - rewrite <- Edue.
    destruct (make_batches_spec (SYNC_BATCH_SIZE env) due HB
                (List.length due) 0) as (bs & E & Hcat & Hlen & Hall & Hfull);
      [lia|].
    rewrite E. unfold bind.
    match goal with
    | |- context [sync_batches env bs ?c ?w1] =>
        destruct (sync_batches_healthy env Hh bs c w1)
          as (c' & w' & reqs & Es & Hp & Hr & Hs)
    end.
    rewrite Es. cbn [ret]. eexists. exists w', reqs.
    split; [reflexivity|]. split; [exact Hp|].
    rewrite Nat.sub_0_r in Hlen. cbn [skipn] in Hcat.
    rewrite Hr. repeat split.
    + rewrite <- Hlen, <- Hr, length_map. reflexivity.
    + exact Hcat.
    + rewrite <- Hr in Hall. rewrite Forall_map in Hall. exact Hall.
    + intros k Hk. apply Hfull. rewrite <- Hr, length_map. exact Hk.
    + cbn. intros H. now apply Nat.eqb_eq.
    + cbn. intros H. now apply Nat.eqb_eq.
    + intros Hper. cbn. rewrite (Hs Hper), Hcat. cbn. reflexivity.
    + rewrite Edue in H. discriminate H.
    + rewrite Edue in H. discriminate H.
Qed.

Lemma sync_batching_and_counts_witness :
  exists result w' requests,
    sync (env_small_batches confirm_all) world_three_items
      = Some (Ok result, w') /\
    w_posts w' = requests /\
    List.length requests = 2 /\
    (success result = true <-> failed_items result = 0).
Proof.
  destruct (sync_batching_and_counts (env_small_batches confirm_all)
              world_three_items (fun _ => eq_refl) (le_S 1 1 (le_n 1)))
    as (result & w' & requests & Hs & Hp & Hl & _ & _ & _ & Hok & _).
  exists result, w', requests.
  split; [exact Hs|]. split; [exact Hp|]. split; [exact Hl | exact Hok].
Defined.

(** Results that are not successes are only counted: the loop over the
    results writes nothing for them. *)
Lemma tally_results_errors_write_nothing env results :
  Forall (fun r => r_status r <> Rs_success) results ->
  forall c w, snd (tally_results env results c w) = w.
Proof.
  induction 1 as [|r rest Hr _ IH]; intros c w; cbn [tally_results].
  - reflexivity.
  - destruct (r_status r); [contradiction | apply IH | apply IH].
Qed.

(** C5, at a failing input: the queue holds one item, the peer answers it
    with status error; sync counts one failure and leaves the item as it
    was, with retry_count 0 and no last_error. *)
Theorem item_error_is_not_recorded :
  exists w',
    sync (env_with task_remote_tie reject_all) world_t1 =
      Some (Ok (mkResult false 0 1
                  [ErrResult (mkProcessed "t1" Rs_error None None
                                          (Some "Unknown operation"))]),
            w') /\
    sync_queue (w_db w') = [item_update_t1] /\
    q_retry_count item_update_t1 = 0 /\
    q_last_error item_update_t1 = None.
Proof.
  eexists. split; [vm_compute; reflexivity|]. repeat split.
Qed.

(* ================================================================== *)
(** ** Failures and retries *)

Lemma set_retry_id c e r : q_id (set_retry c e r) = q_id r.
Proof. reflexivity. Qed.

Lemma bump_row_id log : forall r, q_id (bump_row log r) = q_id r.
Proof.
  unfold bump_row. induction log as [|p log IH]; intros r; cbn [fold_left].
  - reflexivity.
  - rewrite IH. destruct (sql_eq (q_id r) (q_id (fst p))); reflexivity.
Qed.

Lemma bump_row_task_id log : forall r, q_task_id (bump_row log r) = q_task_id r.
Proof.
  unfold bump_row. induction log as [|p log IH]; intros r; cbn [fold_left].
  - reflexivity.
  - rewrite IH. destruct (sql_eq (q_id r) (q_id (fst p))); reflexivity.
Qed.

Lemma sql_eq_some r i :
  q_id r = Some i -> forall x, sql_eq (q_id r) x = true <-> x = Some i.
Proof.
  intros Hr x. rewrite Hr. destruct x as [y|]; cbn.
  - rewrite String.eqb_eq. split; [intros ->; reflexivity | now inversion 1].
  - split; discriminate.
Qed.

(** A row that no entry of the log names stays as it is. *)
Lemma bump_row_untouched log :
  forall r,
    (forall p, In p log -> sql_eq (q_id r) (q_id (fst p)) = false) ->
    bump_row log r = r.
Proof.
  unfold bump_row. induction log as [|p log IH]; intros r H; cbn [fold_left].
  - reflexivity.
  - rewrite (H p (or_introl eq_refl)). apply IH.
    intros p' Hp'. apply H. now right.
Qed.

(** A row that the log names, always with the same retry count [c], ends
    with [c + 1] retries and the message of one of the entries. *)
Lemma bump_row_touched log i c :
  forall r,
    q_id r = Some i ->
    (exists p, In p log /\ q_id (fst p) = Some i) ->
    (forall p, In p log -> q_id (fst p) = Some i ->
               q_retry_count (fst p) = c) ->
    exists e, In e (map snd log) /\ bump_row log r = set_retry (c + 1) e r.
Proof.
  unfold bump_row. induction log as [|p log IH]; intros r Hr Hex Hall.
  - destruct Hex as (p & [] & _).
  - cbn [fold_left].
    destruct (sql_eq (q_id r) (q_id (fst p))) eqn:E.
    + apply (sql_eq_some r i Hr) in E.
      rewrite (Hall p (or_introl eq_refl) E).
      destruct (existsb (fun p' => sql_eq (Some i) (q_id (fst p'))) log) eqn:X.
      * apply existsb_exists in X. destruct X as (p' & Hin & Hm).
        destruct (IH (set_retry (c + 1) (snd p) r)) as (e & He & Hb).
        { exact Hr. }
        { exists p'. split; [exact Hin|].
          destruct (q_id (fst p')) as [y|]; [|discriminate].
          cbn in Hm. apply String.eqb_eq in Hm. now subst. }
        { intros q Hq. apply Hall. now right. }
        exists e. split; [now right|]. rewrite Hb. reflexivity.
      * exists (snd p). split; [now left|].
        fold (bump_row log (set_retry (c + 1) (snd p) r)).
        apply bump_row_untouched. intros q Hq. cbn. rewrite Hr.
        destruct (sql_eq (Some i) (q_id (fst q))) eqn:Y; [|reflexivity].
        assert (existsb (fun p' => sql_eq (Some i) (q_id (fst p'))) log = true)
          by (apply existsb_exists; exists q; split; assumption).
        congruence.
    + destruct Hex as (p' & [-> | Hin] & Hm).
      * rewrite Hr, Hm in E. cbn in E. rewrite String.eqb_refl in E.
        discriminate.
      * destruct (IH r Hr) as (e & He & Hb).
        { exists p'. split; assumption. }
        { intros q Hq. apply Hall. now right. }
        exists e. split; [now right | exact Hb].
Qed.

Lemma handleSyncError_db_queue env item e db :
  sync_queue (handleSyncError_db env item e db) =
  map (fun r => if sql_eq (q_id r) (q_id item)
                then set_retry (q_retry_count item + 1) e r
                else r)
      (sync_queue db).
Proof.
  unfold handleSyncError_db.
  destruct (SYNC_RETRY_ATTEMPTS env <=? q_retry_count item + 1); reflexivity.
Qed.

(** The queue after a log of failures: row by row, no row added, removed
    or moved. *)
Lemma fail_all_db_queue env log :
  forall db,
    sync_queue (fail_all_db env log db) = map (bump_row log) (sync_queue db).
Proof.
  unfold fail_all_db, bump_row.
  induction log as [|p log IH]; intros db; cbn [fold_left].
  - symmetry. apply map_id.
  - rewrite IH, handleSyncError_db_queue, map_map. reflexivity.
Qed.

Lemma fail_all_db_app env log1 log2 db :
  fail_all_db env (log1 ++ log2) db =
  fail_all_db env log2 (fail_all_db env log1 db).
Proof. unfold fail_all_db. apply fold_left_app. Qed.

Lemma map_task_status_kept st id f db task_id :
  (forall t, t_id (f t) = t_id t) ->
  (forall t, t_sync_status (f t) = st) ->
  task_has_status st task_id db ->
  task_has_status st task_id (map_task id f db).
Proof.
  intros Hid Hst H t Hin Ht. unfold map_task in Hin. cbn in Hin.
  apply in_map_iff in Hin. destruct Hin as (t0 & <- & Hin0).
  destruct (String.eqb (t_id t0) id).
  - apply Hst.
  - now apply H.
Qed.

Lemma map_task_status_set st id f db :
  (forall t, t_sync_status (f t) = st) ->
  task_has_status st id (map_task id f db).
Proof.
  intros Hst t Hin Ht. unfold map_task in Hin. cbn in Hin.
  apply in_map_iff in Hin. destruct Hin as (t0 & <- & Hin0).
  destruct (String.eqb (t_id t0) id) eqn:E.
  - apply Hst.
  - apply String.eqb_neq in E. contradiction.
Qed.

Lemma task_has_status_same_tasks st task_id db db' :
  tasks db' = tasks db ->
  task_has_status st task_id db -> task_has_status st task_id db'.
Proof. unfold task_has_status. intros ->. auto. Qed.

(** handleSyncError never takes a task out of status error. *)
Lemma handleSyncError_db_error_kept env item e db task_id :
  task_has_status St_error task_id db ->
  task_has_status St_error task_id (handleSyncError_db env item e db).
Proof.
  intros H. unfold handleSyncError_db.
  apply (task_has_status_same_tasks _ _
           (if SYNC_RETRY_ATTEMPTS env <=? q_retry_count item + 1
            then sql_mark_error (q_task_id item) db else db));
    [reflexivity|].
  destruct (SYNC_RETRY_ATTEMPTS env <=? q_retry_count item + 1); [|exact H].
  apply map_task_status_kept; auto.
Qed.

(** When the new count reaches the limit handleSyncError puts the owning
    task in status error. *)
Lemma handleSyncError_db_error_set env item e db :
  SYNC_RETRY_ATTEMPTS env <= q_retry_count item + 1 ->
  task_has_status St_error (q_task_id item) (handleSyncError_db env item e db).
Proof.
  intros H. unfold handleSyncError_db.
  apply (task_has_status_same_tasks _ _
           (sql_mark_error (q_task_id item) db)).
  - apply Nat.leb_le in H. rewrite H. reflexivity.
  - apply map_task_status_set. auto.
Qed.

Lemma fail_all_db_error_kept env log :
  forall db task_id,
    task_has_status St_error task_id db ->
    task_has_status St_error task_id (fail_all_db env log db).
Proof.
  unfold fail_all_db. induction log as [|p log IH]; intros db tid H;
    cbn [fold_left].
  - exact H.
  - apply IH. now apply handleSyncError_db_error_kept.
Qed.

Lemma fail_all_db_error_set env log item e db :
  In (item, e) log ->
  SYNC_RETRY_ATTEMPTS env <= q_retry_count item + 1 ->
  task_has_status St_error (q_task_id item) (fail_all_db env log db).
Proof.
  intros Hin Hlim. apply in_split in Hin. destruct Hin as (l1 & l2 & ->).
  rewrite fail_all_db_app. change ((item, e) :: l2) with ([(item, e)] ++ l2).
  rewrite fail_all_db_app. apply fail_all_db_error_kept.
  cbn. now apply handleSyncError_db_error_set.
Qed.

(** One round of the loop when the request fails at the transport level:
    the catch block runs on the whole batch. *)
Lemma sync_batch_on_net_error env batch c w e :
  healthy env ->
  net_post env (w_http w)
           (mkRequest batch (Instant (clock env (w_clock w)))) = NetError e ->
  exists w',
    sync_batch env batch c w =
      (Ok (mkTally (synced c) (failed c + List.length batch)
                   (errs c ++
                    map (fun it => ErrItem (q_task_id it) (q_operation it) e)
                        batch)),
       w') /\
    w_db w' = fail_all_db env (map (fun it => (it, e)) batch) (w_db w).
Proof.
  intros Hh Hnet.
  pose proof (processBatch_unfold env batch w) as Hpb. cbv zeta in Hpb.
  rewrite Hnet in Hpb.
  match type of Hpb with
  | _ = (_, ?w1) =>
      destruct (catch_batch_healthy env Hh batch e c w1) as (w' & Ec & Hdb)
  end.
  exists w'. split; [|exact Hdb].
  unfold sync_batch. rewrite Hpb. exact Ec.
Qed.

(** X25: when the request of a batch fails at the transport level (the
    database not failing), handleSyncError runs on every item of the batch
    with the message of the failure; failed grows by the size of the batch
    and synced by nothing; the loop goes on with the batches that follow.
    In the queue, a row whose id is not NULL and is the id of an item of
    the batch ends with the retry count of the item plus one and with the
    message as last_error, its other fields unchanged; a row whose id is
    NULL, and a row whose id no item of the batch has, stay as they are. *)
Theorem transport_failure_fails_whole_batch :
  forall env batch rest c w e,
    healthy env ->
    net_post env (w_http w)
             (mkRequest batch (Instant (clock env (w_clock w)))) = NetError e ->
    exists w',
      let c' :=
        mkTally (synced c) (failed c + List.length batch)
                (errs c ++
                 map (fun it => ErrItem (q_task_id it) (q_operation it) e)
                     batch) in
      sync_batch env batch c w = (Ok c', w') /\
      w_db w' = fail_all_db env (map (fun it => (it, e)) batch) (w_db w) /\
      (forall item i r,
          In item batch -> q_id item = Some i ->
          (forall item', In item' batch -> q_id item' = Some i ->
                         q_retry_count item' = q_retry_count item) ->
          In r (sync_queue (w_db w)) -> q_id r = Some i ->
          exists r',
            In r' (sync_queue (w_db w')) /\
            q_id r' = Some i /\
            q_retry_count r' = q_retry_count item + 1 /\
            q_last_error r' = Some e /\
            q_task_id r' = q_task_id r /\
            q_operation r' = q_operation r /\
            q_data r' = q_data r /\
            q_created_at r' = q_created_at r) /\
      (forall r, In r (sync_queue (w_db w)) -> q_id r = None ->
                 In r (sync_queue (w_db w'))) /\
      (forall r, In r (sync_queue (w_db w)) ->
                 (forall item, In item batch -> q_id item <> q_id r) ->
                 In r (sync_queue (w_db w'))) /\
      List.length (sync_queue (w_db w')) = List.length (sync_queue (w_db w)) /\
      sync_batches env (batch :: rest) c w = sync_batches env rest c' w'.
Proof.
  intros env batch rest c w e Hh Hnet.
  destruct (sync_batch_on_net_error env batch c w e Hh Hnet)
    as (w' & Esb & Hdb).
  exists w'. cbv zeta. split; [exact Esb|].
  split; [exact Hdb|]. split; [|split; [|split; [|split]]].
  - intros item i r Hin Hid Hsame Hr Hrid.
    destruct (bump_row_touched (map (fun it => (it, e)) batch) i
                (q_retry_count item) r Hrid) as (e' & He' & Hb).
    + exists (item, e). split; [|exact Hid].
      apply in_map_iff. exists item. split; [reflexivity | exact Hin].
    + intros p Hp Hpid. apply in_map_iff in Hp.
      destruct Hp as (it & <- & Hit). cbn in *. now apply Hsame.
    + rewrite map_map in He'. cbn in He'. apply in_map_iff in He'.
      destruct He' as (_ & <- & _).
      exists (bump_row (map (fun it => (it, e)) batch) r).
      split; [rewrite Hdb, fail_all_db_queue; now apply in_map|].
      rewrite Hb. cbn. repeat split. exact Hrid.
  - intros r Hr Hnull. rewrite Hdb, fail_all_db_queue.
    apply in_map_iff. exists r. split; [|exact Hr].
    apply bump_row_untouched. intros p _. now rewrite Hnull.
  - intros r Hr Hother. rewrite Hdb, fail_all_db_queue.
    apply in_map_iff. exists r. split; [|exact Hr].
    apply bump_row_untouched. intros p Hp.
    apply in_map_iff in Hp. destruct Hp as (it & <- & Hit). cbn [fst].
    specialize (Hother it Hit).
    destruct (q_id r) as [x|], (q_id it) as [y|]; cbn; try reflexivity.
    apply String.eqb_neq. congruence.
  - rewrite Hdb, fail_all_db_queue, length_map. reflexivity.
  - cbn [sync_batches]. unfold bind. rewrite Esb. reflexivity.
Qed.

Lemma transport_failure_fails_whole_batch_witness :
  exists w' r',
    sync_batch (env_small_batches unreachable) [item_n 0; item_n 1]
               (mkTally 0 0 []) world_three_items
    = (Ok (mkTally 0 2
             [ErrItem (letter 10) Op_create "timeout of 8000ms exceeded";
              ErrItem (letter 11) Op_create "timeout of 8000ms exceeded"]),
       w') /\
    In r' (sync_queue (w_db w')) /\
    q_id r' = Some (letter 0) /\
    q_retry_count r' = 1 /\
    q_last_error r' = Some "timeout of 8000ms exceeded".
Proof.
  destruct (transport_failure_fails_whole_batch
              (env_small_batches unreachable) [item_n 0; item_n 1] []
              (mkTally 0 0 []) world_three_items "timeout of 8000ms exceeded"
              (fun _ => eq_refl) eq_refl)
    as (w' & Hs & _ & Hrow & _).
  destruct (Hrow (item_n 0) (letter 0) (item_n 0))
    as (r' & Hin & Hid & Hrc & Herr & _).
  - left. reflexivity.
  - reflexivity.
  - intros item' [<- | [<- | []]] H; [reflexivity | discriminate H].
  - left. reflexivity.
  - reflexivity.
  - exists w', r'. repeat split; assumption.
Defined.

(* ================================================================== *)
(** ** The due items *)

Lemma insert_by_created_at_in x l :
  forall y, In y (insert_by_created_at x l) <-> y = x \/ In y l.
Proof.
  induction l as [|z l IH]; intros y; cbn [insert_by_created_at].
  - cbn. intuition.
  - destruct (q_created_at x <? q_created_at z)%Z.
    + cbn. intuition.
    + cbn. rewrite IH. intuition.
Qed.

Lemma insert_by_created_at_length x l :
  List.length (insert_by_created_at x l) = S (List.length l).
Proof.
  induction l as [|z l IH]; cbn [insert_by_created_at].
  - reflexivity.
  - destruct (q_created_at x <? q_created_at z)%Z; cbn; [|rewrite IH];
      reflexivity.
Qed.

Lemma order_by_created_at_in l :
  forall y, In y (order_by_created_at l) <-> In y l.
Proof.
  unfold order_by_created_at.
  assert (G : forall acc y,
             In y (fold_left (fun a x => insert_by_created_at x a) l acc)
             <-> In y l \/ In y acc).
  { induction l as [|x l IH]; intros acc y; cbn [fold_left].
    - cbn. intuition.
    - rewrite IH, insert_by_created_at_in. cbn. intuition. }
  intros y. rewrite G. cbn. intuition.
Qed.

Lemma order_by_created_at_length l :
  List.length (order_by_created_at l) = List.length l.
Proof.
  unfold order_by_created_at.
  assert (G : forall acc,
             List.length
               (fold_left (fun a x => insert_by_created_at x a) l acc)
             = List.length l + List.length acc).
  { induction l as [|x l IH]; intros acc; cbn [fold_left].
    - reflexivity.
    - rewrite IH, insert_by_created_at_length. cbn. lia. }
  rewrite G. cbn. lia.
Qed.

Lemma select_due_in limit db x :
  In x (select_due limit db) <->
  In x (sync_queue db) /\ q_retry_count x < limit.
Proof.
  unfold select_due. rewrite order_by_created_at_in, filter_In.
  rewrite Nat.ltb_lt. reflexivity.
Qed.

(* ================================================================== *)
(** ** Sync runs against a peer that cannot be reached *)

Section Unreachable.
Variable env : Env.
Hypothesis Hh : healthy env.
Hypothesis Hfail : all_posts_fail env.

Lemma sync_batches_all_fail batches :
  forall c w,
  exists c' w' log,
    sync_batches env batches c w = (Ok c', w') /\
    w_db w' = fail_all_db env log (w_db w) /\
    map fst log = concat batches.
Proof.
  induction batches as [|batch rest IH]; intros c w; cbn [sync_batches].
  - exists c, w, []. repeat split.
  - destruct (Hfail (w_http w)
                (mkRequest batch (Instant (clock env (w_clock w)))))
      as (e & He).
    destruct (sync_batch_on_net_error env batch c w e Hh He)
      as (w1 & E1 & D1).
    unfold bind. rewrite E1.
    match goal with
    | |- context [sync_batches env rest ?c1 w1] =>
        destruct (IH c1 w1) as (c2 & w2 & log & E2 & D2 & L2)
    end.
    exists c2, w2, (map (fun it => (it, e)) batch ++ log).
    split; [exact E2|]. split.
    + rewrite fail_all_db_app, <- D1. exact D2.
    + rewrite map_app, map_map, L2. cbn. rewrite map_id. reflexivity.
Qed.

(** A run of sync against such a peer returns, and its writes are those of
    handleSyncError on the due items, one after the other. *)
Lemma sync_all_fail w :
  0 < SYNC_BATCH_SIZE env ->
  exists result w' log,
    sync env w = Some (Ok result, w') /\
    w_db w' = fail_all_db env log (w_db w) /\
    map fst log = select_due (SYNC_RETRY_ATTEMPTS env) (w_db w).
Proof.
  intros HB. unfold sync, db_query. rewrite Hh.
  destruct (select_due (SYNC_RETRY_ATTEMPTS env) (w_db w))
    as [|item items] eqn:Edue.
  - eexists. eexists. exists []. repeat split.
  - rewrite <- Edue.
    destruct (make_batches_spec (SYNC_BATCH_SIZE env)
                (select_due (SYNC_RETRY_ATTEMPTS env) (w_db w)) HB
                (List.length (select_due (SYNC_RETRY_ATTEMPTS env) (w_db w))) 0)
      as (bs & E & Hcat & _); [lia|].
    rewrite E. unfold bind.
    match goal with
    | |- context [sync_batches env bs ?c ?w1] =>
        destruct (sync_batches_all_fail bs c w1)
          as (c' & w' & log & Es & Hd & Hl)
    end.
    rewrite Es. cbn [ret]. eexists. exists w', log.
    split; [reflexivity|]. split; [exact Hd|].
    rewrite Hl. exact Hcat.
Qed.

(** What one such run does to the item with id [i], when no other row of
    the queue has that id. *)
Lemma sync_all_fail_item w item i :
  0 < SYNC_BATCH_SIZE env ->
  In item (sync_queue (w_db w)) ->
  q_id item = Some i ->
  unique_item_id i (sync_queue (w_db w)) ->
  exists result w' item',
    sync env w = Some (Ok result, w') /\
    In item' (sync_queue (w_db w')) /\
    unique_item_id i (sync_queue (w_db w')) /\
    q_id item' = Some i /\
    q_task_id item' = q_task_id item /\
    List.length (sync_queue (w_db w')) = List.length (sync_queue (w_db w)) /\
    (forall tid, task_has_status St_error tid (w_db w) ->
                 task_has_status St_error tid (w_db w')) /\
    (q_retry_count item < SYNC_RETRY_ATTEMPTS env ->
     q_retry_count item' = q_retry_count item + 1 /\
     q_last_error item' <> None /\
     (SYNC_RETRY_ATTEMPTS env <= q_retry_count item + 1 ->
      task_has_status St_error (q_task_id item) (w_db w'))) /\
    (SYNC_RETRY_ATTEMPTS env <= q_retry_count item -> item' = item).
Proof.
  intros HB Hin Hid Huniq.
  destruct (sync_all_fail w HB) as (result & w' & log & Es & Hd & Hl).
  exists result, w', (bump_row log item).
  assert (Hq : sync_queue (w_db w') = map (bump_row log) (sync_queue (w_db w)))
    by (rewrite Hd; apply fail_all_db_queue).
  assert (Hlog : forall p, In p log -> q_id (fst p) = Some i ->
                           fst p = item /\
                           q_retry_count item < SYNC_RETRY_ATTEMPTS env).
  { intros p Hp Hpid.
    assert (Hdue : In (fst p) (select_due (SYNC_RETRY_ATTEMPTS env) (w_db w)))
      by (rewrite <- Hl; now apply in_map).
    apply select_due_in in Hdue. destruct Hdue as [Hpq Hrc].
    assert (fst p = item) by (apply Huniq; assumption).
    subst item. split; [reflexivity | exact Hrc]. }
  split; [exact Es|]. split; [rewrite Hq; now apply in_map|]. split.
  { intros r1 r2 H1 H2 I1 I2. rewrite Hq in H1, H2.
    apply in_map_iff in H1, H2.
    destruct H1 as (a & <- & Ha), H2 as (b & <- & Hb).
    rewrite bump_row_id in I1, I2. f_equal. now apply Huniq. }
  split; [rewrite bump_row_id; exact Hid|].
  split; [apply bump_row_task_id|].
  split; [rewrite Hq; apply length_map|].
  split; [intros tid Ht; rewrite Hd; now apply fail_all_db_error_kept|].
  split.
  - intros Hrc.
    assert (Hdue : In item (select_due (SYNC_RETRY_ATTEMPTS env) (w_db w)))
      by (apply select_due_in; split; assumption).
    rewrite <- Hl in Hdue. apply in_map_iff in Hdue.
    destruct Hdue as (p & Hp & Hpin).
    destruct (bump_row_touched log i (q_retry_count item) item Hid)
      as (e & He & Hb).
    + exists p. split; [exact Hpin | now rewrite Hp].
    + intros q Hq' Hqid. destruct (Hlog q Hq' Hqid) as [-> _]. reflexivity.
    + rewrite Hb. cbn. split; [reflexivity|]. split; [discriminate|].
      intros Hlim. rewrite Hd. destruct p as [it m]. cbn in Hp. subst it.
      now apply (fail_all_db_error_set env log item m).
  - intros Hrc. apply bump_row_untouched. intros p Hp.
    destruct (sql_eq (q_id item) (q_id (fst p))) eqn:E; [|reflexivity].
    apply (sql_eq_some item i Hid) in E.
    destruct (Hlog p Hp E) as [_ Hlt]. lia.
Qed.

(** [k] runs in a row: the retry count of the item climbs by one per run
    until it reaches the limit, where it stays. *)
Lemma sync_cycles_all_fail_item i :
  0 < SYNC_BATCH_SIZE env ->
  forall k w item,
    In item (sync_queue (w_db w)) ->
    q_id item = Some i ->
    unique_item_id i (sync_queue (w_db w)) ->
    q_retry_count item <= SYNC_RETRY_ATTEMPTS env ->
    exists w' item',
      sync_cycles env k w = Some w' /\
      In item' (sync_queue (w_db w')) /\
      q_id item' = Some i /\
      q_task_id item' = q_task_id item /\
      List.length (sync_queue (w_db w')) = List.length (sync_queue (w_db w)) /\
      q_retry_count item'
      = Nat.min (SYNC_RETRY_ATTEMPTS env) (q_retry_count item + k) /\
      (forall tid, task_has_status St_error tid (w_db w) ->
                   task_has_status St_error tid (w_db w')) /\
      (q_last_error item <> None -> q_last_error item' <> None) /\
      (q_retry_count item < SYNC_RETRY_ATTEMPTS env ->
       SYNC_RETRY_ATTEMPTS env <= q_retry_count item + k ->
       q_last_error item' <> None /\
       task_has_status St_error (q_task_id item) (w_db w')).
Proof.
  intros HB. induction k as [|k IH]; intros w item Hin Hid Huniq Hle.
  - exists w, item. cbn [sync_cycles].
    repeat split; try assumption; try reflexivity; try lia; auto.
  - destruct (sync_all_fail_item w item i HB Hin Hid Huniq)
      as (result & w1 & item1 & Es & Hin1 & Huniq1 & Hid1 & Htid1 & Hlen1
          & Hkept1 & Hlt1 & Hge1).
    cbn [sync_cycles]. rewrite Es.
    destruct (Nat.lt_ge_cases (q_retry_count item) (SYNC_RETRY_ATTEMPTS env))
      as [Hlt | Hge].
    + destruct (Hlt1 Hlt) as (Hrc1 & Herr1 & Hst1).
      destruct (IH w1 item1 Hin1 Hid1 Huniq1)
        as (w' & item' & Ec & Hin' & Hid' & Htid' & Hlen' & Hrc' & Hkept'
            & Hkerr' & Hfin'); [lia|].
      exists w', item'. split; [exact Ec|]. split; [exact Hin'|].
      split; [exact Hid'|]. split; [congruence|]. split; [congruence|].
      split; [rewrite Hrc', Hrc1; f_equal; lia|].
      split; [auto|]. split; [auto|].
      intros _ Hreach. split; [auto|].
      destruct (Nat.le_gt_cases (SYNC_RETRY_ATTEMPTS env)
                                (q_retry_count item + 1)) as [Hnow | Hlater].
      * apply Hkept'. now apply Hst1.
      * rewrite <- Htid1. apply Hfin'; lia.
    + specialize (Hge1 Hge). subst item1.
      destruct (IH w1 item Hin1 Hid Huniq1 Hle)
        as (w' & item' & Ec & Hin' & Hid' & Htid' & Hlen' & Hrc' & Hkept'
            & Hkerr' & Hfin').
      exists w', item'. split; [exact Ec|]. split; [exact Hin'|].
      split; [exact Hid'|]. split; [exact Htid'|]. split; [congruence|].
      split; [rewrite Hrc'; lia|].
      split; [auto|]. split; [exact Hkerr'|].
      intros Hlt. lia.
Qed.
End Unreachable.

(** X26: for an item whose id is not NULL: a call of handleSyncError that
    brings its retry count to the limit keeps every row of that id in the
    queue, with the new count and the message, its other fields unchanged
    and no longer due, and puts the owning task in status error; and when
    no other row has that id and the item starts at 0, then after
    retryLimit runs of sync against a peer that cannot be reached its
    retry count equals retryLimit: it is still in the queue, no longer
    due, and its task is in status error. *)
Theorem retry_limit_keeps_item_and_marks_task :
  forall env,
    healthy env ->
    (forall item e w i r,
        SYNC_RETRY_ATTEMPTS env <= q_retry_count item + 1 ->
        q_id item = Some i ->
        In r (sync_queue (w_db w)) ->
        q_id r = Some i ->
        let w' := snd (handleSyncError env item e w) in
        fst (handleSyncError env item e w) = Ok tt /\
        (exists r',
            In r' (sync_queue (w_db w')) /\
            q_id r' = Some i /\
            q_retry_count r' = q_retry_count item + 1 /\
            q_last_error r' = Some e /\
            q_task_id r' = q_task_id r /\
            q_operation r' = q_operation r /\
            q_data r' = q_data r /\
            q_created_at r' = q_created_at r /\
            ~ In r' (select_due (SYNC_RETRY_ATTEMPTS env) (w_db w'))) /\
        List.length (sync_queue (w_db w'))
        = List.length (sync_queue (w_db w)) /\
        task_has_status St_error (q_task_id item) (w_db w')) /\
    (0 < SYNC_BATCH_SIZE env ->
     0 < SYNC_RETRY_ATTEMPTS env ->
     all_posts_fail env ->
     forall w item i,
       In item (sync_queue (w_db w)) ->
       q_id item = Some i ->
       unique_item_id i (sync_queue (w_db w)) ->
       q_retry_count item = 0 ->
       exists w' item',
         sync_cycles env (SYNC_RETRY_ATTEMPTS env) w = Some w' /\
         In item' (sync_queue (w_db w')) /\
         q_id item' = Some i /\
         q_retry_count item' = SYNC_RETRY_ATTEMPTS env /\
         q_last_error item' <> None /\
         ~ In item' (select_due (SYNC_RETRY_ATTEMPTS env) (w_db w')) /\
         List.length (sync_queue (w_db w'))
         = List.length (sync_queue (w_db w)) /\
         task_has_status St_error (q_task_id item) (w_db w')).
Proof.
  intros env Hh. split.
  - intros item e w i r Hlim Hid Hr Hrid w'. subst w'.
    destruct (handleSyncError_healthy env Hh item e w) as (w' & E & Hd).
    rewrite E. cbn [fst snd]. rewrite Hd.
    split; [reflexivity|]. split; [|split].
    + exists (set_retry (q_retry_count item + 1) e r). split.
      { rewrite handleSyncError_db_queue.
        apply in_map_iff. exists r. split; [|exact Hr].
        rewrite Hrid, Hid. cbn. rewrite String.eqb_refl. reflexivity. }
      cbn [set_retry q_id q_retry_count q_last_error q_task_id q_operation
           q_data q_created_at].
      repeat split; try assumption.
      intros Hdue. apply select_due_in in Hdue. cbn in Hdue. lia.
    + rewrite handleSyncError_db_queue. apply length_map.
    + now apply handleSyncError_db_error_set.
  - intros HB HL Hfail w item i Hin Hid Huniq Hrc.
    destruct (sync_cycles_all_fail_item env Hh Hfail i HB
                (SYNC_RETRY_ATTEMPTS env) w item Hin Hid Huniq)
      as (w' & item' & Ec & Hin' & Hid' & _ & Hlen & Hrc' & _ & _ & Hfin);
      [lia|].
    rewrite Hrc in Hrc', Hfin. cbn [Nat.add] in Hrc', Hfin.
    rewrite Nat.min_id in Hrc'.
    destruct (Hfin HL (le_n _)) as [Herr Hst].
    exists w', item'. repeat split; try assumption.
    intros Hdue. apply select_due_in in Hdue. lia.
Qed.

Lemma retry_limit_keeps_item_and_marks_task_witness :
  exists w' item',
    sync_cycles (env_small_batches unreachable) 3 world_three_items = Some w' /\
    In item' (sync_queue (w_db w')) /\
    q_id item' = Some (letter 0) /\
    q_retry_count item' = 3.
Proof.
  destruct (retry_limit_keeps_item_and_marks_task
              (env_small_batches unreachable) (fun _ => eq_refl))
    as [_ H].
  destruct (H (le_S 1 1 (le_n 1)) (le_S 1 2 (le_S 1 1 (le_n 1)))
              (fun _ _ => ex_intro _ "timeout of 8000ms exceeded" eq_refl)
              world_three_items (item_n 0) (letter 0)
              (or_introl eq_refl) eq_refl)
    as (w' & item' & Hc & Hin & Hid & Hrc & _).
  - intros r r' H1 H2 E1 E2. cbn in H1, H2.
    destruct H1 as [<- | [<- | [<- | []]]];
      destruct H2 as [<- | [<- | [<- | []]]];
      first [reflexivity | discriminate E1 | discriminate E2].
  - reflexivity.
  - exists w', item'. repeat split; assumption.
Defined.

(* ================================================================== *)
(** ** Sync runs against a peer that confirms everything *)

Lemma filter_twice {A} (f g : A -> bool) l :
  filter f (filter g l) = filter (fun x => g x && f x) l.
Proof.
  induction l as [|x l IH]; cbn; [reflexivity|].
  destruct (g x); cbn; [destruct (f x)|]; now rewrite IH.
Qed.

Lemma confirm_all_db_app log1 log2 db :
  confirm_all_db (log1 ++ log2) db =
  confirm_all_db log2 (confirm_all_db log1 db).
Proof. unfold confirm_all_db. apply fold_left_app. Qed.

(** The queue after a log of confirmations: the items of the confirmed
    tasks are gone, the others are as they were, in their order. *)
Lemma confirm_all_db_queue log :
  forall db,
    sync_queue (confirm_all_db log db) =
    filter (fun r => negb (existsb (String.eqb (q_task_id r))
                                   (map (fun p => fst (fst p)) log)))
           (sync_queue db).
Proof.
  unfold confirm_all_db.
  induction log as [|p log IH]; intros db; cbn [fold_left map existsb].
  - cbn. induction (sync_queue db) as [|x l IHl]; cbn; [|rewrite <- IHl];
      reflexivity.
  - rewrite IH. unfold mark_synced_db at 1.
    cbn [sync_queue sql_delete_queue_of_task].
    unfold sql_mark_synced, map_task. cbn [sync_queue].
    rewrite filter_twice. apply filter_ext. intros r.
    rewrite negb_orb. reflexivity.
Qed.

Lemma mark_synced_db_tasks taskId sd now db :
  tasks (mark_synced_db taskId sd now db) =
  tasks (sql_mark_synced
           (match sd with Some d => p_server_id d | None => None end)
           (Instant now) taskId db).
Proof. reflexivity. Qed.

Lemma mark_synced_db_kept taskId sd now db tid :
  task_has_status St_synced tid db ->
  task_has_status St_synced tid (mark_synced_db taskId sd now db).
Proof.
  intros H. eapply task_has_status_same_tasks; [apply mark_synced_db_tasks|].
  apply map_task_status_kept; auto.
Qed.

Lemma mark_synced_db_set taskId sd now db :
  task_has_status St_synced taskId (mark_synced_db taskId sd now db).
Proof.
  eapply task_has_status_same_tasks; [apply mark_synced_db_tasks|].
  apply map_task_status_set. auto.
Qed.

Lemma confirm_all_db_kept log :
  forall db tid,
    task_has_status St_synced tid db ->
    task_has_status St_synced tid (confirm_all_db log db).
Proof.
  unfold confirm_all_db. induction log as [|p log IH]; intros db tid H;
    cbn [fold_left].
  - exact H.
  - apply IH. now apply mark_synced_db_kept.
Qed.

Lemma confirm_all_db_set log db tid :
  In tid (map (fun p => fst (fst p)) log) ->
  task_has_status St_synced tid (confirm_all_db log db).
Proof.
  intros Hin. apply in_map_iff in Hin. destruct Hin as (p & <- & Hp).
  apply in_split in Hp. destruct Hp as (l1 & l2 & ->).
  rewrite confirm_all_db_app. change (p :: l2) with ([p] ++ l2).
  rewrite confirm_all_db_app. apply confirm_all_db_kept.
  cbn. apply mark_synced_db_set.
Qed.

(** A log of confirmations neither adds nor removes a task, and changes no
    task id. *)
Lemma confirm_all_db_task_ids log :
  forall db,
    map t_id (tasks (confirm_all_db log db)) = map t_id (tasks db).
Proof.
  unfold confirm_all_db. induction log as [|p log IH]; intros db;
    cbn [fold_left].
  - reflexivity.
  - rewrite IH, mark_synced_db_tasks. unfold sql_mark_synced, map_task.
    cbn [tasks]. rewrite map_map. apply map_ext. intros t.
    destruct (String.eqb (t_id t) (fst (fst p))); reflexivity.
Qed.

Lemma resolve_conflicts_no_conflict env results :
  Forall (fun p => r_status p = Rs_success) results ->
  forall w, resolve_conflicts env results w = (Ok results, w).
Proof.
  induction 1 as [|r rest Hr _ IH]; intros w; cbn [resolve_conflicts].
  - reflexivity.
  - unfold is_conflict. rewrite Hr. cbn. unfold bind. cbn.
    rewrite IH. reflexivity.
Qed.

Section Confirming.
Variable env : Env.
Hypothesis Hh : healthy env.
Hypothesis Hconfirm : all_posts_confirm env.

Lemma tally_results_success results :
  Forall (fun p => r_status p = Rs_success) results ->
  forall c w,
  exists w' log,
    tally_results env results c w =
      ((mkTally (synced c + List.length results) (failed c) (errs c), None),
       w') /\
    w_db w' = confirm_all_db log (w_db w) /\
    map (fun p => fst (fst p)) log = map client_id results.
Proof.
  induction 1 as [|r rest Hr _ IH]; intros c w; cbn [tally_results].
  - exists w, []. rewrite Nat.add_0_r. destruct c. repeat split.
  - rewrite Hr.
    destruct (updateSyncStatus_healthy env Hh (client_id r) (resolved_data r) w)
      as (w1 & E1 & D1).
    rewrite E1.
    destruct (IH (mkTally (synced c + 1) (failed c) (errs c)) w1)
      as (w2 & log & E2 & D2 & L2).
    exists w2,
      ((client_id r, resolved_data r, clock env (w_clock w)) :: log).
    rewrite E2. cbn [synced failed errs List.length].
    replace (synced c + S (List.length rest))
      with (synced c + 1 + List.length rest) by lia.
    split; [reflexivity|]. split.
    + rewrite D2, D1. reflexivity.
    + cbn. now rewrite L2.
Qed.

Lemma sync_batch_confirm batch c w :
  exists w' log,
    sync_batch env batch c w =
      (Ok (mkTally (synced c + List.length batch) (failed c) (errs c)), w') /\
    w_db w' = confirm_all_db log (w_db w) /\
    map (fun p => fst (fst p)) log = map q_task_id batch.
Proof.
  unfold sync_batch. rewrite processBatch_unfold. cbv zeta.
  destruct (Hconfirm (w_http w)
              (mkRequest batch (Instant (clock env (w_clock w)))))
    as (resp & Hr & Hids & Hall).
  rewrite Hr, (resolve_conflicts_no_conflict env _ Hall).
  cbn [processed_items].
  match goal with
  | |- context [tally_results env _ c ?w1] =>
      destruct (tally_results_success (processed_items resp) Hall c w1)
        as (w2 & log & E & D & L)
  end.
  rewrite E. exists w2, log.
  assert (List.length (processed_items resp) = List.length batch) as Hlen.
  { rewrite <- (length_map client_id), Hids. cbn. apply length_map. }
  rewrite Hlen. split; [reflexivity|]. split; [exact D|].
  rewrite L, Hids. reflexivity.
Qed.

Lemma sync_batches_confirm batches :
  forall c w,
  exists w' log,
    sync_batches env batches c w =
      (Ok (mkTally (synced c + List.length (concat batches)) (failed c)
                   (errs c)), w') /\
    w_db w' = confirm_all_db log (w_db w) /\
    map (fun p => fst (fst p)) log = map q_task_id (concat batches).
Proof.
  induction batches as [|batch rest IH]; intros c w; cbn [sync_batches].
  - exists w, []. cbn. rewrite Nat.add_0_r. destruct c. repeat split.
  - destruct (sync_batch_confirm batch c w) as (w1 & log1 & E1 & D1 & L1).
    unfold bind. rewrite E1.
    destruct (IH (mkTally (synced c + List.length batch) (failed c) (errs c))
                 w1) as (w2 & log2 & E2 & D2 & L2).
    exists w2, (log1 ++ log2). rewrite E2. cbn [synced failed errs concat].
    rewrite length_app, Nat.add_assoc. split; [reflexivity|]. split.
    + rewrite confirm_all_db_app, <- D1. exact D2.
    + rewrite !map_app, L1, L2. reflexivity.
Qed.

(** A run of sync against such a peer: every due item counts as synced,
    and the writes are those of updateSyncStatus on the tasks of the due
    items. *)
Lemma sync_confirm w :
  0 < SYNC_BATCH_SIZE env ->
  let due := select_due (SYNC_RETRY_ATTEMPTS env) (w_db w) in
  exists w' log,
    sync env w = Some (Ok (mkResult true (List.length due) 0 []), w') /\
    w_db w' = confirm_all_db log (w_db w) /\
    map (fun p => fst (fst p)) log = map q_task_id due.
Proof.
  intros HB due. unfold sync, db_query. rewrite Hh. fold due.
  destruct due as [|item items] eqn:Edue.
  - eexists. exists []. repeat split.
  - rewrite <- Edue.
    destruct (make_batches_spec (SYNC_BATCH_SIZE env) due HB
                (List.length due) 0) as (bs & E & Hcat & _); [lia|].
    rewrite E. unfold bind. cbn [skipn] in Hcat.
    match goal with
    | |- context [sync_batches env bs ?c ?w1] =>
        destruct (sync_batches_confirm bs c w1) as (w' & log & Es & Hd & Hl)
    end.
    rewrite Es. cbn. rewrite Hcat. exists w', log.
    split; [reflexivity|]. split; [exact Hd|]. rewrite Hl, Hcat. reflexivity.
Qed.

Lemma createTask_healthy taskData w :
  exists t w' row item,
    createTask env taskData w = (Ok t, w') /\
    tasks (w_db w') = tasks (w_db w) ++ [row] /\
    sync_queue (w_db w') = sync_queue (w_db w) ++ [item] /\
    q_task_id item = t_id row /\
    q_operation item = Op_create /\
    q_retry_count item = 0.
Proof.
  unfold createTask, try_catch, bind, uuidv4, new_Date, db_run. cbn.
  rewrite Hh. cbn. rewrite Hh.
  eexists. eexists. eexists. eexists. repeat split.
Qed.

Lemma create_all_healthy inputs :
  forall w n,
    backlog n (w_db w) ->
    exists created w',
      create_all env inputs w = (Ok created, w') /\
      List.length created = List.length inputs /\
      backlog (n + List.length inputs) (w_db w').
Proof.
  induction inputs as [|taskData rest IH]; intros w n Hb; cbn [create_all].
  - exists [], w. rewrite Nat.add_0_r.
    split; [reflexivity|]. split; [reflexivity | exact Hb].
  - destruct (createTask_healthy taskData w)
      as (t & w1 & row & item & E1 & Ht & Hq & Hid & _ & Hrc).
    unfold bind at 1. rewrite E1.
    destruct (IH w1 (S n)) as (created & w' & E2 & Hlen & Hb').
    { destruct Hb as (B1 & B2 & B3 & B4). unfold backlog.
      rewrite Ht, Hq, !length_app. cbn.
      split; [lia|]. split; [lia|]. split.
      - apply Forall_app. split; [exact B3 | now constructor].
      - intros t0 Hin. apply in_app_or in Hin.
        destruct Hin as [Hin | [<- | []]].
        + destruct (B4 t0 Hin) as (r & Hr & Hrid).
          exists r. split; [apply in_or_app; now left | exact Hrid].
        + exists item. split; [apply in_or_app; right; now left | exact Hid]. }
    unfold bind. rewrite E2. cbn [ret]. exists (t :: created), w'.
    split; [reflexivity|]. split; [cbn; now rewrite Hlen|].
    cbn [List.length]. replace (n + S (List.length rest))
      with (S n + List.length rest) by lia.
    exact Hb'.
Qed.

(** After a run of sync on a backlog, against such a peer, the queue is
    empty and every task is synced. *)
Lemma sync_confirm_backlog w n :
  0 < SYNC_BATCH_SIZE env ->
  0 < SYNC_RETRY_ATTEMPTS env ->
  backlog n (w_db w) ->
  exists w',
    sync env w = Some (Ok (mkResult true n 0 []), w') /\
    sync_queue (w_db w') = [] /\
    List.length (tasks (w_db w')) = n /\
    Forall (fun t => t_sync_status t = St_synced) (tasks (w_db w')).
Proof.
  intros HB HL (B1 & B2 & B3 & B4).
  destruct (sync_confirm w HB) as (w' & log & Es & Hd & Hl).
  cbv zeta in Es.
  assert (Hdue : forall r,
             In r (sync_queue (w_db w)) ->
             In r (select_due (SYNC_RETRY_ATTEMPTS env) (w_db w))).
  { intros r Hr. apply select_due_in. split; [exact Hr|].
    rewrite Forall_forall in B3. rewrite (B3 r Hr). exact HL. }
  assert (Hcount : List.length (select_due (SYNC_RETRY_ATTEMPTS env) (w_db w))
                   = n).
  { unfold select_due. rewrite order_by_created_at_length.
    rewrite <- B2. f_equal.
    rewrite Forall_forall in B3.
    clear - B3 HL.
    induction (sync_queue (w_db w)) as [|x l IH]; cbn [filter List.length].
    - reflexivity.
    - assert ((q_retry_count x <? SYNC_RETRY_ATTEMPTS env) = true) as ->.
      { apply Nat.ltb_lt. rewrite (B3 x (or_introl eq_refl)). exact HL. }
      cbn [List.length]. f_equal. apply IH. intros y Hy. apply B3. now right. }
  rewrite Hcount in Es.
  assert (Hids : forall r, In r (sync_queue (w_db w)) ->
                           In (q_task_id r) (map (fun p => fst (fst p)) log)).
  { intros r Hr. rewrite Hl. apply in_map. now apply Hdue. }
  exists w'. split; [exact Es|]. split; [|split].
  - rewrite Hd, confirm_all_db_queue.
    clear - Hids.
    induction (sync_queue (w_db w)) as [|x l IH]; cbn [filter].
    + reflexivity.
    + assert (existsb (String.eqb (q_task_id x))
                      (map (fun p => fst (fst p)) log) = true) as ->.
      { apply existsb_exists. exists (q_task_id x).
        split; [apply Hids; now left | apply String.eqb_refl]. }
      cbn. apply IH. intros y Hy. apply Hids. now right.
  - rewrite <- (length_map t_id), Hd, confirm_all_db_task_ids, length_map.
    exact B1.
  - apply Forall_forall. intros t' Ht'.
    assert (Hid' : In (t_id t') (map t_id (tasks (w_db w)))).
    { rewrite <- (confirm_all_db_task_ids log), <- Hd. now apply in_map. }
    apply in_map_iff in Hid'. destruct Hid' as (t & Hid & Ht).
    destruct (B4 t Ht) as (r & Hr & Hrid).
    assert (Hst : task_has_status St_synced (t_id t') (w_db w')).
    { rewrite Hd. apply confirm_all_db_set.
      rewrite <- Hid, <- Hrid. now apply Hids. }
    now apply Hst.
Qed.
End Confirming.

Lemma confirm_all_confirms size :
  all_posts_confirm
    (mkEnv size 3 (fun _ => false) (fun n => 5000 + Z.of_nat n)%Z letter
           (fun _ => confirm_all) (fun _ _ => Reply task_remote_tie)
           (mkDefaults (fun n => Some (letter n))
                       (fun n => 5000 + Z.of_nat n)%Z)).
Proof.
  intros n req. eexists. split; [reflexivity|]. cbn. split.
  - rewrite map_map. reflexivity.
  - apply Forall_forall. intros p Hp. apply in_map_iff in Hp.
    destruct Hp as (it & <- & _). reflexivity.
Qed.

(** C4, as the code has it: a confirmed success for a task removes from the
    queue every item of that task (the queue is keyed by task id there),
    leaves the items of the other tasks as they were and marks the task
    synced; and N tasks created on empty tables enqueue N items, which one
    run of sync against a peer that confirms everything removes, all N
    tasks ending synced. *)
Theorem confirmed_task_leaves_queue :
  forall env,
    healthy env ->
    (forall w taskId serverData,
        let w' := snd (updateSyncStatus env taskId St_synced serverData w) in
        fst (updateSyncStatus env taskId St_synced serverData w) = Ok tt /\
        sync_queue (w_db w') =
          filter (fun r => negb (String.eqb (q_task_id r) taskId))
                 (sync_queue (w_db w)) /\
        task_has_status St_synced taskId (w_db w')) /\
    (all_posts_confirm env ->
     0 < SYNC_BATCH_SIZE env ->
     0 < SYNC_RETRY_ATTEMPTS env ->
     forall inputs,
     exists created w1 w2,
       create_all env inputs empty_world = (Ok created, w1) /\
       List.length created = List.length inputs /\
       List.length (sync_queue (w_db w1)) = List.length inputs /\
       sync env w1
       = Some (Ok (mkResult true (List.length inputs) 0 []), w2) /\
       sync_queue (w_db w2) = [] /\
       List.length (tasks (w_db w2)) = List.length inputs /\
       Forall (fun t => t_sync_status t = St_synced) (tasks (w_db w2))).
Proof.
  intros env Hh. split.
  - intros w taskId sd w'. subst w'.
    destruct (updateSyncStatus_healthy env Hh taskId sd w) as (w' & E & Hd).
    rewrite E. cbn [fst snd]. rewrite Hd.
    split; [reflexivity|]. split; [reflexivity | apply mark_synced_db_set].
  - intros Hc HB HL inputs.
    destruct (create_all_healthy env Hh inputs empty_world 0)
      as (created & w1 & E1 & Hlen & Hb).
    { repeat split; [constructor | intros t []]. }
    cbn [Nat.add] in Hb.
    destruct (sync_confirm_backlog env Hh Hc w1 (List.length inputs) HB HL Hb)
      as (w2 & E2 & Hq & Ht & Hs).
    exists created, w1, w2. destruct Hb as (_ & B2 & _).
    repeat split; assumption.
Qed.

Lemma confirmed_task_leaves_queue_witness :
  exists created w1 w2,
    create_all (env_small_batches confirm_all)
               [mkPartial (Some "A") None None None;
                mkPartial (Some "B") None None None;
                mkPartial None None None None] empty_world
    = (Ok created, w1) /\
    sync (env_small_batches confirm_all) w1
    = Some (Ok (mkResult true 3 0 []), w2) /\
    sync_queue (w_db w2) = [].
Proof.
  destruct (confirmed_task_leaves_queue (env_small_batches confirm_all)
              (fun _ => eq_refl)) as [_ H].
  destruct (H (confirm_all_confirms 2) (le_S 1 1 (le_n 1))
              (le_S 1 2 (le_S 1 1 (le_n 1)))
              [mkPartial (Some "A") None None None;
               mkPartial (Some "B") None None None;
               mkPartial None None None None])
    as (created & w1 & w2 & Hc & _ & _ & Hs & Hq & _).
  exists created, w1, w2. repeat split; assumption.
Defined.

(** C4, as the spec states it, fails: the queue holds the creation and an
    update of the same task; the success of the first removes the second
    too. *)
Lemma spec_record_success_removes_one_fails :
  ~ spec_record_success_removes_one.
Proof.
  intros H.
  specialize (H (env_with task_remote_tie confirm_all) world_two_items_t1
                item_create_t1 item_update_t1 None (fun _ => eq_refl)
                (or_introl eq_refl) (or_intror (or_introl eq_refl))).
  cbn in H. apply H. discriminate.
Qed.

(* ================================================================== *)
(** ** Creating, updating and deleting, then reading back *)

Lemma task_of_row_same row : task_of_row row = row.
Proof. destruct row. reflexivity. Qed.

Lemma map_task_of_row rows : map task_of_row rows = rows.
Proof.
  induction rows as [|r rows IH]; cbn [map]; [reflexivity|].
  now rewrite IH, task_of_row_same.
Qed.

Lemma find_map_preserved {A} (p : A -> bool) (f : A -> A) l :
  (forall x, p (f x) = p x) ->
  find p (map f l) = option_map f (find p l).
Proof.
  intros H. induction l as [|x l IH]; cbn [map find]; [reflexivity|].
  rewrite H. destruct (p x); [reflexivity | exact IH].
Qed.

Lemma select_task_append_fresh id db row queue :
  fresh_task_id id db ->
  t_id row = id ->
  select_task id (mkDb (tasks db ++ [row]) queue) = Some row.
Proof.
  unfold fresh_task_id, select_task. cbn [tasks]. intros Hfresh Hid.
  induction (tasks db) as [|t l IH]; cbn [app find].
  - rewrite Hid, String.eqb_refl. reflexivity.
  - assert ((t_id t =? id)%string = false) as ->.
    { apply String.eqb_neq. apply Hfresh. now left. }
    apply IH. intros t' Ht'. apply Hfresh. now right.
Qed.

Lemma select_task_map_task id f db :
  (forall t, t_id (f t) = t_id t) ->
  select_task id (map_task id f db) = option_map f (select_task id db).
Proof.
  intros Hid. unfold select_task, map_task. cbn [tasks].
  rewrite find_map_preserved.
  - destruct (find (fun t => (t_id t =? id)%string) (tasks db)) as [t|] eqn:E;
      [|reflexivity].
    apply find_some in E. destruct E as [_ E]. cbn. now rewrite E.
  - intros t. destruct (t_id t =? id)%string eqn:E; [|exact E].
    now rewrite Hid.
Qed.

Lemma select_task_same_tasks id db db' :
  tasks db' = tasks db -> select_task id db' = select_task id db.
Proof. unfold select_task. now intros ->. Qed.

Lemma createTask_run env w taskData :
  db_fault env (w_dbcalls w) = false ->
  db_fault env (S (w_dbcalls w)) = false ->
  let id := uuid env (w_uuids w) in
  let now := Instant (clock env (w_clock w)) in
  let title := or_else (p_title taskData) "untitled task" in
  let description := or_else (p_description taskData) "" in
  let completed := or_else (p_completed taskData) false in
  let task := mkTask id title description completed now now false St_pending
                     None (Some now) in
  let row := mkTask id title description completed now now false St_pending
                    None None in
  createTask env taskData w =
  (Ok task,
   mkWorld
     (mkDb (tasks (w_db w) ++ [row])
           (sync_queue (w_db w) ++
            [mkItem (Some (uuid env (S (w_uuids w)))) id Op_create task 0 None
                    (default_created_at (queue_defaults env)
                                        (S (w_dbcalls w)))]))
     (S (S (w_dbcalls w))) (S (w_clock w)) (S (S (w_uuids w))) (w_http w)
     (w_posts w)).
Proof.
  intros F0 F1. cbv zeta.
  unfold createTask, try_catch, bind, uuidv4, new_Date, db_run.
  cbn. rewrite F0. cbn. rewrite F1. reflexivity.
Qed.

Lemma updateTask_run env w id updates existing :
  db_fault env (w_dbcalls w) = false ->
  db_fault env (S (w_dbcalls w)) = false ->
  db_fault env (S (S (w_dbcalls w))) = false ->
  select_task id (w_db w) = Some existing ->
  t_is_deleted existing = false ->
  let now := clock env (w_clock w) in
  let updated :=
    mkTask (t_id existing)
           (or_else (p_title updates) (t_title existing))
           (or_else (p_description updates) (t_description existing))
           (or_else (p_completed updates) (t_completed existing))
           (t_created_at existing) (Instant now) false St_pending
           (t_server_id existing) (t_last_synced_at existing) in
  updateTask env id updates w =
  (Ok (Some updated),
   mkWorld
     (sql_insert_queue env Op_update id updated 0 now (S (S (w_dbcalls w)))
        (sql_update_task (t_title updated) (t_description updated)
                         (t_completed updated) (Instant now) St_pending id
                         (w_db w)))
     (S (S (S (w_dbcalls w)))) (S (w_clock w)) (w_uuids w) (w_http w)
     (w_posts w)).
Proof.
  intros F0 F1 F2 Hs Hd. cbv zeta.
  unfold updateTask, try_catch, bind, db_query, new_Date, db_run.
  cbn. rewrite F0, Hs, Hd. cbn. rewrite F1. cbn. rewrite F2. reflexivity.
Qed.

Lemma deleteTask_run env w id existing :
  db_fault env (w_dbcalls w) = false ->
  db_fault env (S (w_dbcalls w)) = false ->
  db_fault env (S (S (w_dbcalls w))) = false ->
  select_task id (w_db w) = Some existing ->
  t_is_deleted existing = false ->
  let now := clock env (w_clock w) in
  deleteTask env id w =
  (Ok true,
   mkWorld
     (sql_insert_queue env Op_delete id existing 0 now (S (S (w_dbcalls w)))
        (sql_soft_delete (Instant now) id (w_db w)))
     (S (S (S (w_dbcalls w)))) (S (w_clock w)) (w_uuids w) (w_http w)
     (w_posts w)).
Proof.
  intros F0 F1 F2 Hs Hd. cbv zeta.
  unfold deleteTask, try_catch, bind, db_query, new_Date, db_run.
  cbn. rewrite F0, Hs, Hd. cbn. rewrite F1. cbn. rewrite F2. reflexivity.
Qed.

Lemma getTask_run env w id :
  db_fault env (w_dbcalls w) = false ->
  fst (getTask env id w) =
  Ok (match select_task id (w_db w) with
      | Some t => if t_is_deleted t then None else Some t
      | None => None
      end).
Proof.
  intros F0. unfold getTask, try_catch, bind, db_query. rewrite F0.
  destruct (select_task id (w_db w)) as [t|]; [|reflexivity].
  destruct (t_is_deleted t); reflexivity.
Qed.

Lemma getAllTasks_run env w :
  db_fault env (w_dbcalls w) = false ->
  fst (getAllTasks env w) = Ok (select_live (w_db w)).
Proof.
  intros F0. unfold getAllTasks, try_catch, bind, db_query. rewrite F0.
  cbn. now rewrite map_task_of_row.
Qed.

Lemma getTasksNeedingSync_run env w :
  db_fault env (w_dbcalls w) = false ->
  fst (getTasksNeedingSync env w) = Ok (select_needing_sync (w_db w)).
Proof.
  intros F0. unfold getTasksNeedingSync, try_catch, db_query. now rewrite F0.
Qed.

(** X1: a task created under an id that no row has is read back by getTask
    as it was stored: the fields of the returned object, except that the
    stored row has no last_synced_at, while the object returned by
    createTask carries the creation date there. *)
Theorem createTask_then_getTask :
  forall env w taskData,
    healthy env ->
    fresh_task_id (uuid env (w_uuids w)) (w_db w) ->
    exists created w1,
      createTask env taskData w = (Ok created, w1) /\
      t_id created = uuid env (w_uuids w) /\
      t_last_synced_at created = Some (t_created_at created) /\
      fst (getTask env (t_id created) w1) =
        Ok (Some (mkTask (t_id created) (t_title created)
                         (t_description created) (t_completed created)
                         (t_created_at created) (t_updated_at created)
                         (t_is_deleted created) (t_sync_status created)
                         (t_server_id created) None)).
Proof.
  intros env w taskData Hh Hfresh.
  pose proof (createTask_run env w taskData (Hh _) (Hh _)) as E.
  cbv zeta in E. eexists. eexists. split; [exact E|].
  split; [reflexivity|]. split; [reflexivity|].
  rewrite getTask_run by apply Hh. cbn [w_db t_id].
  rewrite select_task_append_fresh; [reflexivity | exact Hfresh | reflexivity].
Qed.

Lemma createTask_then_getTask_witness :
  exists created w1,
    createTask (env_with task_remote_tie unreachable)
               (mkPartial None None None None) empty_world
    = (Ok created, w1) /\
    t_title created = "untitled task" /\
    fst (getTask (env_with task_remote_tie unreachable) (t_id created) w1)
    = Ok (Some (mkTask (t_id created) (t_title created)
                       (t_description created) (t_completed created)
                       (t_created_at created) (t_updated_at created)
                       (t_is_deleted created) (t_sync_status created)
                       (t_server_id created) None)).
Proof.
  destruct (createTask_then_getTask (env_with task_remote_tie unreachable)
              empty_world (mkPartial None None None None) (fun _ => eq_refl))
    as (created & w1 & E & _ & _ & Hg).
  - intros t [].
  - exists created, w1. split; [exact E|]. split; [|exact Hg].
    cbv in E. inversion E. reflexivity.
Defined.

(** X2: updateTask on a stored, not deleted task merges the given fields
    into the row and keeps the others, sets updated_at to the clock and
    sync_status to pending, appends one update item carrying the merged
    task, leaves the rows of other ids alone, and getTask then returns the
    merged task. *)
Theorem updateTask_then_getTask :
  forall env w id updates existing,
    healthy env ->
    select_task id (w_db w) = Some existing ->
    t_is_deleted existing = false ->
    exists updated w1 item,
      updateTask env id updates w = (Ok (Some updated), w1) /\
      fst (getTask env id w1) = Ok (Some updated) /\
      updated =
        mkTask id
               (or_else (p_title updates) (t_title existing))
               (or_else (p_description updates) (t_description existing))
               (or_else (p_completed updates) (t_completed existing))
               (t_created_at existing) (Instant (clock env (w_clock w)))
               false St_pending (t_server_id existing)
               (t_last_synced_at existing) /\
      sync_queue (w_db w1) = sync_queue (w_db w) ++ [item] /\
      q_task_id item = id /\
      q_operation item = Op_update /\
      q_data item = updated /\
      q_retry_count item = 0 /\
      List.length (tasks (w_db w1)) = List.length (tasks (w_db w)) /\
      (forall t, In t (tasks (w_db w)) -> t_id t <> id ->
                 In t (tasks (w_db w1))).
Proof.
  intros env w id updates existing Hh Hs Hd.
  pose proof (updateTask_run env w id updates existing (Hh _) (Hh _) (Hh _)
                Hs Hd) as E.
  cbv zeta in E. pose proof (select_task_id _ _ _ Hs) as Hid.
  eexists. eexists. eexists. split; [exact E|].
  split; [|split; [|split; [reflexivity|]]].
  - rewrite getTask_run by apply Hh. cbn [w_db].
    rewrite (select_task_same_tasks id
               (sql_update_task
                  (or_else (p_title updates) (t_title existing))
                  (or_else (p_description updates) (t_description existing))
                  (or_else (p_completed updates) (t_completed existing))
                  (Instant (clock env (w_clock w))) St_pending id (w_db w)))
      by reflexivity.
    unfold sql_update_task. rewrite select_task_map_task by reflexivity.
    rewrite Hs. cbn. rewrite Hd. reflexivity.
  - now rewrite Hid.
  - cbn. repeat split.
    + apply length_map.
    + intros t Hin Hne. apply in_map_iff. exists t. split; [|exact Hin].
      apply String.eqb_neq in Hne. now rewrite Hne.
Qed.

Lemma updateTask_then_getTask_witness :
  exists updated w1,
    updateTask (env_with task_remote_tie unreachable) "t1"
               (mkPartial (Some "new title") None None None) world_t1
    = (Ok (Some updated), w1) /\
    fst (getTask (env_with task_remote_tie unreachable) "t1" w1)
    = Ok (Some updated) /\
    t_title updated = "new title" /\
    t_description updated = t_description task_local.
Proof.
  destruct (updateTask_then_getTask (env_with task_remote_tie unreachable)
              world_t1 "t1" (mkPartial (Some "new title") None None None)
              task_local (fun _ => eq_refl) eq_refl eq_refl)
    as (updated & w1 & item & E & Hg & Hu & _).
  exists updated, w1. split; [exact E|]. split; [exact Hg|].
  rewrite Hu. split; reflexivity.
Defined.

Lemma select_live_soft_deleted now id db :
  forall t, In t (select_live (sql_soft_delete now id db)) -> t_id t <> id.
Proof.
  intros t Hin. unfold select_live, sql_soft_delete, map_task in Hin.
  cbn [tasks] in Hin. apply filter_In in Hin. destruct Hin as [Hin Hlive].
  apply in_map_iff in Hin. destruct Hin as (t0 & Ht & _).
  destruct (t_id t0 =? id)%string eqn:E.
  - subst t. discriminate Hlive.
  - subst t. now apply String.eqb_neq.
Qed.

(** X3: deleteTask on a stored, not deleted task is a soft delete.  No row
    leaves the table; one delete item is queued, carrying the task as it
    was before; afterwards getTask returns null, getAllTasks lists no task
    of that id, updateTask returns null, a second deleteTask returns false
    and writes nothing, and getTasksNeedingSync still lists the deleted
    task, as pending. *)
Theorem deleteTask_is_soft :
  forall env w id updates existing,
    healthy env ->
    select_task id (w_db w) = Some existing ->
    t_is_deleted existing = false ->
    exists w1 item listed needing,
      deleteTask env id w = (Ok true, w1) /\
      List.length (tasks (w_db w1)) = List.length (tasks (w_db w)) /\
      sync_queue (w_db w1) = sync_queue (w_db w) ++ [item] /\
      q_task_id item = id /\
      q_operation item = Op_delete /\
      q_data item = existing /\
      fst (getTask env id w1) = Ok None /\
      fst (getAllTasks env w1) = Ok listed /\
      (forall t, In t listed -> t_id t <> id) /\
      fst (updateTask env id updates w1) = Ok None /\
      fst (deleteTask env id w1) = Ok false /\
      w_db (snd (deleteTask env id w1)) = w_db w1 /\
      fst (getTasksNeedingSync env w1) = Ok needing /\
      (exists t, In t needing /\ t_id t = id /\ t_is_deleted t = true).
Proof.
  intros env w id updates existing Hh Hs Hd.
  pose proof (deleteTask_run env w id existing (Hh _) (Hh _) (Hh _) Hs Hd)
    as E.
  cbv zeta in E. pose proof (select_task_id _ _ _ Hs) as Hid.
  set (now := Instant (clock env (w_clock w))) in *.
  match type of E with
  | _ = (_, ?w1') => set (w1 := w1') in *
  end.
  assert (Hsel : exists gone, select_task id (w_db w1) = Some gone /\
                              t_is_deleted gone = true /\
                              t_id gone = id /\
                              t_sync_status gone = St_pending).
  { eexists. split.
    - rewrite (select_task_same_tasks id (sql_soft_delete now id (w_db w)))
        by reflexivity.
      unfold sql_soft_delete. rewrite select_task_map_task by reflexivity.
      rewrite Hs. reflexivity.
    - cbn. repeat split. exact Hid. }
  destruct Hsel as (gone & Hgone & Hgd & Hgid & Hgst).
  assert (Habs : absent_or_deleted id (w_db w1))
    by (right; exists gone; split; assumption).
  exists w1. eexists. exists (select_live (w_db w1)).
  exists (select_needing_sync (w_db w1)).
  split; [exact E|]. split; [cbn; apply length_map|].
  split; [reflexivity|]. split; [reflexivity|]. split; [reflexivity|].
  split; [reflexivity|].
  split; [rewrite getTask_run by apply Hh; now rewrite Hgone, Hgd|].
  split; [apply getAllTasks_run, Hh|].
  split; [intros t Ht; apply (select_live_soft_deleted now id (w_db w));
          exact Ht|].
  unfold updateTask, deleteTask, try_catch, bind, db_query.
  rewrite Hh, Hgone, Hgd. cbn [fst snd w_db].
  split; [reflexivity|]. split; [reflexivity|]. split; [reflexivity|].
  split; [apply getTasksNeedingSync_run, Hh|].
  exists gone. split; [|split; assumption].
  unfold select_needing_sync. apply filter_In. split.
  - unfold select_task in Hgone. apply find_some in Hgone. apply Hgone.
  - unfold needs_sync. now rewrite Hgst.
Qed.

Lemma deleteTask_is_soft_witness :
  exists w1,
    deleteTask (env_with task_remote_tie unreachable) "t1" world_t1
    = (Ok true, w1) /\
    fst (getTask (env_with task_remote_tie unreachable) "t1" w1) = Ok None /\
    fst (deleteTask (env_with task_remote_tie unreachable) "t1" w1)
    = Ok false.
Proof.
  destruct (deleteTask_is_soft (env_with task_remote_tie unreachable)
              world_t1 "t1" (mkPartial None None None None) task_local
              (fun _ => eq_refl) eq_refl eq_refl)
    as (w1 & item & listed & needing & E & _ & _ & _ & _ & _ & Hg & _ & _ & _
        & Hd & _).
  exists w1. split; [exact E|]. split; [exact Hg | exact Hd].
Defined.

(** X4: after createTask, getAllTasks returns what it returned before
    followed by the new row, and so does getTasksNeedingSync: a new task is
    listed last and is waiting for a sync. *)
Theorem createTask_then_lists :
  forall env w taskData,
    healthy env ->
    exists created w1 row,
      createTask env taskData w = (Ok created, w1) /\
      t_id row = t_id created /\
      t_title row = t_title created /\
      t_sync_status row = St_pending /\
      (forall before,
          fst (getAllTasks env w) = Ok before ->
          fst (getAllTasks env w1) = Ok (before ++ [row])) /\
      (forall before,
          fst (getTasksNeedingSync env w) = Ok before ->
          fst (getTasksNeedingSync env w1) = Ok (before ++ [row])).
Proof.
  intros env w taskData Hh.
  pose proof (createTask_run env w taskData (Hh _) (Hh _)) as E.
  cbv zeta in E. eexists. eexists.
  exists (mkTask (uuid env (w_uuids w))
                 (or_else (p_title taskData) "untitled task")
                 (or_else (p_description taskData) "")
                 (or_else (p_completed taskData) false)
                 (Instant (clock env (w_clock w)))
                 (Instant (clock env (w_clock w))) false St_pending None None).
  split; [exact E|].
  split; [reflexivity|]. split; [reflexivity|]. split; [reflexivity|].
  split.
  - intros before Hb. rewrite getAllTasks_run in Hb by apply Hh.
    rewrite getAllTasks_run by apply Hh. inversion Hb.
    unfold select_live. cbn [w_db tasks]. rewrite filter_app. reflexivity.
  - intros before Hb. rewrite getTasksNeedingSync_run in Hb by apply Hh.
    rewrite getTasksNeedingSync_run by apply Hh. inversion Hb.
    unfold select_needing_sync. cbn [w_db tasks]. rewrite filter_app.
    reflexivity.
Qed.

Lemma createTask_then_lists_witness :
  exists created w1 row,
    createTask (env_with task_remote_tie unreachable)
               (mkPartial (Some "B") None None None) world_t1
    = (Ok created, w1) /\
    fst (getAllTasks (env_with task_remote_tie unreachable) w1)
    = Ok ([task_local] ++ [row]).
Proof.
  destruct (createTask_then_lists (env_with task_remote_tie unreachable)
              world_t1 (mkPartial (Some "B") None None None)
              (fun _ => eq_refl))
    as (created & w1 & row & E & _ & _ & _ & Hall & _).
  exists created, w1, row. split; [exact E|].
  apply Hall. reflexivity.
Defined.

(** X5: when the database rejects the first call of a method of
    TaskService, nothing is written and the driver's message is lost:
    createTask and getAllTasks throw 'Not implemented', updateTask, deleteTask
    and getTask throw their own fixed message, and getTasksNeedingSync
    returns the empty list as if no task were waiting. *)
Theorem task_service_on_rejected_call :
  forall env w id taskData updates,
    db_fault env (w_dbcalls w) = true ->
    (fst (createTask env taskData w) = Throw "Not implemented" /\
     w_db (snd (createTask env taskData w)) = w_db w) /\
    (fst (updateTask env id updates w) = Throw "Failed to update task" /\
     w_db (snd (updateTask env id updates w)) = w_db w) /\
    (fst (deleteTask env id w) = Throw "Failed to delete task" /\
     w_db (snd (deleteTask env id w)) = w_db w) /\
    (fst (getTask env id w) = Throw "Failed to fetch task" /\
     w_db (snd (getTask env id w)) = w_db w) /\
    (fst (getAllTasks env w) = Throw "Not implemented" /\
     w_db (snd (getAllTasks env w)) = w_db w) /\
    (fst (getTasksNeedingSync env w) = Ok [] /\
     w_db (snd (getTasksNeedingSync env w)) = w_db w).
Proof.
  intros env w id taskData updates F.
  unfold createTask, updateTask, deleteTask, getTask, getAllTasks,
    getTasksNeedingSync, try_catch, bind, db_query, db_run, uuidv4, new_Date.
  cbn. rewrite F. cbn. repeat split.
Qed.

Lemma task_service_on_rejected_call_witness :
  fst (getTasksNeedingSync (env_failing_at 0) world_t1) = Ok [] /\
  fst (createTask (env_failing_at 0) (mkPartial None None None None) world_t1)
  = Throw "Not implemented".
Proof.
  destruct (task_service_on_rejected_call (env_failing_at 0) world_t1 "t1"
              (mkPartial None None None None) (mkPartial None None None None)
              eq_refl)
    as ((Hc & _) & _ & _ & _ & _ & (Hn & _)).
  split; [exact Hn | exact Hc].
Defined.

(* ================================================================== *)
(** ** More on the writes of the sync service *)

(** X6: a confirmation sets the server id of the task to the one in the
    server data, and to NULL when the server data has none, whatever server
    id the task had; it stamps last_synced_at with the clock and keeps the
    other fields; rows of other ids are left alone. *)
Theorem updateSyncStatus_overwrites_server_id :
  forall env w taskId serverData t,
    healthy env ->
    In t (tasks (w_db w)) ->
    t_id t = taskId ->
    let w' := snd (updateSyncStatus env taskId St_synced serverData w) in
    let sid := match serverData with
               | Some d => p_server_id d
               | None => None
               end in
    In (mkTask (t_id t) (t_title t) (t_description t) (t_completed t)
               (t_created_at t) (t_updated_at t) (t_is_deleted t) St_synced
               sid (Some (Instant (clock env (w_clock w)))))
       (tasks (w_db w')) /\
    (forall t', In t' (tasks (w_db w')) -> t_id t' = taskId ->
                t_server_id t' = sid) /\
    (forall t', In t' (tasks (w_db w)) -> t_id t' <> taskId ->
                In t' (tasks (w_db w'))).
Proof.
  intros env w taskId sd t Hh Hin Hid w' sid. subst w'.
  destruct (updateSyncStatus_healthy env Hh taskId sd w) as (w' & E & Hd).
  rewrite E. cbn [snd]. rewrite Hd, mark_synced_db_tasks.
  fold sid. unfold sql_mark_synced, map_task. cbn [tasks]. split; [|split].
  - apply in_map_iff. exists t. split; [|exact Hin].
    apply String.eqb_eq in Hid. now rewrite Hid.
  - intros t' Hin' Hid'. apply in_map_iff in Hin'.
    destruct Hin' as (t0 & <- & _).
    destruct (t_id t0 =? taskId)%string eqn:X; [reflexivity|].
    apply String.eqb_neq in X. contradiction.
  - intros t' Hin' Hne. apply in_map_iff. exists t'. split; [|exact Hin'].
    apply String.eqb_neq in Hne. now rewrite Hne.
Qed.

Lemma updateSyncStatus_overwrites_server_id_witness :
  In (mkTask "t1" "local title" "" false (Instant 500) (Instant 1000) false
             St_synced None (Some (Instant 5000)))
     (tasks (w_db (snd (updateSyncStatus
                          (env_with task_remote_tie unreachable) "t1"
                          St_synced None world_t1)))) /\
  t_server_id task_local = Some "s1".
Proof.
  split; [|reflexivity].
  exact (proj1 (updateSyncStatus_overwrites_server_id
                  (env_with task_remote_tie unreachable) world_t1 "t1" None
                  task_local (fun _ => eq_refl) (or_introl eq_refl) eq_refl)).
Defined.

(** X7: while the new retry count stays below the limit, handleSyncError
    does not touch table tasks: the task is not flagged; in the queue only
    the rows with the id of the item change, and only in retry_count and
    last_error. *)
Theorem handleSyncError_below_limit :
  forall env w item e,
    healthy env ->
    q_retry_count item + 1 < SYNC_RETRY_ATTEMPTS env ->
    let w' := snd (handleSyncError env item e w) in
    fst (handleSyncError env item e w) = Ok tt /\
    tasks (w_db w') = tasks (w_db w) /\
    sync_queue (w_db w') =
      map (fun r => if sql_eq (q_id r) (q_id item)
                    then set_retry (q_retry_count item + 1) e r
                    else r)
          (sync_queue (w_db w)) /\
    (forall r, In r (sync_queue (w_db w)) -> q_id r = None ->
               In r (sync_queue (w_db w'))).
Proof.
  intros env w item e Hh Hlt w'. subst w'.
  destruct (handleSyncError_healthy env Hh item e w) as (w' & E & Hd).
  rewrite E. cbn [fst snd]. rewrite Hd. split; [reflexivity|].
  split; [|split].
  - unfold handleSyncError_db.
    assert ((SYNC_RETRY_ATTEMPTS env <=? q_retry_count item + 1) = false)
      as -> by (apply Nat.leb_gt; exact Hlt).
    reflexivity.
  - apply handleSyncError_db_queue.
  - intros r Hin Hnull. rewrite handleSyncError_db_queue.
    apply in_map_iff. exists r. split; [|exact Hin].
    now rewrite Hnull.
Qed.

Lemma handleSyncError_below_limit_witness :
  tasks (w_db (snd (handleSyncError (env_with task_remote_tie unreachable)
                                    item_update_t1 "boom" world_t1)))
  = [task_local].
Proof.
  assert (L : q_retry_count item_update_t1 + 1
              < SYNC_RETRY_ATTEMPTS (env_with task_remote_tie unreachable))
    by (cbn; lia).
  exact (proj1 (proj2 (handleSyncError_below_limit
                         (env_with task_remote_tie unreachable) world_t1
                         item_update_t1 "boom" (fun _ => eq_refl) L))).
Defined.

(* ================================================================== *)
(** ** More on the sync run *)

Lemma insert_by_created_at_sorted x l :
  Sorted older_or_same l -> Sorted older_or_same (insert_by_created_at x l).
Proof.
  induction 1 as [|y l Hs IH Hhd]; cbn [insert_by_created_at].
  - repeat constructor.
  - destruct (Z.ltb_spec (q_created_at x) (q_created_at y)) as [Hlt | Hge].
    + constructor; [now constructor|]. constructor. unfold older_or_same. lia.
    + constructor; [exact IH|].
      destruct l as [|z l]; cbn [insert_by_created_at].
      * constructor. exact Hge.
      * destruct (q_created_at x <? q_created_at z)%Z.
        -- constructor. exact Hge.
        -- inversion Hhd. now constructor.
Qed.

Lemma order_by_created_at_sorted l :
  Sorted older_or_same (order_by_created_at l).
Proof.
  unfold order_by_created_at.
  assert (G : forall acc,
             Sorted older_or_same acc ->
             Sorted older_or_same
               (fold_left (fun a x => insert_by_created_at x a) l acc)).
  { induction l as [|x l IH]; intros acc Hacc; cbn [fold_left].
    - exact Hacc.
    - apply IH. now apply insert_by_created_at_sorted. }
  apply G. constructor.
Qed.

(** What a run of sync sends when the database does not fail and the batch
    size is positive: the due items, in the order of the query. *)
Lemma sync_healthy_requests env w :
  healthy env ->
  0 < SYNC_BATCH_SIZE env ->
  exists result w' requests,
    sync env w = Some (Ok result, w') /\
    w_posts w' = w_posts w ++ requests /\
    concat (map req_items requests)
    = select_due (SYNC_RETRY_ATTEMPTS env) (w_db w).
Proof.
  intros Hh HB. unfold sync, db_query. rewrite Hh.
  destruct (select_due (SYNC_RETRY_ATTEMPTS env) (w_db w))
    as [|item items] eqn:Edue.
  - eexists. eexists. exists []. cbn. rewrite app_nil_r. repeat split.
  - rewrite <- Edue.
    destruct (make_batches_spec (SYNC_BATCH_SIZE env)
                (select_due (SYNC_RETRY_ATTEMPTS env) (w_db w)) HB
                (List.length (select_due (SYNC_RETRY_ATTEMPTS env) (w_db w))) 0)
      as (bs & E & Hcat & _); [lia|].
    rewrite E. unfold bind.
    match goal with
    | |- context [sync_batches env bs ?c ?w1] =>
        destruct (sync_batches_healthy env Hh bs c w1)
          as (c' & w' & reqs & Es & Hp & Hr & _)
    end.
    rewrite Es. cbn [ret]. eexists. exists w', reqs.
    split; [reflexivity|]. split; [exact Hp|]. rewrite Hr. exact Hcat.
Qed.

(** X8: what a run of sync sends (the database not failing, the batch size
    positive), request after request, is sorted by created_at, oldest
    first, and is made of the rows of the queue whose retry_count is below
    the limit: an item that has reached the limit is never sent again. *)
Theorem sync_sends_due_items_oldest_first :
  forall env w,
    healthy env ->
    0 < SYNC_BATCH_SIZE env ->
    exists result w' requests,
      sync env w = Some (Ok result, w') /\
      w_posts w' = w_posts w ++ requests /\
      Sorted older_or_same (concat (map req_items requests)) /\
      (forall it,
          In it (concat (map req_items requests)) <->
          In it (sync_queue (w_db w)) /\
          q_retry_count it < SYNC_RETRY_ATTEMPTS env).
Proof.
  intros env w Hh HB.
  destruct (sync_healthy_requests env w Hh HB)
    as (result & w' & requests & Es & Hp & Hc).
  exists result, w', requests. split; [exact Es|]. split; [exact Hp|].
  rewrite Hc. split.
  - apply order_by_created_at_sorted.
  - intros it. apply select_due_in.
Qed.

Lemma sync_sends_due_items_oldest_first_witness :
  exists result w' requests,
    sync (env_small_batches unreachable) world_three_items
    = Some (Ok result, w') /\
    w_posts w' = requests /\
    Sorted older_or_same (concat (map req_items requests)).
Proof.
  destruct (sync_sends_due_items_oldest_first
              (env_small_batches unreachable) world_three_items
              (fun _ => eq_refl) (le_S 1 1 (le_n 1)))
    as (result & w' & requests & Es & Hp & Hs & _).
  exists result, w', requests. repeat split; assumption.
Defined.

Lemma tally_results_errors_counted env results :
  forall c w c' pending w',
    tally_results env results c w = ((c', pending), w') ->
    List.length (errs c) = failed c ->
    List.length (errs c') = failed c'.
Proof.
  induction results as [|r rest IH]; intros c w c' pending w' E Hc;
    cbn [tally_results] in E.
  - inversion E; subst. exact Hc.
  - destruct (r_status r).
    + destruct (updateSyncStatus env (client_id r) St_synced (resolved_data r)
                                 w) as [[[] | e] w1].
      * eapply IH; [exact E | exact Hc].
      * inversion E; subst. exact Hc.
    + eapply IH; [exact E|]. cbn. rewrite length_app. cbn. lia.
    + eapply IH; [exact E|]. cbn. rewrite length_app. cbn. lia.
Qed.

Lemma fail_items_length env batch e :
  forall errors w errors' w',
    fail_items env batch e errors w = (Ok errors', w') ->
    List.length errors' = List.length errors + List.length batch.
Proof.
  induction batch as [|item rest IH]; intros errors w errors' w' E;
    cbn [fail_items] in E.
  - inversion E; subst. cbn. lia.
  - unfold bind in E.
    destruct (handleSyncError env item e w) as [[[] | e1] w1]; [|discriminate].
    apply IH in E. rewrite E, length_app. cbn. lia.
Qed.

Lemma catch_batch_errors_counted env batch e c w c' w' :
  catch_batch env batch e c w = (Ok c', w') ->
  List.length (errs c) = failed c ->
  List.length (errs c') = failed c'.
Proof.
  unfold catch_batch, bind. intros E Hc.
  destruct (fail_items env batch e (errs c) w) as [[errors | e1] w1] eqn:F;
    [|discriminate].
  inversion E; subst. cbn. apply fail_items_length in F. lia.
Qed.

Lemma sync_batch_errors_counted env batch c w c' w' :
  sync_batch env batch c w = (Ok c', w') ->
  List.length (errs c) = failed c ->
  List.length (errs c') = failed c'.
Proof.
  unfold sync_batch. intros E Hc.
  destruct (processBatch env batch w) as [[response | e] w1].
  - destruct (tally_results env (processed_items response) c w1)
      as [[c1 [e|]] w2] eqn:T.
    + eapply catch_batch_errors_counted; [exact E|].
      eapply tally_results_errors_counted; [exact T | exact Hc].
    + inversion E; subst.
      eapply tally_results_errors_counted; [exact T | exact Hc].
  - eapply catch_batch_errors_counted; [exact E | exact Hc].
Qed.

Lemma sync_batches_errors_counted env batches :
  forall c w c' w',
    sync_batches env batches c w = (Ok c', w') ->
    List.length (errs c) = failed c ->
    List.length (errs c') = failed c'.
Proof.
  induction batches as [|batch rest IH]; intros c w c' w' E Hc;
    cbn [sync_batches] in E.
  - inversion E; subst. exact Hc.
  - unfold bind in E.
    destruct (sync_batch env batch c w) as [[c1 | e] w1] eqn:B;
      [|discriminate].
    eapply IH; [exact E|].
    eapply sync_batch_errors_counted; [exact B | exact Hc].
Qed.

Lemma sync_errors_counted env w result w' :
  sync env w = Some (Ok result, w') ->
  List.length (errors result) = failed_items result /\
  (success result = true <-> errors result = []).
Proof.
  intros E. unfold sync in E.
  destruct (db_query env (select_due (SYNC_RETRY_ATTEMPTS env)) w)
    as [[items | e] w1]; [|discriminate].
  destruct items as [|item items].
  - inversion E; subst. cbn. split; [reflexivity|]. split; reflexivity.
  - destruct (make_batches _ _ _ _) as [batches|]; [|discriminate].
    unfold bind in E.
    destruct (sync_batches env batches (mkTally 0 0 []) w1)
      as [[c | e] w2] eqn:B; [|discriminate].
    inversion E; subst. cbn.
    assert (Hc : List.length (errs c) = failed c)
      by (eapply sync_batches_errors_counted; [exact B | reflexivity]).
    split; [exact Hc|]. rewrite Nat.eqb_eq, <- Hc. split.
    + apply length_zero_iff_nil.
    + intros ->. reflexivity.
Qed.

(** X9: whenever sync returns a result, failed_items is the length of
    errors, and success is true exactly when errors is empty; this holds
    also when statements of the database were rejected on the way. *)
Theorem sync_result_counts_its_errors :
  forall env w result w',
    sync env w = Some (Ok result, w') ->
    List.length (errors result) = failed_items result /\
    (success result = true <-> errors result = []).
Proof.
  intros env w result w' E. now apply (sync_errors_counted env w result w').
Qed.

Lemma sync_result_counts_its_errors_witness :
  exists result w',
    sync (env_small_batches reject_all) world_three_items
    = Some (Ok result, w') /\
    List.length (errors result) = failed_items result /\
    failed_items result = 3.
Proof.
  destruct (sync (env_small_batches reject_all) world_three_items)
    as [[[result | e] w'] |] eqn:E.
  - exists result, w'. split; [reflexivity|].
    split.
    + exact (proj1 (sync_result_counts_its_errors
                      (env_small_batches reject_all) world_three_items
                      result w' E)).
    + vm_compute in E. inversion E. reflexivity.
  - vm_compute in E. discriminate E.
  - vm_compute in E. discriminate E.
Defined.

(** X10: when the database rejects the query for the due items, sync
    throws instead of returning a result: nothing is sent and nothing is
    written. *)
Theorem sync_throws_when_queue_unreadable :
  forall env w,
    db_fault env (w_dbcalls w) = true ->
    exists e w',
      sync env w = Some (Throw e, w') /\
      w_db w' = w_db w /\
      w_posts w' = w_posts w /\
      w_http w' = w_http w.
Proof.
  intros env w F. unfold sync, db_query. rewrite F.
  eexists. eexists. repeat split.
Qed.

Lemma sync_throws_when_queue_unreadable_witness :
  exists e w', sync (env_failing_at 0) world_t1 = Some (Throw e, w').
Proof.
  destruct (sync_throws_when_queue_unreadable (env_failing_at 0) world_t1
              eq_refl) as (e & w' & E & _).
  exists e, w'. exact E.
Defined.

(** X11: with a batch size of 0 and at least one due item, the loop that
    cuts the batches never ends, whatever the number of rounds allowed, and
    sync does not return. *)
Theorem sync_never_returns_with_batch_size_zero :
  forall env w,
    db_fault env (w_dbcalls w) = false ->
    SYNC_BATCH_SIZE env = 0 ->
    select_due (SYNC_RETRY_ATTEMPTS env) (w_db w) <> [] ->
    sync env w = None /\
    forall fuel,
      make_batches fuel 0 (select_due (SYNC_RETRY_ATTEMPTS env) (w_db w)) 0
      = None.
Proof.
  intros env w F HB Hdue.
  assert (Hlen : 0 < List.length
                       (select_due (SYNC_RETRY_ATTEMPTS env) (w_db w))).
  { destruct (select_due (SYNC_RETRY_ATTEMPTS env) (w_db w));
      [contradiction | cbn; lia]. }
  split.
  - unfold sync, db_query. rewrite F, HB.
    destruct (select_due (SYNC_RETRY_ATTEMPTS env) (w_db w))
      as [|item items] eqn:E; [contradiction|].
    rewrite make_batches_zero_diverges by exact Hlen. reflexivity.
  - intros fuel. now apply make_batches_zero_diverges.
Qed.

Lemma sync_never_returns_with_batch_size_zero_witness :
  sync (mkEnv 0 3 (fun _ => false) (fun n => Z.of_nat n) letter
              (fun _ => confirm_all) (fun _ _ => Reply task_remote_tie)
              (mkDefaults (fun _ => None) (fun n => Z.of_nat n)))
       world_t1 = None.
Proof.
  apply (sync_never_returns_with_batch_size_zero
           (mkEnv 0 3 (fun _ => false) (fun n => Z.of_nat n) letter
                  (fun _ => confirm_all) (fun _ _ => Reply task_remote_tie)
                  (mkDefaults (fun _ => None) (fun n => Z.of_nat n)))
           world_t1 eq_refl eq_refl).
  cbn. discriminate.
Defined.

(** X12: when every item left in the queue has reached the retry limit,
    sync contacts nobody, writes nothing and returns the zero result with
    success true, although the queue is not empty. *)
Theorem sync_with_only_exhausted_items :
  forall env w,
    db_fault env (w_dbcalls w) = false ->
    Forall (fun r => SYNC_RETRY_ATTEMPTS env <= q_retry_count r)
           (sync_queue (w_db w)) ->
    exists w',
      sync env w = Some (Ok (mkResult true 0 0 []), w') /\
      w_db w' = w_db w /\
      w_posts w' = w_posts w /\
      w_http w' = w_http w.
Proof.
  intros env w F Hall. unfold sync, db_query. rewrite F.
  assert (E : select_due (SYNC_RETRY_ATTEMPTS env) (w_db w) = []).
  { unfold select_due.
    assert (filter (fun r => q_retry_count r <? SYNC_RETRY_ATTEMPTS env)
                   (sync_queue (w_db w)) = []) as ->; [|reflexivity].
    induction Hall as [|r l Hr _ IH]; cbn [filter]; [reflexivity|].
    assert ((q_retry_count r <? SYNC_RETRY_ATTEMPTS env) = false) as ->
      by (apply Nat.ltb_ge; exact Hr).
    exact IH. }
  rewrite E. eexists. repeat split.
Qed.

Lemma sync_with_only_exhausted_items_witness :
  exists w',
    sync (env_with task_remote_tie unreachable)
         (mkWorld (mkDb [task_local]
                        [set_retry 3 "timeout" item_update_t1]) 0 0 0 0 [])
    = Some (Ok (mkResult true 0 0 []), w').
Proof.
  destruct (sync_with_only_exhausted_items
              (env_with task_remote_tie unreachable)
              (mkWorld (mkDb [task_local]
                             [set_retry 3 "timeout" item_update_t1])
                       0 0 0 0 [])
              eq_refl) as (w' & E & _).
  - constructor; [cbn; lia | constructor].
  - exists w'. exact E.
Defined.

(* ================================================================== *)
(** ** Conflicts, from the reply to the tables *)

Lemma mark_synced_db_server_id taskId sd now db :
  forall t, In t (tasks (mark_synced_db taskId sd now db)) ->
            t_id t = taskId ->
            t_server_id t = match sd with
                            | Some d => p_server_id d
                            | None => None
                            end.
Proof.
  intros t Hin Hid. rewrite mark_synced_db_tasks in Hin.
  unfold sql_mark_synced, map_task in Hin. cbn [tasks] in Hin.
  apply in_map_iff in Hin. destruct Hin as (t0 & <- & _).
  destruct (t_id t0 =? taskId)%string eqn:X; [reflexivity|].
  apply String.eqb_neq in X. contradiction.
Qed.

Lemma mark_synced_db_no_item taskId sd now db :
  forall r, In r (sync_queue (mark_synced_db taskId sd now db)) ->
            q_task_id r <> taskId.
Proof.
  intros r Hin. unfold mark_synced_db, sql_delete_queue_of_task in Hin.
  cbn [sync_queue] in Hin. apply filter_In in Hin. destruct Hin as [_ H].
  apply negb_true_iff in H. now apply String.eqb_neq.
Qed.

(** The loop of processBatch on one conflict that can be resolved: the
    result comes out as a success that carries the winner. *)
Lemma resolve_single_conflict env w result sid localTask serverTask :
  healthy env ->
  r_status result = Rs_conflict ->
  r_server_id result = Some sid ->
  sid <> "" ->
  client_id result <> "" ->
  select_task (client_id result) (w_db w) = Some localTask ->
  net_get env (w_http w) sid = Reply serverTask ->
  let winner :=
    if local_wins localTask serverTask then localTask else serverTask in
  exists w',
    resolve_conflicts env [result] w =
    (Ok [mkProcessed (client_id result) Rs_success
                     (Some (partial_of_task winner)) (r_server_id result)
                     (r_error result)], w').
Proof.
  intros Hh Hst Hsid Hne Hcid Hs Hg winner.
  cbn [resolve_conflicts]. unfold is_conflict, truthy. rewrite Hst, Hsid.
  apply String.eqb_neq in Hne, Hcid. rewrite Hne, Hcid.
  cbn [negb andb or_else]. unfold bind.
  rewrite (resolveConflict_unfold env w (client_id result) sid localTask
             serverTask (Hh _) Hs Hg).
  cbv zeta. subst winner.
  destruct (local_wins localTask serverTask).
  - match goal with
    | |- context [updateTask env ?i ?u ?w1] =>
        destruct (updateTask_healthy env i u w1 Hh) as (o & w2 & E)
    end.
    rewrite E. cbn [ret]. eexists. reflexivity.
  - unfold bind.
    match goal with
    | |- context [updateTask env ?i ?u ?w1] =>
        destruct (updateTask_healthy env i u w1 Hh) as (o & w2 & E)
    end.
    rewrite E. cbn [ret].
    match goal with
    | |- context [updateTask env ?i ?u w2] =>
        destruct (updateTask_healthy env i u w2 Hh) as (o' & w3 & E')
    end.
    rewrite E'. cbn [ret]. eexists. reflexivity.
Qed.

(** X13: a batch answered by one conflict that names a server id, for a
    task that is stored locally and that the peer returns on request, is
    counted as synced whichever side wins; afterwards the task is synced
    with the server id of the winner, and the queue holds no item of that
    task, not even the update item that the resolution itself appends. *)
Theorem resolved_conflict_counts_as_synced :
  forall env w batch c result sid stamp localTask serverTask,
    healthy env ->
    net_post env (w_http w)
             (mkRequest batch (Instant (clock env (w_clock w))))
    = Reply (mkResponse [result] stamp) ->
    r_status result = Rs_conflict ->
    r_server_id result = Some sid ->
    sid <> "" ->
    client_id result <> "" ->
    select_task (client_id result) (w_db w) = Some localTask ->
    net_get env (S (w_http w)) sid = Reply serverTask ->
    let winner :=
      if local_wins localTask serverTask then localTask else serverTask in
    exists w',
      sync_batch env batch c w
      = (Ok (mkTally (synced c + 1) (failed c) (errs c)), w') /\
      (forall r, In r (sync_queue (w_db w')) ->
                 q_task_id r <> client_id result) /\
      task_has_status St_synced (client_id result) (w_db w') /\
      (forall t, In t (tasks (w_db w')) -> t_id t = client_id result ->
                 t_server_id t = t_server_id winner).
Proof.
  intros env w batch c result sid stamp l r Hh Hpost Hst Hsid Hne Hcid Hs Hg
         winner.
  unfold sync_batch. rewrite processBatch_unfold. cbv zeta. rewrite Hpost.
  cbn [processed_items server_timestamp].
  match goal with
  | |- context [resolve_conflicts env [result] ?w1] =>
      destruct (resolve_single_conflict env w1 result sid l r Hh Hst Hsid Hne
                  Hcid Hs Hg) as (w2 & E)
  end.
  rewrite E. fold winner. cbn [processed_items tally_results r_status].
  destruct (updateSyncStatus_healthy env Hh (client_id result)
              (Some (partial_of_task winner)) w2) as (w3 & E3 & D3).
  cbn [client_id resolved_data]. rewrite E3. exists w3.
  split; [reflexivity|]. rewrite D3. split; [|split].
  - apply mark_synced_db_no_item.
  - apply mark_synced_db_set.
  - intros t Hin Hid.
    apply (mark_synced_db_server_id _ _ _ _ t Hin Hid).
Qed.

Lemma resolved_conflict_counts_as_synced_witness :
  exists w',
    sync_batch
      (env_with task_remote_later
         (fun _ => Reply (mkResponse
                            [mkProcessed "t1" Rs_conflict None (Some "s1") None]
                            (Instant 0))))
      [item_update_t1] (mkTally 0 0 []) world_t1
    = (Ok (mkTally 1 0 []), w') /\
    (forall r, In r (sync_queue (w_db w')) -> q_task_id r <> "t1").
Proof.
  destruct (resolved_conflict_counts_as_synced
              (env_with task_remote_later
                 (fun _ => Reply (mkResponse
                                    [mkProcessed "t1" Rs_conflict None
                                                 (Some "s1") None]
                                    (Instant 0))))
              world_t1 [item_update_t1] (mkTally 0 0 [])
              (mkProcessed "t1" Rs_conflict None (Some "s1") None) "s1"
              (Instant 0) task_local task_remote_later
              (fun _ => eq_refl) eq_refl eq_refl eq_refl)
    as (w' & E & Hq & _).
  - discriminate.
  - discriminate.
  - reflexivity.
  - reflexivity.
  - exists w'. split; [exact E | exact Hq].
Defined.

(** X14: a conflict that names no server id is not resolved: no task is
    fetched, nothing is written, not even a retry, and the result is
    counted as a failure and reported in errors as it came. *)
Theorem conflict_without_server_id_is_a_failure :
  forall env w batch c result stamp,
    net_post env (w_http w)
             (mkRequest batch (Instant (clock env (w_clock w))))
    = Reply (mkResponse [result] stamp) ->
    r_status result = Rs_conflict ->
    r_server_id result = None ->
    exists w',
      sync_batch env batch c w
      = (Ok (mkTally (synced c) (failed c + 1) (errs c ++ [ErrResult result])),
         w') /\
      w_db w' = w_db w /\
      w_dbcalls w' = w_dbcalls w /\
      w_http w' = S (w_http w).
Proof.
  intros env w batch c result stamp Hpost Hst Hsid.
  unfold sync_batch. rewrite processBatch_unfold. cbv zeta. rewrite Hpost.
  cbn [processed_items resolve_conflicts]. unfold is_conflict, truthy.
  rewrite Hst, Hsid. cbn [andb]. unfold bind, ret.
  cbn [processed_items tally_results]. rewrite Hst.
  eexists. repeat split.
Qed.

Lemma conflict_without_server_id_is_a_failure_witness :
  exists w',
    sync_batch
      (env_with task_remote_later
         (fun _ => Reply (mkResponse
                            [mkProcessed "t1" Rs_conflict None None None]
                            (Instant 0))))
      [item_update_t1] (mkTally 0 0 []) world_t1
    = (Ok (mkTally 0 1 [ErrResult (mkProcessed "t1" Rs_conflict None None
                                               None)]), w') /\
    w_db w' = w_db world_t1.
Proof.
  destruct (conflict_without_server_id_is_a_failure
              (env_with task_remote_later
                 (fun _ => Reply (mkResponse
                                    [mkProcessed "t1" Rs_conflict None None
                                                 None]
                                    (Instant 0))))
              world_t1 [item_update_t1] (mkTally 0 0 [])
              (mkProcessed "t1" Rs_conflict None None None) (Instant 0)
              eq_refl eq_refl eq_refl)
    as (w' & E & Hd & _).
  exists w'. split; [exact E | exact Hd].
Defined.

(* ================================================================== *)
(** ** The routes *)

(** X15: the answers of POST /sync.  When the health probe fails the
    answer is 503 'Server unavailable' and sync is not run: no call of the
    database, nothing sent, nothing written.  When the probe succeeds and
    the database rejects the query for the due items the answer is 500
    'Sync process failed'.  When the probe succeeds, the database does not
    fail and the batch size is positive, the answer is 200 with the result
    of sync, whatever its success flag. *)
Theorem post_sync_answers :
  forall health env url w,
    (health (w_http w) = false ->
     exists w',
       route_post_sync health env url w =
         Some (mkHttp 503 (ErrorBody "Server unavailable"
                                     (clock env (w_clock w)) url), w') /\
       w_db w' = w_db w /\
       w_dbcalls w' = w_dbcalls w /\
       w_posts w' = w_posts w) /\
    (health (w_http w) = true ->
     db_fault env (w_dbcalls w) = true ->
     exists w',
       route_post_sync health env url w =
         Some (mkHttp 500 (ErrorBody "Sync process failed"
                                     (clock env (w_clock w)) url), w') /\
       w_db w' = w_db w /\
       w_posts w' = w_posts w) /\
    (health (w_http w) = true ->
     healthy env ->
     0 < SYNC_BATCH_SIZE env ->
     exists result w',
       route_post_sync health env url w
       = Some (mkHttp 200 (SyncBody result), w') /\
       List.length (errors result) = failed_items result).
Proof.
  intros health env url w. split; [|split].
  - intros Hoff. unfold route_post_sync, checkConnectivity. rewrite Hoff.
    cbn. eexists. repeat split.
  - intros Hon F. unfold route_post_sync, checkConnectivity. rewrite Hon.
    cbn [negb]. unfold sync, db_query. cbn [w_dbcalls]. rewrite F.
    cbn. eexists. repeat split.
  - intros Hon Hh HB. unfold route_post_sync, checkConnectivity. rewrite Hon.
    cbn [negb].
    match goal with
    | |- context [sync env ?w1] =>
        destruct (sync_healthy_requests env w1 Hh HB)
          as (result & w' & requests & Es & _);
        pose proof (sync_errors_counted env w1 result w' Es) as [Hc _]
    end.
    rewrite Es. exists result, w'. split; [reflexivity | exact Hc].
Qed.

Lemma post_sync_answers_witness :
  (exists w',
      route_post_sync (fun _ => false)
                      (env_with task_remote_tie confirm_all) "/api/sync"
                      world_t1
      = Some (mkHttp 503 (ErrorBody "Server unavailable" 5000 "/api/sync"),
              w')) /\
  (exists w',
      route_post_sync (fun _ => true) (env_failing_at 0) "/api/sync" world_t1
      = Some (mkHttp 500 (ErrorBody "Sync process failed" 5000 "/api/sync"),
              w')) /\
  (exists result w',
      route_post_sync (fun _ => true)
                      (env_with task_remote_tie confirm_all) "/api/sync"
                      world_t1
      = Some (mkHttp 200 (SyncBody result), w')).
Proof.
  split; [|split].
  - destruct (proj1 (post_sync_answers (fun _ => false)
                       (env_with task_remote_tie confirm_all) "/api/sync"
                       world_t1) eq_refl) as (w' & E & _).
    exists w'. exact E.
  - destruct (proj1 (proj2 (post_sync_answers (fun _ => true)
                              (env_failing_at 0) "/api/sync" world_t1))
                eq_refl eq_refl) as (w' & E & _).
    exists w'. exact E.
  - destruct (proj2 (proj2 (post_sync_answers (fun _ => true)
                              (env_with task_remote_tie confirm_all)
                              "/api/sync" world_t1))
                eq_refl (fun _ => eq_refl)) as (result & w' & E & _).
    + cbn. lia.
    + exists result, w'. exact E.
Defined.

(** X16: GET /status reports as pending_sync_count, and again as
    sync_queue_size, the number of rows of the queue, the items that have
    reached the retry limit included; is_online is the outcome of the
    probe; nothing is written.  When the database rejects one of its two
    queries the answer is 500 'Failed to get sync status'. *)
Theorem get_status_answers :
  forall health env max_last_synced url w,
    (db_fault env (w_dbcalls w) = false ->
     db_fault env (S (w_dbcalls w)) = false ->
     exists w',
       route_get_status health env max_last_synced url w =
         (mkHttp 200
            (StatusBody (List.length (sync_queue (w_db w)))
                        (max_last_synced (w_db w)) (health (w_http w))
                        (List.length (sync_queue (w_db w)))), w') /\
       w_db w' = w_db w /\
       w_posts w' = w_posts w) /\
    (db_fault env (w_dbcalls w) = true \/
     db_fault env (S (w_dbcalls w)) = true ->
     exists w',
       route_get_status health env max_last_synced url w =
         (mkHttp 500 (ErrorBody "Failed to get sync status"
                                (clock env (w_clock w)) url), w') /\
       w_db w' = w_db w /\
       w_http w' = w_http w).
Proof.
  intros health env mx url w. split.
  - intros F0 F1.
    unfold route_get_status, bind, db_query, checkConnectivity, ret, send_json.
    rewrite F0. cbn. rewrite F1. cbn. eexists. repeat split.
  - intros HF.
    unfold route_get_status, bind, db_query, checkConnectivity, ret, send_json.
    destruct (db_fault env (w_dbcalls w)) eqn:F0.
    + cbn. eexists. repeat split.
    + destruct HF as [HF | HF]; [discriminate|].
      cbn. rewrite HF. cbn. eexists. repeat split.
Qed.

Lemma get_status_answers_witness :
  exists w',
    route_get_status (fun _ => true) (env_with task_remote_tie unreachable)
                     (fun _ => None) "/api/status"
                     (mkWorld (mkDb [task_local]
                                    [set_retry 3 "timeout" item_update_t1])
                              0 0 0 0 [])
    = (mkHttp 200 (StatusBody 1 None true 1), w').
Proof.
  destruct (proj1 (get_status_answers (fun _ => true)
                     (env_with task_remote_tie unreachable) (fun _ => None)
                     "/api/status"
                     (mkWorld (mkDb [task_local]
                                    [set_retry 3 "timeout" item_update_t1])
                              0 0 0 0 []))
              eq_refl eq_refl) as (w' & E & _).
  exists w'. exact E.
Defined.

Lemma batch_result_answers env item w :
  exists p w', batch_result env item w = (Ok p, w') /\ batch_answer item p.
Proof.
  unfold batch_result, batch_answer, known_operation.
  destruct (wi_operation item =? "create")%string eqn:C.
  - apply String.eqb_eq in C. eexists. eexists. split; [reflexivity|].
    cbn. rewrite C. cbn.
    repeat split; try discriminate. eexists. split; reflexivity.
  - destruct (wi_operation item =? "update")%string eqn:U.
    + apply String.eqb_neq in C. eexists. eexists. split; [reflexivity|].
      cbn. repeat split; try discriminate. intros X. contradiction.
    + destruct (wi_operation item =? "delete")%string eqn:D.
      * apply String.eqb_neq in C. eexists. eexists. split; [reflexivity|].
        cbn. repeat split; try discriminate. intros X. contradiction.
      * apply String.eqb_neq in C. eexists. eexists. split; [reflexivity|].
        cbn. repeat split; try discriminate. intros X. contradiction.
Qed.

Lemma batch_result_keeps_db env item w p w' :
  batch_result env item w = (Ok p, w') -> w_db w' = w_db w.
Proof.
  unfold batch_result. intros B.
  repeat match type of B with
         | (if ?c then _ else _) _ = _ => destruct c
         end;
    inversion B; reflexivity.
Qed.

(** A round on an object is the switch: its catch block is not entered. *)
Lemma batch_round_object env item w :
  exists p w',
    batch_round env (Some item) w = (Ok p, w') /\
    batch_answer item p /\
    w_db w' = w_db w.
Proof.
  destruct (batch_result_answers env item w) as (p & w' & E & A).
  exists p, w'. unfold batch_round, try_catch. rewrite E.
  split; [reflexivity|]. split; [exact A|].
  now apply (batch_result_keeps_db env item w p w').
Qed.

Lemma batch_results_answer env objects :
  forall w,
  exists results w',
    batch_results env (map Some objects) w = (Ok results, w') /\
    Forall2 batch_answer objects results /\
    w_db w' = w_db w.
Proof.
  induction objects as [|item rest IH]; intros w; cbn [map batch_results].
  - exists [], w. split; [reflexivity|]. split; [constructor | reflexivity].
  - destruct (batch_round_object env item w) as (p & w1 & E1 & A1 & D1).
    unfold bind at 1. rewrite E1.
    destruct (IH w1) as (results & w2 & E2 & A2 & D2).
    unfold bind. rewrite E2. cbn [ret]. exists (p :: results), w2.
    split; [reflexivity|]. split; [now constructor | congruence].
Qed.

(** A [null] among the elements: the loop throws at it, whatever comes
    before and after. *)
Lemma batch_results_null env elements :
  In None elements ->
  forall w,
  exists e w',
    batch_results env elements w = (Throw e, w') /\
    w_db w' = w_db w.
Proof.
  induction elements as [|x rest IH]; intros Hin w; [destruct Hin|].
  cbn [batch_results]. destruct x as [item|].
  - destruct Hin as [Hx | Hin]; [discriminate|].
    destruct (batch_round_object env item w) as (p & w1 & E1 & _ & D1).
    unfold bind at 1. rewrite E1.
    destruct (IH Hin w1) as (e & w2 & E2 & D2).
    unfold bind. rewrite E2. exists e, w2.
    split; [reflexivity | congruence].
  - unfold bind, batch_round, try_catch, throw.
    eexists. eexists. split; reflexivity.
Qed.

(** The handler on an array of objects: always a 200, with one answer per
    item. *)
Lemma route_post_batch_run env url objects w :
  exists results stamp w',
    route_post_batch env url (Some (map Some objects)) w =
      (mkHttp 200 (BatchBody (mkResponse results stamp)), w') /\
    Forall2 batch_answer objects results /\
    w_db w' = w_db w.
Proof.
  destruct (batch_results_answer env objects w)
    as (results & w1 & E & A & Hdb).
  exists results, (Instant (clock env (w_clock w1))).
  eexists. split; [|split; [exact A|]].
  - unfold route_post_batch, bind, new_Date, ret, send_json.
    rewrite E. reflexivity.
  - exact Hdb.
Qed.

(** X17: the answers of POST /batch, for a body whose items, when it has
    an array of them, are null or objects with a string task_id and a
    string operation.  Without an array the answer is 400 'Invalid batch
    format'.  With an array of objects the answer is 200 and carries one
    result per item, in the order of the items, under the task id of the
    item: a success for create, update and delete (with the task id as
    server id for a create), an error 'Unknown operation: ..' for any
    other operation, never a conflict.  With a null among the items the
    answer is 500 'Batch sync failed' and carries no result.  Nothing is
    written in any case. *)
Theorem post_batch_answers :
  forall env url w,
    fst (route_post_batch env url None w) =
      mkHttp 400 (ErrorBody "Invalid batch format" (clock env (w_clock w)) url)
    /\
    (forall objects,
     exists results stamp,
       fst (route_post_batch env url (Some (map Some objects)) w) =
         mkHttp 200 (BatchBody (mkResponse results stamp)) /\
       Forall2 batch_answer objects results /\
       w_db (snd (route_post_batch env url (Some (map Some objects)) w))
       = w_db w) /\
    (forall elements,
        In None elements ->
        exists stamp,
          fst (route_post_batch env url (Some elements) w) =
            mkHttp 500 (ErrorBody "Batch sync failed" stamp url) /\
          w_db (snd (route_post_batch env url (Some elements) w)) = w_db w).
Proof.
  intros env url w. split; [reflexivity|]. split.
  - intros objects.
    destruct (route_post_batch_run env url objects w)
      as (results & stamp & w' & R & A & Hdb).
    exists results, stamp. rewrite R. cbn [fst snd].
    split; [reflexivity|]. split; [exact A | exact Hdb].
  - intros elements Hnull.
    destruct (batch_results_null env elements Hnull w) as (e & w' & E & Hdb).
    exists (clock env (w_clock w')).
    unfold route_post_batch, bind. rewrite E.
    unfold sendErrorResponse. cbn [fst snd w_db].
    split; [reflexivity | exact Hdb].
Qed.

Lemma post_batch_answers_witness :
  exists stamp,
    fst (route_post_batch (env_with task_remote_tie unreachable) "/api/batch"
           (Some [Some (mkWire "t1" "create" (mkPartial None None None None));
                  None])
           empty_world)
    = mkHttp 500 (ErrorBody "Batch sync failed" stamp "/api/batch").
Proof.
  destruct (proj2 (proj2 (post_batch_answers
                            (env_with task_remote_tie unreachable)
                            "/api/batch" empty_world))
              [Some (mkWire "t1" "create" (mkPartial None None None None));
               None]
              (or_intror (or_introl eq_refl)))
    as (stamp & E & _).
  exists stamp. exact E.
Defined.

Lemma known_operation_name op : known_operation (operation_name op) = true.
Proof. destruct op; reflexivity. Qed.

(** The router's own batch endpoint, as the peer of a client, confirms
    every item under its task id and reports no conflict. *)
Lemma own_batch_endpoint_confirms server encode server_world n req :
  exists resp,
    own_batch_endpoint server encode server_world n req = Reply resp /\
    map client_id (processed_items resp) = map q_task_id (req_items req) /\
    Forall (fun p => r_status p = Rs_success) (processed_items resp).
Proof.
  unfold own_batch_endpoint.
  destruct (route_post_batch_run server "/api/batch"
              (map (wire_of_item encode) (req_items req)) (server_world n))
    as (results & stamp & w' & R & A & _).
  rewrite R. cbn [fst http_body http_status Nat.eqb].
  exists (mkResponse results stamp). split; [reflexivity|].
  cbn [processed_items]. clear R.
  remember (req_items req) as items eqn:Hi. clear Hi.
  revert results A. induction items as [|it items IH]; intros results A;
    inversion A as [|x p xs ps Hp Hrest]; subst; cbn [map].
  - split; [reflexivity | constructor].
  - destruct (IH ps Hrest) as [Hids Hall].
    destruct Hp as (Hc & _ & _ & Hk & _).
    cbn [wire_of_item wi_task_id wi_operation] in Hc, Hk.
    destruct (Hk (known_operation_name (q_operation it))) as [Hs _].
    split; [now rewrite Hc, Hids | now constructor].
Qed.

(** X18: a client whose peer is the router's own POST /batch (the database
    not failing, batch size and retry limit positive): one run of sync on n
    tasks that each wait with a never-retried item confirms all n items,
    empties the queue and leaves every task synced. *)
Theorem sync_against_own_batch_endpoint :
  forall env server encode server_world w n,
    healthy env ->
    net_post env = own_batch_endpoint server encode server_world ->
    0 < SYNC_BATCH_SIZE env ->
    0 < SYNC_RETRY_ATTEMPTS env ->
    backlog n (w_db w) ->
    exists w',
      sync env w = Some (Ok (mkResult true n 0 []), w') /\
      sync_queue (w_db w') = [] /\
      List.length (tasks (w_db w')) = n /\
      Forall (fun t => t_sync_status t = St_synced) (tasks (w_db w')).
Proof.
  intros env server encode sw w n Hh Hnet HB HL Hb.
  apply (sync_confirm_backlog env Hh); try assumption.
  intros k req. rewrite Hnet. apply own_batch_endpoint_confirms.
Qed.

Lemma sync_against_own_batch_endpoint_witness :
  exists w',
    sync (env_own_server 2 3) world_t1
    = Some (Ok (mkResult true 1 0 []), w') /\
    sync_queue (w_db w') = [].
Proof.
  destruct (sync_against_own_batch_endpoint
              (env_own_server 2 3) (env_with task_remote_tie unreachable)
              partial_of_task (fun _ => empty_world) world_t1 1
              (fun _ => eq_refl) eq_refl (le_S 1 1 (le_n 1))
              (le_S 1 2 (le_S 1 1 (le_n 1))))
    as (w' & E & Hq & _).
  - split; [reflexivity|]. split; [reflexivity|]. split.
    + repeat constructor.
    + intros t [<- | []]. exists item_update_t1.
      split; [left; reflexivity | reflexivity].
  - exists w'. split; [exact E | exact Hq].
Defined.

(* ================================================================== *)
(** ** When resolving or recording fails *)

(** X19: a soft-deleted local task is never written by the resolver: when
    it has the later (or the same) updated_at it is returned as it is, and
    when the remote task is later the remote task is returned and the
    local row stays deleted and unchanged. *)
Theorem resolveConflict_leaves_deleted_task :
  forall env w clientId serverId localTask serverTask,
    healthy env ->
    select_task clientId (w_db w) = Some localTask ->
    t_is_deleted localTask = true ->
    net_get env (w_http w) serverId = Reply serverTask ->
    fst (resolveConflict env clientId serverId w) =
      Ok (if local_wins localTask serverTask then localTask else serverTask) /\
    w_db (snd (resolveConflict env clientId serverId w)) = w_db w.
Proof.
  intros env w cid sid l r Hh Hs Hd Hg.
  rewrite (resolveConflict_unfold env w cid sid l r (Hh _) Hs Hg).
  cbv zeta. destruct (local_wins l r); [split; reflexivity|].
  pose proof (select_task_id _ _ _ Hs) as Hid.
  unfold updateTask, try_catch, bind, db_query. cbn [w_dbcalls w_db].
  rewrite Hh, Hid, Hs, Hd. split; reflexivity.
Qed.

Lemma resolveConflict_leaves_deleted_task_witness :
  w_db (snd (resolveConflict
               (env_with task_remote_later unreachable) "t1" "s1"
               (mkWorld (mkDb [task_remote_tie] []) 0 0 0 0 [])))
  = mkDb [task_remote_tie] [].
Proof.
  exact (proj2 (resolveConflict_leaves_deleted_task
                  (env_with task_remote_later unreachable)
                  (mkWorld (mkDb [task_remote_tie] []) 0 0 0 0 []) "t1" "s1"
                  task_remote_tie task_remote_later (fun _ => eq_refl)
                  eq_refl eq_refl eq_refl)).
Defined.

Lemma resolve_conflicts_after_successes env confirmed rest :
  Forall (fun p => r_status p = Rs_success) confirmed ->
  forall w e w',
    resolve_conflicts env rest w = (Throw e, w') ->
    resolve_conflicts env (confirmed ++ rest) w = (Throw e, w').
Proof.
  induction 1 as [|p ps Hp _ IH]; intros w e w' E; cbn [app].
  - exact E.
  - cbn [resolve_conflicts]. unfold is_conflict. rewrite Hp. cbn [andb].
    unfold bind at 1. cbn [ret]. unfold bind. rewrite (IH w e w' E).
    reflexivity.
Qed.

(** The resolver fails, and writes nothing, when the peer does not return
    the task or when no local row has the client id. *)
Lemma resolveConflict_fails env w clientId serverId e :
  db_fault env (w_dbcalls w) = false ->
  net_get env (w_http w) serverId = NetError e \/
  (select_task clientId (w_db w) = None /\
   exists t, net_get env (w_http w) serverId = Reply t) ->
  exists e' w',
    resolveConflict env clientId serverId w = (Throw e', w') /\
    w_db w' = w_db w.
Proof.
  intros F [Hg | (Hs & t & Hg)];
    unfold resolveConflict, bind, db_query, axios_get;
    rewrite F; cbn; rewrite Hg; cbn.
  - eexists. eexists. split; reflexivity.
  - rewrite Hs. eexists. eexists. split; reflexivity.
Qed.

(** X20: when a conflict of the reply cannot be resolved (the peer does
    not return the task, or no local row has the client id), the whole
    batch is failed, the items that the same reply confirmed included: no
    task is marked synced, no item leaves the queue, and every item of the
    batch goes through handleSyncError. *)
Theorem unresolvable_conflict_fails_whole_batch :
  forall env w batch c confirmed conflict rest sid stamp e,
    healthy env ->
    net_post env (w_http w)
             (mkRequest batch (Instant (clock env (w_clock w))))
    = Reply (mkResponse (confirmed ++ conflict :: rest) stamp) ->
    Forall (fun p => r_status p = Rs_success) confirmed ->
    r_status conflict = Rs_conflict ->
    r_server_id conflict = Some sid ->
    sid <> "" ->
    client_id conflict <> "" ->
    net_get env (S (w_http w)) sid = NetError e \/
    (select_task (client_id conflict) (w_db w) = None /\
     exists t, net_get env (S (w_http w)) sid = Reply t) ->
    exists e' w',
      sync_batch env batch c w =
        (Ok (mkTally (synced c) (failed c + List.length batch)
                     (errs c ++
                      map (fun it => ErrItem (q_task_id it) (q_operation it) e')
                          batch)),
         w') /\
      w_db w' = fail_all_db env (map (fun it => (it, e')) batch) (w_db w) /\
      List.length (sync_queue (w_db w')) = List.length (sync_queue (w_db w)).
Proof.
  intros env w batch c confirmed conflict rest sid stamp e Hh Hpost Hok Hst
         Hsid Hne Hcid Hfail.
  unfold sync_batch. rewrite processBatch_unfold. cbv zeta. rewrite Hpost.
  cbn [processed_items].
  match goal with
  | |- context [resolve_conflicts env _ ?w1] =>
      destruct (resolveConflict_fails env w1 (client_id conflict) sid e
                  (Hh _) Hfail) as (e' & w2 & Er & Hd2);
      assert (E : resolve_conflicts env (confirmed ++ conflict :: rest) w1
                  = (Throw e', w2))
  end.
  { apply resolve_conflicts_after_successes; [exact Hok|].
    cbn [resolve_conflicts]. unfold is_conflict, truthy.
    rewrite Hst, Hsid. apply String.eqb_neq in Hne, Hcid.
    rewrite Hne, Hcid. cbn [negb andb or_else]. unfold bind.
    rewrite Er. reflexivity. }
  rewrite E.
  destruct (catch_batch_healthy env Hh batch e' c w2) as (w3 & Ec & Hd3).
  rewrite Ec. exists e', w3. split; [reflexivity|].
  rewrite Hd3, Hd2. cbn [w_db]. split; [reflexivity|].
  rewrite fail_all_db_queue. apply length_map.
Qed.

Lemma unresolvable_conflict_fails_whole_batch_witness :
  exists e' w',
    sync_batch
      (mkEnv 50 3 (fun _ => false) (fun n => Z.of_nat n) letter
             (fun _ _ =>
                Reply (mkResponse
                         [mkProcessed "t0" Rs_success None None None;
                          mkProcessed "t1" Rs_conflict None (Some "s1") None]
                         (Instant 0)))
             (fun _ _ => NetError "Network Error")
             (mkDefaults (fun _ => None) (fun n => Z.of_nat n)))
      [item_create_t1; item_update_t1] (mkTally 0 0 []) world_two_items_t1
    = (Ok (mkTally 0 2 [ErrItem "t1" Op_create e'; ErrItem "t1" Op_update e']),
       w').
Proof.
  destruct (unresolvable_conflict_fails_whole_batch
              (mkEnv 50 3 (fun _ => false) (fun n => Z.of_nat n) letter
                 (fun _ _ =>
                    Reply (mkResponse
                             [mkProcessed "t0" Rs_success None None None;
                              mkProcessed "t1" Rs_conflict None (Some "s1")
                                          None]
                             (Instant 0)))
                 (fun _ _ => NetError "Network Error")
                 (mkDefaults (fun _ => None) (fun n => Z.of_nat n)))
              world_two_items_t1 [item_create_t1; item_update_t1]
              (mkTally 0 0 [])
              [mkProcessed "t0" Rs_success None None None]
              (mkProcessed "t1" Rs_conflict None (Some "s1") None) [] "s1"
              (Instant 0) "Network Error" (fun _ => eq_refl) eq_refl)
    as (e' & w' & E & _).
  - repeat constructor.
  - reflexivity.
  - reflexivity.
  - discriminate.
  - discriminate.
  - left. reflexivity.
  - exists e', w'. exact E.
Defined.

(** X21: when the database rejects the first statement of handleSyncError
    in the catch block, the exception leaves the loop over the batches:
    the batches that follow are not sent and sync throws instead of
    returning a result. *)
Theorem sync_aborts_when_failure_cannot_be_recorded :
  forall env w item items rest c e,
    net_post env (w_http w)
             (mkRequest (item :: items) (Instant (clock env (w_clock w))))
    = NetError e ->
    db_fault env (w_dbcalls w) = true ->
    exists e' w',
      sync_batches env ((item :: items) :: rest) c w = (Throw e', w') /\
      w_db w' = w_db w /\
      w_posts w' =
        w_posts w ++
        [mkRequest (item :: items) (Instant (clock env (w_clock w)))].
Proof.
  intros env w item items rest c e Hnet F.
  cbn [sync_batches]. unfold bind at 1, sync_batch.
  rewrite processBatch_unfold. cbv zeta. rewrite Hnet.
  unfold catch_batch. cbn [fail_items]. unfold handleSyncError.
  destruct (SYNC_RETRY_ATTEMPTS env <=? q_retry_count item + 1);
    unfold bind, db_run, ret; cbn [w_dbcalls w_db]; rewrite F;
    eexists; eexists; repeat split.
Qed.

Lemma sync_aborts_when_failure_cannot_be_recorded_witness :
  exists e' w',
    sync_batches (env_failing_at 0) [[item_n 0; item_n 1]; [item_n 2]]
                 (mkTally 0 0 []) world_three_items
    = (Throw e', w') /\
    List.length (w_posts w') = 1.
Proof.
  destruct (sync_aborts_when_failure_cannot_be_recorded
              (env_failing_at 0) world_three_items (item_n 0) [item_n 1]
              [[item_n 2]] (mkTally 0 0 []) "timeout of 8000ms exceeded"
              eq_refl eq_refl) as (e' & w' & E & _ & Hp).
  exists e', w'. split; [exact E|]. rewrite Hp. reflexivity.
Defined.

Lemma sync_batches_all_fail_counts env :
  healthy env ->
  all_posts_fail env ->
  forall batches c w,
  exists c' w' log,
    sync_batches env batches c w = (Ok c', w') /\
    synced c' = synced c /\
    failed c' = failed c + List.length (concat batches) /\
    w_db w' = fail_all_db env log (w_db w).
Proof.
  intros Hh Hfail. induction batches as [|batch rest IH]; intros c w;
    cbn [sync_batches].
  - exists c, w, []. cbn. repeat split. lia.
  - destruct (Hfail (w_http w)
                (mkRequest batch (Instant (clock env (w_clock w)))))
      as (e & He).
    destruct (sync_batch_on_net_error env batch c w e Hh He)
      as (w1 & E1 & D1).
    unfold bind. rewrite E1.
    match goal with
    | |- context [sync_batches env rest ?c1 w1] =>
        destruct (IH c1 w1) as (c2 & w2 & log & E2 & S2 & F2 & D2)
    end.
    exists c2, w2, (map (fun it => (it, e)) batch ++ log).
    split; [exact E2|]. cbn in S2, F2. split; [exact S2|]. split.
    + cbn [concat]. rewrite length_app. lia.
    + rewrite fail_all_db_app, <- D1. exact D2.
Qed.

Lemma fail_all_db_task_ids env log :
  forall db, map t_id (tasks (fail_all_db env log db)) = map t_id (tasks db).
Proof.
  unfold fail_all_db. induction log as [|p log IH]; intros db;
    cbn [fold_left].
  - reflexivity.
  - rewrite IH. unfold handleSyncError_db.
    destruct (SYNC_RETRY_ATTEMPTS env <=? q_retry_count (fst p) + 1);
      [|reflexivity].
    cbn [tasks sql_set_retry sql_mark_error map_task]. rewrite map_map.
    apply map_ext. intros t.
    destruct (t_id t =? q_task_id (fst p))%string; reflexivity.
Qed.

(** X22: a run of sync against a peer that fails every request (the
    database not failing, the batch size positive) reports every due item
    as failed and none as synced, and succeeds only if nothing was due; it
    removes no item from the queue and no task from the table, and changes
    neither the order nor the ids and task ids of the items. *)
Theorem sync_against_unreachable_peer :
  forall env w,
    healthy env ->
    all_posts_fail env ->
    0 < SYNC_BATCH_SIZE env ->
    let Q := List.length (select_due (SYNC_RETRY_ATTEMPTS env) (w_db w)) in
    exists result w',
      sync env w = Some (Ok result, w') /\
      synced_items result = 0 /\
      failed_items result = Q /\
      (success result = true <-> Q = 0) /\
      map q_id (sync_queue (w_db w')) = map q_id (sync_queue (w_db w)) /\
      map q_task_id (sync_queue (w_db w'))
      = map q_task_id (sync_queue (w_db w)) /\
      map t_id (tasks (w_db w')) = map t_id (tasks (w_db w)).
Proof.
  intros env w Hh Hfail HB Q. subst Q. unfold sync, db_query. rewrite Hh.
  destruct (select_due (SYNC_RETRY_ATTEMPTS env) (w_db w))
    as [|item items] eqn:Edue.
  - eexists. eexists. split; [reflexivity|]. cbn. repeat split.
  - rewrite <- Edue.
    destruct (make_batches_spec (SYNC_BATCH_SIZE env)
                (select_due (SYNC_RETRY_ATTEMPTS env) (w_db w)) HB
                (List.length (select_due (SYNC_RETRY_ATTEMPTS env) (w_db w))) 0)
      as (bs & E & Hcat & _); [lia|].
    rewrite E. unfold bind. cbn [skipn] in Hcat.
    match goal with
    | |- context [sync_batches env bs ?c ?w1] =>
        destruct (sync_batches_all_fail_counts env Hh Hfail bs c w1)
          as (c' & w' & log & Es & Hs & Hf & Hd)
    end.
    rewrite Es. cbn [ret]. eexists. exists w'. split; [reflexivity|].
    cbn [synced_items failed_items success w_db] in *.
    cbn [synced failed] in Hs, Hf. rewrite Hcat in Hf.
    split; [exact Hs|]. split; [exact Hf|]. split.
    { rewrite Nat.eqb_eq, Hf. reflexivity. }
    rewrite Hd, fail_all_db_queue, fail_all_db_task_ids, !map_map.
    split; [|split; [|reflexivity]].
    + apply map_ext. intros r. apply bump_row_id.
    + apply map_ext. intros r. apply bump_row_task_id.
Qed.

Lemma sync_against_unreachable_peer_witness :
  exists result w',
    sync (env_small_batches unreachable) world_three_items
    = Some (Ok result, w') /\
    synced_items result = 0 /\
    failed_items result = 3.
Proof.
  destruct (sync_against_unreachable_peer
              (env_small_batches unreachable) world_three_items
              (fun _ => eq_refl)
              (fun _ _ => ex_intro _ "timeout of 8000ms exceeded" eq_refl)
              (le_S 1 1 (le_n 1)))
    as (result & w' & E & Hs & Hf & _).
  exists result, w'. split; [exact E|]. split; [exact Hs | exact Hf].
Defined.

(* ================================================================== *)
(** ** Replies that mix confirmations and rejections *)

Lemma resolve_conflicts_none env results :
  Forall (fun p => r_status p <> Rs_conflict) results ->
  forall w, resolve_conflicts env results w = (Ok results, w).
Proof.
  induction 1 as [|r rest Hr _ IH]; intros w; cbn [resolve_conflicts].
  - reflexivity.
  - unfold is_conflict.
    destruct (r_status r); try contradiction; cbn [andb]; unfold bind;
      cbn [ret]; rewrite IH; reflexivity.
Qed.

(** With a database that does not fail, the loop over the results only
    removes rows from the queue, and removes those of every confirmed
    task. *)
Lemma tally_results_queue env results :
  healthy env ->
  forall c w,
  exists c' w',
    tally_results env results c w = ((c', None), w') /\
    (forall r, In r (sync_queue (w_db w')) -> In r (sync_queue (w_db w))) /\
    (forall p r, In p results -> r_status p = Rs_success ->
                 In r (sync_queue (w_db w')) -> q_task_id r <> client_id p).
Proof.
  intros Hh. induction results as [|p0 rest IH]; intros c w;
    cbn [tally_results].
  - exists c, w. split; [reflexivity|]. split; [auto|]. intros p r [].
  - destruct (r_status p0) eqn:St.
    + destruct (updateSyncStatus_healthy env Hh (client_id p0)
                  (resolved_data p0) w) as (w1 & E1 & D1).
      rewrite E1.
      destruct (IH (mkTally (synced c + 1) (failed c) (errs c)) w1)
        as (c' & w' & E & Hsub & Hgone).
      exists c', w'. split; [exact E|].
      assert (Hsub1 : forall r, In r (sync_queue (w_db w1)) ->
                                In r (sync_queue (w_db w)) /\
                                q_task_id r <> client_id p0).
      { intros r Hr. rewrite D1 in Hr. split.
        - unfold mark_synced_db, sql_delete_queue_of_task in Hr.
          cbn [sync_queue] in Hr. apply filter_In in Hr. apply Hr.
        - eapply mark_synced_db_no_item. exact Hr. }
      split.
      * intros r Hr. apply Hsub1. now apply Hsub.
      * intros p r [<- | Hin] Hs Hr.
        -- apply Hsub1. now apply Hsub.
        -- now apply (Hgone p r).
    + destruct (IH (mkTally (synced c) (failed c + 1)
                            (errs c ++ [ErrResult p0])) w)
        as (c' & w' & E & Hsub & Hgone).
      exists c', w'. split; [exact E|]. split; [exact Hsub|].
      intros p r [<- | Hin] Hs Hr; [congruence | now apply (Hgone p r)].
    + destruct (IH (mkTally (synced c) (failed c + 1)
                            (errs c ++ [ErrResult p0])) w)
        as (c' & w' & E & Hsub & Hgone).
      exists c', w'. split; [exact E|]. split; [exact Hsub|].
      intros p r [<- | Hin] Hs Hr; [congruence | now apply (Hgone p r)].
Qed.

(** X23: in a reply without conflicts (the database not failing), a
    confirmation for a task removes every item of that task from the
    queue, the items that the same reply rejected included; the rows that
    stay in the queue are unchanged: no rejection is recorded as a retry. *)
Theorem confirmation_drops_rejected_items_of_task :
  forall env w batch c results stamp p,
    healthy env ->
    net_post env (w_http w)
             (mkRequest batch (Instant (clock env (w_clock w))))
    = Reply (mkResponse results stamp) ->
    Forall (fun q => r_status q <> Rs_conflict) results ->
    In p results ->
    r_status p = Rs_success ->
    exists c' w',
      sync_batch env batch c w = (Ok c', w') /\
      (forall r, In r (sync_queue (w_db w')) ->
                 q_task_id r <> client_id p) /\
      (forall r, In r (sync_queue (w_db w')) ->
                 In r (sync_queue (w_db w))).
Proof.
  intros env w batch c results stamp p Hh Hpost Hnc Hin Hs.
  unfold sync_batch. rewrite processBatch_unfold. cbv zeta. rewrite Hpost.
  cbn [processed_items]. rewrite (resolve_conflicts_none env results Hnc).
  cbn [processed_items].
  match goal with
  | |- context [tally_results env results c ?w1] =>
      destruct (tally_results_queue env results Hh c w1)
        as (c' & w' & E & Hsub & Hgone)
  end.
  rewrite E. exists c', w'. split; [reflexivity|]. split.
  - intros r Hr. now apply (Hgone p r).
  - exact Hsub.
Qed.

Lemma confirmation_drops_rejected_items_of_task_witness :
  exists c' w',
    sync_batch
      (env_with task_remote_tie
         (fun _ => Reply (mkResponse
                            [mkProcessed "t1" Rs_success None None None;
                             mkProcessed "t1" Rs_error None None
                                         (Some "rejected")]
                            (Instant 0))))
      [item_create_t1; item_update_t1] (mkTally 0 0 []) world_two_items_t1
    = (Ok c', w') /\
    (forall r, In r (sync_queue (w_db w')) -> q_task_id r <> "t1").
Proof.
  destruct (confirmation_drops_rejected_items_of_task
              (env_with task_remote_tie
                 (fun _ => Reply (mkResponse
                                    [mkProcessed "t1" Rs_success None None
                                                 None;
                                     mkProcessed "t1" Rs_error None None
                                                 (Some "rejected")]
                                    (Instant 0))))
              world_two_items_t1 [item_create_t1; item_update_t1]
              (mkTally 0 0 [])
              [mkProcessed "t1" Rs_success None None None;
               mkProcessed "t1" Rs_error None None (Some "rejected")]
              (Instant 0) (mkProcessed "t1" Rs_success None None None)
              (fun _ => eq_refl) eq_refl)
    as (c' & w' & E & Hgone & _).
  - repeat constructor; discriminate.
  - left. reflexivity.
  - reflexivity.
  - exists c', w'. split; [exact E | exact Hgone].
Defined.

Lemma handleSyncError_ok_from env item e w :
  (forall k, w_dbcalls w <= k -> db_fault env k = false) ->
  exists w',
    handleSyncError env item e w = (Ok tt, w') /\
    w_dbcalls w <= w_dbcalls w'.
Proof.
  intros H. unfold handleSyncError, bind, db_run, ret.
  destruct (SYNC_RETRY_ATTEMPTS env <=? q_retry_count item + 1).
  - rewrite (H (w_dbcalls w)) by lia. cbn [w_dbcalls].
    rewrite (H (S (w_dbcalls w))) by lia.
    eexists. split; [reflexivity|]. cbn. lia.
  - rewrite (H (w_dbcalls w)) by lia.
    eexists. split; [reflexivity|]. cbn. lia.
Qed.

Lemma fail_items_ok_from env e batch :
  forall errors w,
    (forall k, w_dbcalls w <= k -> db_fault env k = false) ->
    exists w',
      fail_items env batch e errors w =
      (Ok (errors ++
           map (fun it => ErrItem (q_task_id it) (q_operation it) e) batch),
       w').
Proof.
  induction batch as [|item rest IH]; intros errors w H; cbn [fail_items].
  - exists w. now rewrite app_nil_r.
  - destruct (handleSyncError_ok_from env item e w H) as (w1 & E1 & Hle).
    unfold bind. rewrite E1.
    destruct (IH (errors ++ [ErrItem (q_task_id item) (q_operation item) e])
                 w1) as (w2 & E2).
    { intros k Hk. apply H. lia. }
    exists w2. rewrite E2. cbn [map]. now rewrite <- app_assoc.
Qed.

(** The loop over the results when the first statement for the result
    after [confirmed] is rejected: the confirmed ones are counted, and the
    exception is pending. *)
Lemma tally_results_rejected_after env r rest :
  r_status r = Rs_success ->
  forall confirmed c w,
    Forall (fun p => r_status p = Rs_success) confirmed ->
    (forall k, k <> w_dbcalls w + 2 * List.length confirmed ->
               db_fault env k = false) ->
    db_fault env (w_dbcalls w + 2 * List.length confirmed) = true ->
    exists e w',
      tally_results env (confirmed ++ r :: rest) c w =
        ((mkTally (synced c + List.length confirmed) (failed c) (errs c),
          Some e), w') /\
      w_dbcalls w' = S (w_dbcalls w + 2 * List.length confirmed).
Proof.
  intros Hr. induction confirmed as [|p ps IH]; intros c w Hall Hok Hbad;
    cbn [app tally_results List.length].
  - cbn [List.length] in Hbad. rewrite Nat.mul_0_r, Nat.add_0_r in Hbad.
    rewrite Hr. unfold updateSyncStatus, bind, new_Date, db_run.
    cbn [w_dbcalls]. rewrite Hbad. eexists. eexists.
    split; [rewrite Nat.add_0_r; destruct c; reflexivity | cbn; lia].
  - inversion Hall as [|x xs Hp Hps]; subst. rewrite Hp.
    cbn [List.length] in Hok, Hbad.
    unfold updateSyncStatus, bind, new_Date, db_run. cbn [w_dbcalls w_db].
    rewrite (Hok (w_dbcalls w)) by lia. cbn [w_dbcalls w_db].
    rewrite (Hok (S (w_dbcalls w))) by lia.
    match goal with
    | |- context [tally_results env (ps ++ r :: rest) ?c1 ?w1] =>
        destruct (IH c1 w1 Hps) as (e & w' & E & Hn)
    end.
    + intros k Hk. apply Hok. cbn [w_dbcalls] in Hk. lia.
    + cbn [w_dbcalls]. rewrite <- Hbad. f_equal. lia.
    + exists e, w'. rewrite E. cbn [synced failed errs w_dbcalls] in *.
      replace (synced c + S (List.length ps))
        with (synced c + 1 + List.length ps) by lia.
      split; [reflexivity | lia].
Qed.

(** X24: when the database rejects the first statement for a confirmed
    result, after having accepted those for the results before it (a reply
    without conflicts, the database accepting every other call), the
    results already counted as synced stay counted and the whole batch is
    counted as failed on top: synced + failed grows by the size of the
    batch plus the number of results recorded before the rejection. *)
Theorem rejected_write_counts_items_twice :
  forall env w batch c confirmed r rest stamp,
    net_post env (w_http w)
             (mkRequest batch (Instant (clock env (w_clock w))))
    = Reply (mkResponse (confirmed ++ r :: rest) stamp) ->
    Forall (fun p => r_status p = Rs_success) confirmed ->
    r_status r = Rs_success ->
    Forall (fun p => r_status p <> Rs_conflict) rest ->
    (forall k, k <> w_dbcalls w + 2 * List.length confirmed ->
               db_fault env k = false) ->
    db_fault env (w_dbcalls w + 2 * List.length confirmed) = true ->
    exists e w',
      sync_batch env batch c w =
        (Ok (mkTally (synced c + List.length confirmed)
                     (failed c + List.length batch)
                     (errs c ++
                      map (fun it => ErrItem (q_task_id it) (q_operation it) e)
                          batch)),
         w').
Proof.
  intros env w batch c confirmed r rest stamp Hpost Hall Hr Hrest Hok Hbad.
  unfold sync_batch. rewrite processBatch_unfold. cbv zeta. rewrite Hpost.
  cbn [processed_items]. rewrite resolve_conflicts_none.
  - cbn [processed_items].
    match goal with
    | |- context [tally_results env _ c ?w1] =>
        destruct (tally_results_rejected_after env r rest Hr confirmed c w1
                    Hall Hok Hbad) as (e & w2 & E & Hn)
    end.
    rewrite E. unfold catch_batch, bind.
    destruct (fail_items_ok_from env e batch (errs c) w2) as (w3 & E3).
    { intros k Hk. apply Hok. cbn [w_dbcalls] in Hn. lia. }
    cbn [errs]. rewrite E3. exists e, w3. reflexivity.
  - apply Forall_app. split.
    + eapply Forall_impl; [|exact Hall]. cbn. intros p Hp. congruence.
    + constructor; [congruence | exact Hrest].
Qed.

Lemma rejected_write_counts_items_twice_witness :
  exists e w',
    sync_batch
      (mkEnv 50 3 (fun n => n =? 2) (fun n => Z.of_nat n) letter
             (fun _ => confirm_all) (fun _ _ => Reply task_remote_tie)
             (mkDefaults (fun _ => None) (fun n => Z.of_nat n)))
      [item_n 0; item_n 1] (mkTally 0 0 []) world_three_items
    = (Ok (mkTally 1 2 [ErrItem (letter 10) Op_create e;
                        ErrItem (letter 11) Op_create e]), w').
Proof.
  destruct (rejected_write_counts_items_twice
              (mkEnv 50 3 (fun n => n =? 2) (fun n => Z.of_nat n) letter
                 (fun _ => confirm_all) (fun _ _ => Reply task_remote_tie)
                 (mkDefaults (fun _ => None) (fun n => Z.of_nat n)))
              world_three_items [item_n 0; item_n 1] (mkTally 0 0 [])
              [mkProcessed (letter 10) Rs_success None None None]
              (mkProcessed (letter 11) Rs_success None None None) []
              (Instant 0) eq_refl)
    as (e & w' & E).
  - repeat constructor.
  - reflexivity.
  - constructor.
  - intros k Hk. cbn in Hk |- *. apply Nat.eqb_neq. exact Hk.
  - reflexivity.
  - exists e, w'. exact E.
Defined.

(* ================================================================== *)
(** ** Items whose id the table left NULL *)

(** Whatever the item, handleSyncError changes no row of the queue when the
    id of the item is NULL: [WHERE id = NULL] selects nothing. *)
Lemma handleSyncError_null_id env item e w :
  healthy env ->
  q_id item = None ->
  fst (handleSyncError env item e w) = Ok tt /\
  sync_queue (w_db (snd (handleSyncError env item e w))) = sync_queue (w_db w).
Proof.
  intros Hh Hnull.
  destruct (handleSyncError_healthy env Hh item e w) as (w' & E & Hd).
  rewrite E. cbn [fst snd]. split; [reflexivity|].
  rewrite Hd, handleSyncError_db_queue, Hnull.
  rewrite <- (map_id (sync_queue (w_db w))) at 2.
  apply map_ext. intros r. destruct (q_id r); reflexivity.
Qed.

(** C7, at a failing input: the table leaves NULL the id that updateTask
    does not name; the queue holds the update item of task t1 and the
    request of its batch fails.  sync counts the item as failed and calls
    handleSyncError on it, but the row is left as it was: retry_count 0 and
    no last_error. *)
Theorem transport_failure_not_recorded_for_null_id :
  sync_queue (w_db world_t1_updated) = [item_updated_t1] /\
  q_id item_updated_t1 = None /\
  q_retry_count item_updated_t1 = 0 /\
  q_last_error item_updated_t1 = None /\
  exists w',
    sync (env_null_ids unreachable) world_t1_updated =
      Some (Ok (mkResult false 0 1
                  [ErrItem "t1" Op_update "timeout of 8000ms exceeded"]),
            w') /\
    sync_queue (w_db w') = [item_updated_t1].
Proof.
  split; [reflexivity|]. split; [reflexivity|]. split; [reflexivity|].
  split; [reflexivity|].
  eexists. split; [vm_compute; reflexivity | reflexivity].
Qed.

